(** * FISHY marketplace: the store schema, its row-level policies and the
    order-placement path

    A shallow embedding of
    - the SQL migration (tables, CHECK / UNIQUE / FOREIGN KEY constraints,
      row-level-security policies, [generate_farmer_code], [set_farmer_code]),
    - the data-access helpers of [src/lib/supabase.ts], and
    - [handleCheckout] of the customer dashboard,
    followed by the properties of the specification that concern them. *)

From Stdlib Require Import List String Ascii Bool ZArith NArith QArith Qround Lia.
From Stdlib Require Import Floats DecimalString.
From Stdlib Require Import Permutation Sorted.
Import ListNotations.

Local Open Scope string_scope.
Local Open Scope list_scope.
Local Open Scope Z_scope.

(* ================================================================== *)
(** ** Values *)

(** A [uuid] column value.  supabase-js hands uuids to the client in their
    canonical 8-4-4-4-12 hexadecimal text form; that form is injective, is
    never an array index and never the name of a member of
    [Object.prototype], so a JS object keyed by it behaves as a plain
    insertion-ordered map and [===] on the texts is equality of the uuids.
    The model keeps the 128-bit value. *)
Record uuid : Type := Uuid { uuid_bits : N }.

Definition uuid_eqb (a b : uuid) : bool := N.eqb (uuid_bits a) (uuid_bits b).

(** [timestamptz], as a number of microseconds. *)
Definition timestamp : Type := Z.

(** A JS [number] is an IEEE-754 binary64 value. *)
Definition number : Type := float.

(** [integer] and [decimal(10,2)] column values; a decimal is kept as its
    number of hundredths. *)
Definition integer : Type := Z.
Definition decimal : Type := Z.

Inductive fish_type : Type := catfish | tilapia | dry_fish.
Inductive id_type : Type := nin | company | passport.
Inductive order_status : Type := pending | confirmed | shipped | delivered | cancelled.

(* ================================================================== *)
(** ** Tables *)

Module Farmer.
Record t : Type := mk
  { id : uuid;
    full_name : string;
    company_name : string;
    phone : string;
    email : string;
    password_hash : string;
    country : string;
    state : string;
    local_government : string;
    city : string;
    street : string;
    business_cert_url : option string;
    id_card_url : option string;
    id_type : id_type;
    unique_code : string;
    is_verified : bool;
    created_at : timestamp;
    updated_at : timestamp }.
End Farmer.

Module Customer.
Record t : Type := mk
  { id : uuid;
    full_name : string;
    company_name : string;
    company_address : string;
    phone : string;
    email : string;
    password_hash : string;
    created_at : timestamp;
    updated_at : timestamp }.
End Customer.

Module FishListing.
Record t : Type := mk
  { id : uuid;
    farmer_id : uuid;
    fish_type : fish_type;
    quantity : integer;
    price_per_unit : decimal;
    description : string;
    is_active : bool;
    created_at : timestamp;
    updated_at : timestamp }.
End FishListing.

Module Order.
Record t : Type := mk
  { id : uuid;
    customer_id : uuid;
    farmer_id : uuid;
    farmer_code : string;
    total_amount : decimal;
    status : order_status;
    created_at : timestamp;
    updated_at : timestamp }.
End Order.

Module OrderItem.
Record t : Type := mk
  { id : uuid;
    order_id : uuid;
    fish_listing_id : uuid;
    quantity : integer;
    unit_price : decimal;
    subtotal : decimal;
    created_at : timestamp }.
End OrderItem.

(** The five tables.  The foreign-key columns are nullable in the DDL; the
    client types them [string] and never writes NULL, and the model follows
    the client's types. *)
Record Database : Type := mkDatabase
  { farmers : list Farmer.t;
    customers : list Customer.t;
    fish_listings : list FishListing.t;
    orders : list Order.t;
    order_items : list OrderItem.t }.

(** What a request runs against: the tables, the signed-in user of the
    supabase client ([auth.getUser()] on the client, [auth.uid()] in a
    policy; [None] is the [anon] role), and the sources the server draws on:
    [gen_random_uuid()], [random()] and [now()].  The two random sources are
    streams with a count of the draws made so far. *)
Record World : Type := mkWorld
  { db : Database;
    session : option uuid;
    uuid_src : nat -> uuid;
    uuid_calls : nat;
    random_src : nat -> Q;
    random_calls : nat;
    now : timestamp }.

Definition set_db (w : World) (d : Database) : World :=
  mkWorld d (session w) (uuid_src w) (uuid_calls w)
          (random_src w) (random_calls w) (now w).

Definition set_uuid_calls (w : World) (n : nat) : World :=
  mkWorld (db w) (session w) (uuid_src w) n
          (random_src w) (random_calls w) (now w).

Definition set_random_calls (w : World) (n : nat) : World :=
  mkWorld (db w) (session w) (uuid_src w) (uuid_calls w)
          (random_src w) n (now w).

(* ================================================================== *)
(** ** Errors, responses and asynchronous functions *)

(** The error object of a PostgREST response, by its SQLSTATE (or PostgREST
    code) and the table, constraint or column its message names.  Its
    [details] text, which quotes the offending key or row, is not kept. *)
Inductive PgError : Type :=
| insufficient_privilege (table : string)      (* 42501, row-level security *)
| check_violation (constraint : string)        (* 23514 *)
| foreign_key_violation (constraint : string)  (* 23503 *)
| unique_violation (constraint : string)       (* 23505 *)
| data_exception (column : string)             (* 22xxx / 23502: not a value of the column *)
| no_single_row.                               (* PGRST116, from [.single()] *)

(** What a JS [throw] carries here: [new Error(message)] or a response's
    error object. *)
Inductive JsError : Type :=
| Error (message : string)
| ApiError (e : PgError).

(** The [{ data, error }] object of supabase-js. *)
Record Response (A : Type) : Type := mkResponse
  { data : option A;
    error : option PgError }.
Arguments mkResponse {A} _ _.
Arguments data {A} _.
Arguments error {A} _.

Definition ok {A : Type} (a : A) : Response A := mkResponse (Some a) None.
Definition failed {A : Type} (e : PgError) : Response A := mkResponse None (Some e).

(** How a call of an [async] function ends. *)
Inductive Completion (A : Type) : Type :=
| Normal (a : A)
| Throw (e : JsError).
Arguments Normal {A} _.
Arguments Throw {A} _.

(** An [async] function: it runs against the world and leaves the world it
    has reached behind, also when it throws. *)
Definition Async (A : Type) : Type := World -> Completion A * World.

Definition ret {A : Type} (a : A) : Async A := fun w => (Normal a, w).

Definition throw {A : Type} (e : JsError) : Async A := fun w => (Throw e, w).

Definition bind {A B : Type} (m : Async A) (k : A -> Async B) : Async B :=
  fun w =>
    match m w with
    | (Normal a, w') => k a w'
    | (Throw e, w') => (Throw e, w')
    end.

Declare Scope async_scope.
Delimit Scope async_scope with async.
Notation "x <- m ;; k" := (bind m (fun x => k))
  (at level 61, m at next level, right associativity) : async_scope.
Notation "m ;;; k" := (bind m (fun _ => k))
  (at level 61, right associativity) : async_scope.

(** [supabase.auth.getUser()]. *)
Definition getUser : Async (option uuid) := fun w => (Normal (session w), w).

(* ================================================================== *)
(** ** Row-level security *)

Inductive command : Type := SELECT | INSERT | UPDATE | DELETE | ALL.

(** [CREATE POLICY name ON table FOR cmd TO authenticated USING / WITH CHECK
    (expr)].  Every policy of the migration has one expression; for a
    [FOR ALL] policy it is the USING expression and, no WITH CHECK being
    given, the check on written rows as well.  The expression sees
    [auth.uid()] and, for the two policies with a subquery, the tables. *)
Record Policy (row : Type) : Type := mkPolicy
  { pol_name : string;
    pol_for : command;
    pol_expr : uuid -> Database -> row -> bool }.
Arguments mkPolicy {row} _ _ _.
Arguments pol_name {row} _.
Arguments pol_for {row} _.
Arguments pol_expr {row} _ _ _ _.

Definition applies {row : Type} (c : command) (p : Policy row) : bool :=
  match pol_for p, c with
  | ALL, _ => true
  | SELECT, SELECT => true
  | INSERT, INSERT => true
  | UPDATE, UPDATE => true
  | DELETE, DELETE => true
  | _, _ => false
  end.

(** Row-level security is enabled on every table and every policy is granted
    to [authenticated] only: a row passes for a command when some policy for
    that command accepts it, and nothing passes for [anon]. *)
Definition permitted {row : Type} (pols : list (Policy row)) (c : command)
    (who : option uuid) (d : Database) (r : row) : bool :=
  match who with
  | None => false
  | Some uid => existsb (fun p => applies c p && pol_expr p uid d r) pols
  end.

Definition farmers_policies : list (Policy Farmer.t) :=
  [ mkPolicy "Anyone can view farmer profiles" SELECT
      (fun _ _ _ => true);
    mkPolicy "Farmers can read own data" SELECT
      (fun uid _ r => uuid_eqb uid (Farmer.id r));
    mkPolicy "Farmers can update own data" UPDATE
      (fun uid _ r => uuid_eqb uid (Farmer.id r));
    mkPolicy "Enable insert for authenticated users only" INSERT
      (fun uid _ r => uuid_eqb uid (Farmer.id r)) ].

Definition customers_policies : list (Policy Customer.t) :=
  [ mkPolicy "Customers can read own data" SELECT
      (fun uid _ r => uuid_eqb uid (Customer.id r));
    mkPolicy "Customers can update own data" UPDATE
      (fun uid _ r => uuid_eqb uid (Customer.id r));
    mkPolicy "Enable insert for authenticated users only" INSERT
      (fun uid _ r => uuid_eqb uid (Customer.id r)) ].

Definition fish_listings_policies : list (Policy FishListing.t) :=
  [ mkPolicy "Anyone can read active fish listings" SELECT
      (fun _ _ r => Bool.eqb (FishListing.is_active r) true);
    mkPolicy "Farmers can manage own listings" ALL
      (fun uid _ r => uuid_eqb (FishListing.farmer_id r) uid) ].

Definition orders_policies : list (Policy Order.t) :=
  [ mkPolicy "Customers can read own orders" SELECT
      (fun uid _ r => uuid_eqb (Order.customer_id r) uid);
    mkPolicy "Farmers can read orders for their fish" SELECT
      (fun uid _ r => uuid_eqb (Order.farmer_id r) uid);
    mkPolicy "Customers can create orders" INSERT
      (fun uid _ r => uuid_eqb (Order.customer_id r) uid) ].

(** The subqueries read [orders] as the requesting user; the rows they look
    for ([customer_id] or [farmer_id] equal to [auth.uid()]) are rows that
    user may read, so the policies of [orders] remove none of them. *)
Definition order_items_policies : list (Policy OrderItem.t) :=
  [ mkPolicy "Users can read order items for their orders" SELECT
      (fun uid d r =>
         existsb (fun o => uuid_eqb (Order.id o) (OrderItem.order_id r)
                           && (uuid_eqb (Order.customer_id o) uid
                               || uuid_eqb (Order.farmer_id o) uid))
                 (orders d));
    mkPolicy "Customers can create order items" INSERT
      (fun uid d r =>
         existsb (fun o => uuid_eqb (Order.id o) (OrderItem.order_id r)
                           && uuid_eqb (Order.customer_id o) uid)
                 (orders d)) ].

(* ================================================================== *)
(** ** Constraints *)

Definition require (holds : bool) (e : PgError) : option PgError :=
  if holds then None else Some e.

(** The first violation met, in the order the server checks a new row:
    row-level security, NOT NULL and CHECK constraints, unique indexes,
    foreign keys, and last the policies a RETURNING clause adds. *)
Fixpoint first_violation (checks : list (option PgError)) : option PgError :=
  match checks with
  | [] => None
  | Some e :: _ => Some e
  | None :: rest => first_violation rest
  end.

Definition has_farmer (d : Database) (i : uuid) : bool :=
  existsb (fun f => uuid_eqb (Farmer.id f) i) (farmers d).
Definition has_customer (d : Database) (i : uuid) : bool :=
  existsb (fun c => uuid_eqb (Customer.id c) i) (customers d).
Definition has_listing (d : Database) (i : uuid) : bool :=
  existsb (fun l => uuid_eqb (FishListing.id l) i) (fish_listings d).
Definition has_order (d : Database) (i : uuid) : bool :=
  existsb (fun o => uuid_eqb (Order.id o) i) (orders d).
Definition has_order_item (d : Database) (i : uuid) : bool :=
  existsb (fun x => uuid_eqb (OrderItem.id x) i) (order_items d).

(** What the server finds in a request body for a number column: no key
    of that name, [null], or a value of the column's type.  [JSON.stringify]
    writes a number that is not finite ([NaN], [Infinity], [-Infinity]) as
    [null]. *)
Inductive Cell : Type :=
| absent
| null
| value (z : Z).

(** The body is read before any row is looked at: a finite number the
    column's type has no value for is refused then ([None]); a number that
    is not finite, and that the column has no value for, arrives as
    [null]. *)
Definition read_number (read : number -> option Z) (x : number) : option Cell :=
  match read x with
  | Some z => Some (value z)
  | None => if is_finite x then None else Some null
  end.

(** A number the body can carry to the column: one the column has a value
    for, or one that is not finite and is sent as [null]. *)
Definition readable (read : number -> option Z) (x : number) : bool :=
  match read x with
  | Some _ => true
  | None => negb (is_finite x)
  end.

(** A NOT NULL column refuses [null]. *)
Definition not_null (column : string) (c : Cell) : option PgError :=
  match c with
  | null => Some (data_exception column)
  | _ => None
  end.

(** The value a new row holds in the column; for [null] the row is refused
    by [not_null] before anything reads the column, and 0 stands in. *)
Definition held (c : Cell) : Z :=
  match c with
  | value z => z
  | _ => 0
  end.

(** A new row of [fish_listings]: the policies for INSERT come first, then
    NOT NULL, then the CHECK constraints. *)
Definition fish_listings_violation (w : World) (quantity price : Cell)
    (r : FishListing.t) : option PgError :=
  first_violation
    [ require (permitted fish_listings_policies INSERT (session w) (db w) r)
        (insufficient_privilege "fish_listings");
      not_null "quantity" quantity;
      not_null "price_per_unit" price;
      require (0 <? FishListing.quantity r)
        (check_violation "fish_listings_quantity_check");
      require (0 <? FishListing.price_per_unit r)
        (check_violation "fish_listings_price_per_unit_check");
      require (negb (has_listing (db w) (FishListing.id r)))
        (unique_violation "fish_listings_pkey");
      require (has_farmer (db w) (FishListing.farmer_id r))
        (foreign_key_violation "fish_listings_farmer_id_fkey");
      require (permitted fish_listings_policies SELECT (session w) (db w) r)
        (insufficient_privilege "fish_listings") ].

Definition orders_violation (w : World) (r : Order.t) : option PgError :=
  first_violation
    [ require (permitted orders_policies INSERT (session w) (db w) r)
        (insufficient_privilege "orders");
      require (0 <? Order.total_amount r)
        (check_violation "orders_total_amount_check");
      require (negb (has_order (db w) (Order.id r)))
        (unique_violation "orders_pkey");
      require (has_customer (db w) (Order.customer_id r))
        (foreign_key_violation "orders_customer_id_fkey");
      require (has_farmer (db w) (Order.farmer_id r))
        (foreign_key_violation "orders_farmer_id_fkey");
      require (permitted orders_policies SELECT (session w) (db w) r)
        (insufficient_privilege "orders") ].

Definition order_items_violation (w : World) (r : OrderItem.t) : option PgError :=
  first_violation
    [ require (permitted order_items_policies INSERT (session w) (db w) r)
        (insufficient_privilege "order_items");
      require (0 <? OrderItem.quantity r)
        (check_violation "order_items_quantity_check");
      require (0 <? OrderItem.unit_price r)
        (check_violation "order_items_unit_price_check");
      require (0 <? OrderItem.subtotal r)
        (check_violation "order_items_subtotal_check");
      require (negb (has_order_item (db w) (OrderItem.id r)))
        (unique_violation "order_items_pkey");
      require (has_order (db w) (OrderItem.order_id r))
        (foreign_key_violation "order_items_order_id_fkey");
      require (has_listing (db w) (OrderItem.fish_listing_id r))
        (foreign_key_violation "order_items_fish_listing_id_fkey");
      require (permitted order_items_policies SELECT (session w) (db w) r)
        (insufficient_privilege "order_items") ].

(* ================================================================== *)
(** ** Client-side values *)

(** The argument of [createFishListing]. *)
Module ListingData.
Record t : Type := mk
  { fish_type : fish_type;
    quantity : number;
    price_per_unit : number;
    description : string }.
End ListingData.

(** [Partial<FishListing>], the argument of [updateFishListing], over the
    columns of the table ([farmer], the joined object of the catalog, is no
    column and is left out). *)
Module ListingUpdates.
Record t : Type := mk
  { id : option uuid;
    farmer_id : option uuid;
    fish_type : option fish_type;
    quantity : option number;
    price_per_unit : option number;
    description : option string;
    is_active : option bool;
    created_at : option timestamp;
    updated_at : option timestamp }.
End ListingUpdates.

(** The [farmer] object the catalog attaches to a listing:
    [farmer:farmers(full_name, company_name, unique_code, city, state)]. *)
Module FarmerInfo.
Record t : Type := mk
  { full_name : string;
    company_name : string;
    unique_code : string;
    city : string;
    state : string }.
End FarmerInfo.

(** A row of the catalog: the listing's columns ([*]) and the joined farmer,
    [null] when the listing's farmer is not among the farmers the reader may
    see. *)
Module Listed.
Record t : Type := mk
  { listing : FishListing.t;
    farmer : option FarmerInfo.t }.
End Listed.

(** [CartItem extends FishListing]: a listing as the client holds it, with
    the quantity ordered. *)
Module CartItem.
Record t : Type := mk
  { id : uuid;
    farmer_id : uuid;
    fish_type : fish_type;
    quantity : number;
    price_per_unit : number;
    description : string;
    is_active : bool;
    created_at : timestamp;
    updated_at : timestamp;
    farmer : option FarmerInfo.t;
    orderQuantity : number }.
End CartItem.

(** An element of [orderData.items]. *)
Module ItemData.
Record t : Type := mk
  { fish_listing_id : uuid;
    quantity : number;
    unit_price : number;
    subtotal : number }.
End ItemData.

(** The argument of [createOrder]. *)
Module OrderData.
Record t : Type := mk
  { farmer_id : uuid;
    farmer_code : string;
    total_amount : number;
    items : list ItemData.t }.
End OrderData.

(** A value of the [ordersByFarmer] object of [handleCheckout]. *)
Module Group.
Record t : Type := mk
  { farmer_id : uuid;
    farmer_code : string;
    items : list ItemData.t;
    total : number }.
End Group.

(** The element [{ order_id: order.id, ...item }] of [orderItems]. *)
Module NewItem.
Record t : Type := mk
  { order_id : uuid;
    item : ItemData.t }.
End NewItem.

(* ================================================================== *)
(** ** Table updates *)

Definition with_fish_listings (d : Database) (l : list FishListing.t) : Database :=
  mkDatabase (farmers d) (customers d) l (orders d) (order_items d).

Definition with_orders (d : Database) (l : list Order.t) : Database :=
  mkDatabase (farmers d) (customers d) (fish_listings d) l (order_items d).

Definition with_order_items (d : Database) (l : list OrderItem.t) : Database :=
  mkDatabase (farmers d) (customers d) (fish_listings d) (orders d) l.

Definition with_farmers (d : Database) (l : list Farmer.t) : Database :=
  mkDatabase l (customers d) (fish_listings d) (orders d) (order_items d).

(** [gen_random_uuid()], the default of every [id] column. *)
Definition gen_random_uuid (w : World) : uuid * World :=
  (uuid_src w (uuid_calls w), set_uuid_calls w (S (uuid_calls w))).

(** [.order('created_at', { ascending: false })]. *)
Fixpoint insert_desc {A : Type} (key : A -> timestamp) (x : A) (l : list A) : list A :=
  match l with
  | [] => [x]
  | y :: rest => if key y <? key x then x :: l else y :: insert_desc key x rest
  end.

Definition order_desc {A : Type} (key : A -> timestamp) (l : list A) : list A :=
  fold_right (insert_desc key) [] l.

(* ================================================================== *)
(** ** The server's reading of numbers *)

(** How the server reads a JS number, sent as JSON, into an [integer] and
    into a [decimal(10,2)] column ([None]: the column has no value for it
    and the request is refused, see [read_number]).  The requests below are
    written, and their properties proved, for any such pair. *)
Class Server : Type := mkServer
  { to_integer : number -> option integer;
    to_decimal : number -> option decimal }.

(* ================================================================== *)
(** ** The conversions of a PostgreSQL server *)

(** A JSON number read into an [integer] column: whole numbers within the
    32-bit range; anything else is refused ([NaN] and the infinities are
    serialised as [null], which the NOT NULL columns refuse). *)
Definition pg_integer (x : number) : option integer :=
  match Prim2SF x with
  | S754_zero _ => Some 0
  | S754_finite s m e =>
      let whole := (0 <=? e) || (Z.pos m mod 2 ^ (- e) =? 0) in
      let v := if 0 <=? e then Z.pos m * 2 ^ e else Z.pos m / 2 ^ (- e) in
      let z := if s then - v else v in
      if whole && (-2147483648 <=? z) && (z <=? 2147483647) then Some z else None
  | _ => None
  end.

(** [JSON.stringify] prints a finite number as the decimal with the fewest
    digits that reads back as the same number, and among those of that
    length the one nearest to it (the even one when two are as near):
    [Number::toString] of ECMAScript.  The numbers that read back as
    [m * 2^e] lie between the midpoints [lo] and [hi] to its two
    neighbours, the midpoints included when [m] is even. *)
Definition pow10 (p : Z) : Q :=
  if 0 <=? p then inject_Z (10 ^ p) else 1 / inject_Z (10 ^ (- p)).

Definition pow2 (p : Z) : Q :=
  if 0 <=? p then inject_Z (2 ^ p) else 1 / inject_Z (2 ^ (- p)).

Definition Qlt_bool (a b : Q) : bool := negb (Qle_bool b a).

(** The [d] with [10^(d-1) <= v < 10^d] for a positive [v], found from a
    first guess. *)
Fixpoint magnitude (fuel : nat) (v : Q) (d : Z) : Z :=
  match fuel with
  | O => d
  | S k =>
      if Qle_bool (pow10 d) v then magnitude k v (d + 1)
      else if Qle_bool (pow10 (d - 1)) v then d
      else magnitude k v (d - 1)
  end.

(** The decimals of [k] digits next to [v] are tried for [k] = 1, 2, ...;
    seventeen digits always read back. *)
Fixpoint shortest (fuel : nat) (k d : Z) (v lo hi : Q) (closed : bool) : Q :=
  match fuel with
  | O => v
  | S rest =>
      let unit := pow10 (d - k) in
      let s := Qfloor (v / unit) in
      let below := (inject_Z s * unit)%Q in
      let above := (inject_Z (s + 1) * unit)%Q in
      let reads_back (c : Q) :=
        if closed then Qle_bool lo c && Qle_bool c hi
        else Qlt_bool lo c && Qlt_bool c hi in
      match reads_back below, reads_back above with
      | true, true =>
          if Qlt_bool (v - below) (above - v) then below
          else if Qlt_bool (above - v) (v - below) then above
          else if Z.even s then below else above
      | true, false => below
      | false, true => above
      | false, false => shortest rest (k + 1) d v lo hi closed
      end
  end.

(** The value of the text printed for the binary64 number [m * 2^e]. *)
Definition json_value (m : positive) (e : Z) : Q :=
  let v := (inject_Z (Z.pos m) * pow2 e)%Q in
  let hi := (inject_Z (2 * Z.pos m + 1) * pow2 (e - 1))%Q in
  let lo := if (Z.pos m =? 2 ^ 52) && (-1074 <? e)
            then (inject_Z (4 * Z.pos m - 1) * pow2 (e - 2))%Q
            else (inject_Z (2 * Z.pos m - 1) * pow2 (e - 1))%Q in
  let d := magnitude 8 v ((Z.log2 (Z.pos m) + e) * 30103 / 100000 + 1) in
  shortest 17 1 d v lo hi (Z.even (Z.pos m)).

(** A JSON number read into a [decimal(10,2)] column: the decimal of the
    text is rounded to the nearest hundredth, halves away from zero, and
    refused when it then needs more than eight digits before the point. *)
Definition pg_decimal_10_2 (x : number) : option decimal :=
  match Prim2SF x with
  | S754_zero _ => Some 0
  | S754_finite s m e =>
      let h := Qfloor (json_value m e * 100 + (1 # 2))%Q in
      let z := if s then - h else h in
      if Z.abs z <? 10 ^ 10 then Some z else None
  | _ => None
  end.

#[export] Instance postgres : Server := mkServer pg_integer pg_decimal_10_2.

(* ================================================================== *)
(** ** Farmer codes *)

(** [random()]: the next draw of the server's generator. *)
Definition random (w : World) : Q * World :=
  (random_src w (random_calls w), set_random_calls w (S (random_calls w))).

(** [floor(x)::text] for a whole number. *)
Definition text_of_Z (z : Z) : string := NilZero.string_of_int (Z.to_int z).

(** The first [n] characters of [fill] repeated; [rest] is what is left of
    the current round. *)
Fixpoint cycle (n : nat) (fill rest : string) : string :=
  match n with
  | O => ""
  | S k =>
      match rest with
      | String c r => String c (cycle k fill r)
      | EmptyString =>
          match fill with
          | String c r => String c (cycle k fill r)
          | EmptyString => ""
          end
      end
  end.

(** [LPAD(s, n, fill)]: [s] cut to [n] characters when it is longer,
    otherwise preceded by as much of [fill] as brings it to [n]. *)
Definition lpad (s : string) (n : nat) (fill : string) : string :=
  if (n <=? String.length s)%nat then substring 0 n s
  else (cycle (n - String.length s) fill fill ++ s)%string.

(** [chr(n)], for the codes 1 to 127 it is used at. *)
Definition chr (n : Z) : string := String (ascii_of_N (Z.to_N n)) "".

(** The value [code] is assigned in the loop of [generate_farmer_code], from
    the four draws in the order the expression makes them.  A draw is taken
    as the real number it stands for and its product with 1000 or 26 as
    exact; the server multiplies in [float8], which can carry a product
    across a whole number when the draw lies within a rounding error of a
    multiple of 1/1000 or 1/26.  The digits and letters then differ; the
    form of the code does not. *)
Definition farmer_code_from (r1 r2 r3 r4 : Q) : string :=
  ("FSH" ++ lpad (text_of_Z (Qfloor (r1 * 1000))) 3 "0"
   ++ chr (65 + Qfloor (r2 * 26))
   ++ chr (65 + Qfloor (r3 * 26))
   ++ chr (65 + Qfloor (r4 * 26)))%string.

(** [SELECT EXISTS(SELECT 1 FROM farmers WHERE unique_code = code)], read as
    the user the statement runs for. *)
Definition code_exists (w : World) (code : string) : bool :=
  existsb (fun f => String.eqb (Farmer.unique_code f) code)
          (filter (permitted farmers_policies SELECT (session w) (db w)) (farmers (db w))).

(** [generate_farmer_code()].  The LOOP has no bound; [fuel] bounds the
    number of rounds and [None] says it was not enough. *)
Fixpoint generate_farmer_code (fuel : nat) (w : World) : option string * World :=
  match fuel with
  | O => (None, w)
  | S k =>
      let (r1, w1) := random w in
      let (r2, w2) := random w1 in
      let (r3, w3) := random w2 in
      let (r4, w4) := random w3 in
      let code := farmer_code_from r1 r2 r3 r4 in
      let exists_ := code_exists w4 code in
      if negb exists_ then (Some code, w4) else generate_farmer_code k w4
  end.

(** The row of an INSERT into [farmers] before its defaults and triggers:
    the columns [signUpFarmer] sends, and [unique_code], NULL when the
    request does not name it. *)
Module NewFarmer.
Record t : Type := mk
  { id : uuid;
    full_name : string;
    company_name : string;
    phone : string;
    email : string;
    password_hash : string;
    country : string;
    state : string;
    local_government : string;
    city : string;
    street : string;
    business_cert_url : option string;
    id_card_url : option string;
    id_type : id_type;
    unique_code : option string }.
End NewFarmer.

(** [set_farmer_code()], the BEFORE INSERT trigger of [farmers]: the value
    [NEW.unique_code] has when the trigger returns. *)
Definition set_farmer_code (fuel : nat) (new : NewFarmer.t) (w : World)
    : option string * World :=
  match NewFarmer.unique_code new with
  | None => generate_farmer_code fuel w
  | Some code =>
      if String.eqb code "" then generate_farmer_code fuel w else (Some code, w)
  end.

Definition farmers_violation (w : World) (r : Farmer.t) : option PgError :=
  first_violation
    [ require (permitted farmers_policies INSERT (session w) (db w) r)
        (insufficient_privilege "farmers");
      require (negb (existsb (fun f => uuid_eqb (Farmer.id f) (Farmer.id r)) (farmers (db w))))
        (unique_violation "farmers_pkey");
      require (negb (existsb (fun f => String.eqb (Farmer.email f) (Farmer.email r))
                             (farmers (db w))))
        (unique_violation "farmers_email_key");
      require (negb (existsb (fun f => String.eqb (Farmer.unique_code f) (Farmer.unique_code r))
                             (farmers (db w))))
        (unique_violation "farmers_unique_code_key");
      require (permitted farmers_policies SELECT (session w) (db w) r)
        (insufficient_privilege "farmers") ].

(** [from('farmers').insert({...}).select().single()]: the trigger runs
    first, then the row with its defaults is checked and written.  [None]:
    the trigger has not returned within [fuel] rounds. *)
Definition insert_farmer (fuel : nat) (new : NewFarmer.t) (w : World)
    : option (Response Farmer.t) * World :=
  match set_farmer_code fuel new w with
  | (None, w1) => (None, w1)
  | (Some code, w1) =>
      let row := Farmer.mk (NewFarmer.id new) (NewFarmer.full_name new)
                   (NewFarmer.company_name new) (NewFarmer.phone new)
                   (NewFarmer.email new) (NewFarmer.password_hash new)
                   (NewFarmer.country new) (NewFarmer.state new)
                   (NewFarmer.local_government new) (NewFarmer.city new)
                   (NewFarmer.street new) (NewFarmer.business_cert_url new)
                   (NewFarmer.id_card_url new) (NewFarmer.id_type new)
                   code false (now w) (now w) in
      match farmers_violation w1 row with
      | Some e => (Some (failed e), w1)
      | None =>
          (Some (ok row), set_db w1 (with_farmers (db w1) (farmers (db w1) ++ [row])))
      end
  end.

(** The shape of a generated code: [FSH], three digits, three capitals. *)
Definition is_digit (c : ascii) : bool :=
  (48 <=? nat_of_ascii c)%nat && (nat_of_ascii c <=? 57)%nat.
Definition is_upper (c : ascii) : bool :=
  (65 <=? nat_of_ascii c)%nat && (nat_of_ascii c <=? 90)%nat.

Definition code_format (s : string) : bool :=
  match s with
  | String "F" (String "S" (String "H"
      (String d1 (String d2 (String d3
        (String l1 (String l2 (String l3 EmptyString)))))))) =>
      is_digit d1 && is_digit d2 && is_digit d3
      && is_upper l1 && is_upper l2 && is_upper l3
  | _ => false
  end.

(** The code drawn in a round of the loop that starts at position [n] of the
    random source, and the code of the [i]-th round (from 0) of a call that
    starts in [w]. *)
Definition code_at (w : World) (n : nat) : string :=
  farmer_code_from (random_src w n) (random_src w (S n))
                   (random_src w (S (S n))) (random_src w (S (S (S n)))).

Definition round (w : World) (i : nat) : string :=
  code_at w (random_calls w + 4 * i).

Definition three_digits (s : string) : bool :=
  match s with
  | String d1 (String d2 (String d3 EmptyString)) =>
      is_digit d1 && is_digit d2 && is_digit d3
  | _ => false
  end.

Definition one_capital (s : string) : bool :=
  match s with
  | String l EmptyString => is_upper l
  | _ => false
  end.

(** A farmer row with its [phone] and [email] blanked: two tables of
    farmers that agree once blanked differ in phones and emails only. *)
Definition without_contact (f : Farmer.t) : Farmer.t :=
  Farmer.mk (Farmer.id f) (Farmer.full_name f) (Farmer.company_name f) "" ""
    (Farmer.password_hash f) (Farmer.country f) (Farmer.state f)
    (Farmer.local_government f) (Farmer.city f) (Farmer.street f)
    (Farmer.business_cert_url f) (Farmer.id_card_url f) (Farmer.id_type f)
    (Farmer.unique_code f) (Farmer.is_verified f) (Farmer.created_at f)
    (Farmer.updated_at f).

(* ================================================================== *)
(** ** The requests of [src/lib/supabase.ts] *)

Section Store.

Context {server : Server}.

(** A request is modelled by the answer of the server to it; failures of the
    transport between client and server are outside the model. *)

(** A request that does not throw. *)
Definition request {A : Type} (f : World -> A * World) : Async A :=
  fun w => let (a, w') := f w in (Normal a, w').

(** [from('fish_listings').insert({...}).select().single()] *)
Definition insert_fish_listing (farmer_id : uuid) (l : ListingData.t)
    (w : World) : Response FishListing.t * World :=
  match read_number to_integer (ListingData.quantity l) with
  | None => (failed (data_exception "quantity"), w)
  | Some quantity =>
    match read_number to_decimal (ListingData.price_per_unit l) with
    | None => (failed (data_exception "price_per_unit"), w)
    | Some price =>
      let (id, w1) := gen_random_uuid w in
      let row := FishListing.mk id farmer_id (ListingData.fish_type l)
                   (held quantity) (held price)
                   (ListingData.description l) true (now w) (now w) in
      match fish_listings_violation w1 quantity price row with
      | Some e => (failed e, w1)
      | None =>
          (ok row, set_db w1 (with_fish_listings (db w1) (fish_listings (db w1) ++ [row])))
      end
    end
  end.

Definition createFishListing (listingData : ListingData.t)
    : Async (Response FishListing.t) :=
  (user <- getUser ;;
   match user with
   | None => throw (Error "User not authenticated")
   | Some user_id => request (insert_fish_listing user_id listingData)
   end)%async.

Definition farmer_info (f : Farmer.t) : FarmerInfo.t :=
  FarmerInfo.mk (Farmer.full_name f) (Farmer.company_name f) (Farmer.unique_code f)
                (Farmer.city f) (Farmer.state f).

(** The farmer a listing's [farmer_id] refers to, among those the reader may
    see, reduced to the five columns the request names. *)
Definition embed_farmer (w : World) (l : FishListing.t) : option FarmerInfo.t :=
  option_map farmer_info
    (find (fun f => uuid_eqb (Farmer.id f) (FishListing.farmer_id l))
          (filter (permitted farmers_policies SELECT (session w) (db w)) (farmers (db w)))).

(** [from('fish_listings').select('*, farmer:farmers(...)')
      .eq('is_active', true).order('created_at', { ascending: false })] *)
Definition getFishListings : Async (Response (list Listed.t)) :=
  fun w =>
    let visible := filter (permitted fish_listings_policies SELECT (session w) (db w))
                          (fish_listings (db w)) in
    let active := filter (fun l => Bool.eqb (FishListing.is_active l) true) visible in
    let sorted := order_desc FishListing.created_at active in
    (Normal (ok (map (fun l => Listed.mk l (embed_farmer w l)) sorted)), w).

(** [from('fish_listings').select('*').eq('farmer_id', user.id)
      .order('created_at', { ascending: false })] *)
Definition select_farmer_listings (user_id : uuid) (w : World)
    : Response (list FishListing.t) * World :=
  let visible := filter (permitted fish_listings_policies SELECT (session w) (db w))
                        (fish_listings (db w)) in
  let own := filter (fun l => uuid_eqb (FishListing.farmer_id l) user_id) visible in
  (ok (order_desc FishListing.created_at own), w).

Definition getFarmerListings : Async (Response (list FishListing.t)) :=
  (user <- getUser ;;
   match user with
   | None => throw (Error "User not authenticated")
   | Some user_id => request (select_farmer_listings user_id)
   end)%async.

(** [from('farmers').select('*').eq('id', id).single()], the profile read
    of [signInUser]. *)
Definition select_farmer (id : uuid) (w : World) : Response Farmer.t * World :=
  let visible := filter (permitted farmers_policies SELECT (session w) (db w))
                        (farmers (db w)) in
  match filter (fun f => uuid_eqb (Farmer.id f) id) visible with
  | [f] => (ok f, w)
  | _ => (failed no_single_row, w)
  end.

(** An optional number of the request body, read into its column. *)
Definition read_optional (read : number -> option Z) (x : option number)
    : option Cell :=
  match x with
  | None => Some absent
  | Some v => read_number read v
  end.

Definition readable_optional (read : number -> option Z) (x : option number) : bool :=
  match x with
  | None => true
  | Some v => readable read v
  end.

(** The value an UPDATE sets the column to, if any. *)
Definition written (c : Cell) : option Z :=
  match c with
  | value z => Some z
  | _ => None
  end.

Definition or_else {A : Type} (x : option A) (old : A) : A :=
  match x with Some v => v | None => old end.

(** The row an UPDATE writes: the columns the body names replace the old
    ones, and the trigger [trigger_fish_listings_updated_at] then sets
    [updated_at] to [now()]. *)
Definition revise (u : ListingUpdates.t) (quantity price : option Z) (at_ : timestamp)
    (r : FishListing.t) : FishListing.t :=
  FishListing.mk
    (or_else (ListingUpdates.id u) (FishListing.id r))
    (or_else (ListingUpdates.farmer_id u) (FishListing.farmer_id r))
    (or_else (ListingUpdates.fish_type u) (FishListing.fish_type r))
    (or_else quantity (FishListing.quantity r))
    (or_else price (FishListing.price_per_unit r))
    (or_else (ListingUpdates.description u) (FishListing.description r))
    (or_else (ListingUpdates.is_active u) (FishListing.is_active r))
    (or_else (ListingUpdates.created_at u) (FishListing.created_at r))
    at_.

(** The rows an UPDATE or DELETE with [.eq('id', id)] reaches: a row the
    requester may not read, or that no policy for the command accepts, is
    passed over without an error. *)
Definition reached (c : command) (w : World) (id : uuid) (r : FishListing.t) : bool :=
  uuid_eqb (FishListing.id r) id
  && permitted fish_listings_policies SELECT (session w) (db w) r
  && permitted fish_listings_policies c (session w) (db w) r.

(** What a revised row must satisfy; [old] is the row it replaces and
    [kept] are the rows the UPDATE does not reach.  A column set to [null]
    is refused here, on a row the UPDATE has reached, and not before. *)
Definition revised_violation (w : World) (kept : list FishListing.t)
    (quantity price : Cell) (old new : FishListing.t) : option PgError :=
  first_violation
    [ require (permitted fish_listings_policies UPDATE (session w) (db w) new)
        (insufficient_privilege "fish_listings");
      require (permitted fish_listings_policies SELECT (session w) (db w) new)
        (insufficient_privilege "fish_listings");
      not_null "quantity" quantity;
      not_null "price_per_unit" price;
      require (0 <? FishListing.quantity new)
        (check_violation "fish_listings_quantity_check");
      require (0 <? FishListing.price_per_unit new)
        (check_violation "fish_listings_price_per_unit_check");
      require (negb (existsb (fun k => uuid_eqb (FishListing.id k) (FishListing.id new)) kept))
        (unique_violation "fish_listings_pkey");
      require (has_farmer (db w) (FishListing.farmer_id new))
        (foreign_key_violation "fish_listings_farmer_id_fkey");
      require (uuid_eqb (FishListing.id new) (FishListing.id old)
               || negb (existsb (fun x => uuid_eqb (OrderItem.fish_listing_id x)
                                                   (FishListing.id old))
                                (order_items (db w))))
        (foreign_key_violation "order_items_fish_listing_id_fkey") ].

(** [from('fish_listings').update(updates).eq('id', id).select().single()].
    [.single()] refuses a result that is not exactly one row, and the
    statement is then rolled back. *)
Definition update_fish_listing (id : uuid) (u : ListingUpdates.t)
    (w : World) : Response FishListing.t * World :=
  match read_optional to_integer (ListingUpdates.quantity u) with
  | None => (failed (data_exception "quantity"), w)
  | Some quantity =>
    match read_optional to_decimal (ListingUpdates.price_per_unit u) with
    | None => (failed (data_exception "price_per_unit"), w)
    | Some price =>
      let rows := fish_listings (db w) in
      let hit := filter (reached UPDATE w id) rows in
      let kept := filter (fun r => negb (reached UPDATE w id r)) rows in
      let change := revise u (written quantity) (written price) (now w) in
      match first_violation
              (map (fun r => revised_violation w kept quantity price r (change r)) hit) with
      | Some e => (failed e, w)
      | None =>
        match hit with
        | [r] =>
            (ok (change r),
             set_db w (with_fish_listings (db w)
                         (map (fun r => if reached UPDATE w id r then change r else r) rows)))
        | _ => (failed no_single_row, w)
        end
      end
    end
  end.

Definition updateFishListing (id : uuid) (updates : ListingUpdates.t)
    : Async (Response FishListing.t) :=
  request (update_fish_listing id updates).

(** [from('fish_listings').delete().eq('id', id)]: no row is asked back, so
    [data] is [null]; the order items of a deleted listing go with it
    ([ON DELETE CASCADE]). *)
Definition delete_fish_listing (id : uuid) (w : World) : Response unit * World :=
  let rows := fish_listings (db w) in
  let gone := filter (reached DELETE w id) rows in
  let kept := filter (fun r => negb (reached DELETE w id r)) rows in
  let items := filter (fun x => negb (existsb (fun r => uuid_eqb (FishListing.id r)
                                                                 (OrderItem.fish_listing_id x))
                                              gone))
                      (order_items (db w)) in
  (mkResponse None None,
   set_db w (with_order_items (with_fish_listings (db w) kept) items)).

Definition deleteFishListing (id : uuid) : Async (Response unit) :=
  request (delete_fish_listing id).

(** [from('orders').insert({...}).select().single()]; [status] takes its
    default. *)
Definition insert_order (customer_id farmer_id : uuid) (farmer_code : string)
    (total_amount : number) (w : World) : Response Order.t * World :=
  match to_decimal total_amount with
  | None => (failed (data_exception "total_amount"), w)
  | Some total =>
    let (id, w1) := gen_random_uuid w in
    let row := Order.mk id customer_id farmer_id farmer_code total pending
                 (now w) (now w) in
    match orders_violation w1 row with
    | Some e => (failed e, w1)
    | None => (ok row, set_db w1 (with_orders (db w1) (orders (db w1) ++ [row])))
    end
  end.

(** One row of a multi-row INSERT into [order_items], added to the rows the
    statement has written so far. *)
Definition insert_order_item (x : NewItem.t) (w : World)
    : option PgError * World :=
  let i := NewItem.item x in
  match to_integer (ItemData.quantity i) with
  | None => (Some (data_exception "quantity"), w)
  | Some quantity =>
    match to_decimal (ItemData.unit_price i) with
    | None => (Some (data_exception "unit_price"), w)
    | Some unit_price =>
      match to_decimal (ItemData.subtotal i) with
      | None => (Some (data_exception "subtotal"), w)
      | Some subtotal =>
        let (id, w1) := gen_random_uuid w in
        let row := OrderItem.mk id (NewItem.order_id x) (ItemData.fish_listing_id i)
                     quantity unit_price subtotal (now w) in
        match order_items_violation w1 row with
        | Some e => (Some e, w1)
        | None =>
            (None, set_db w1 (with_order_items (db w1) (order_items (db w1) ++ [row])))
        end
      end
    end
  end.

Fixpoint insert_each (xs : list NewItem.t) (w : World) : option PgError * World :=
  match xs with
  | [] => (None, w)
  | x :: rest =>
      match insert_order_item x w with
      | (Some e, w1) => (Some e, w1)
      | (None, w1) => insert_each rest w1
      end
  end.

(** [from('order_items').insert(orderItems).select()]: one statement; when a
    row is refused none of its rows stay. *)
Definition insert_order_items (xs : list NewItem.t) (w : World)
    : Response (list OrderItem.t) * World :=
  match insert_each xs w with
  | (Some e, w1) => (failed e, set_db w1 (db w))
  | (None, w1) =>
      (ok (skipn (List.length (order_items (db w))) (order_items (db w1))), w1)
  end.

Definition createOrder (orderData : OrderData.t)
    : Async (Response (Order.t * option (list OrderItem.t))) :=
  (user <- getUser ;;
   match user with
   | None => throw (Error "User not authenticated")
   | Some user_id =>
     created <- request (insert_order user_id (OrderData.farmer_id orderData)
                           (OrderData.farmer_code orderData)
                           (OrderData.total_amount orderData)) ;;
     match error created with
     | Some orderError => throw (ApiError orderError)
     | None =>
       match data created with
       | None => throw (Error "TypeError: order is null")
       | Some order =>
         let orderItems :=
           map (fun item => NewItem.mk (Order.id order) item) (OrderData.items orderData) in
         written <- request (insert_order_items orderItems) ;;
         match error written with
         | Some itemsError => throw (ApiError itemsError)
         | None => ret (ok (order, data written))
         end
       end
     end
   end)%async.

(* ------------------------------------------------------------------ *)
(** *** [handleCheckout] of the customer dashboard *)

(** The [ordersByFarmer] object: its keys are farmer ids, and
    [Object.values] lists its values in the order the keys were first
    set. *)
Definition OrdersByFarmer : Type := list (uuid * Group.t).

Fixpoint lookup (acc : OrdersByFarmer) (farmerId : uuid) : option Group.t :=
  match acc with
  | [] => None
  | (k, g) :: rest => if uuid_eqb k farmerId then Some g else lookup rest farmerId
  end.

Fixpoint alter (f : Group.t -> Group.t) (farmerId : uuid) (acc : OrdersByFarmer)
    : OrdersByFarmer :=
  match acc with
  | [] => []
  | (k, g) :: rest =>
      if uuid_eqb k farmerId then (k, f g) :: rest
      else (k, g) :: alter f farmerId rest
  end.

Definition values (acc : OrdersByFarmer) : list Group.t := map snd acc.

(** [item.farmer?.unique_code || ''] *)
Definition farmer_code_of (item : CartItem.t) : string :=
  match CartItem.farmer item with
  | Some f => FarmerInfo.unique_code f
  | None => ""
  end.

Definition line_of (item : CartItem.t) : ItemData.t :=
  ItemData.mk (CartItem.id item) (CartItem.orderQuantity item)
    (CartItem.price_per_unit item)
    (CartItem.price_per_unit item * CartItem.orderQuantity item)%float.

(** The callback of [cart.reduce]. *)
Definition add_line (acc : OrdersByFarmer) (item : CartItem.t) : OrdersByFarmer :=
  let farmerId := CartItem.farmer_id item in
  let acc :=
    match lookup acc farmerId with
    | None => (acc ++ [(farmerId, Group.mk farmerId (farmer_code_of item) [] 0%float)])%list
    | Some _ => acc
    end in
  alter (fun g =>
           Group.mk (Group.farmer_id g) (Group.farmer_code g)
             (Group.items g ++ [line_of item])
             (Group.total g
              + CartItem.price_per_unit item * CartItem.orderQuantity item)%float)
        farmerId acc.

Definition group_by_farmer (cart : list CartItem.t) : OrdersByFarmer :=
  fold_left add_line cart [].

Definition order_data (order : Group.t) : OrderData.t :=
  OrderData.mk (Group.farmer_id order) (Group.farmer_code order)
    (Group.total order) (Group.items order).

(** The [for ... of] loop: one [createOrder] per farmer; the loop is left
    by the first that throws. *)
Fixpoint place_orders (groups : list Group.t) : Async unit :=
  match groups with
  | [] => ret tt
  | order :: rest =>
      (placed <- createOrder (order_data order) ;;
       match error placed with
       | Some e => throw (ApiError e)
       | None => place_orders rest
       end)%async
  end.

(** The two messages [handleCheckout] can show. *)
Inductive Alert : Type :=
| payment_processed (amount : number)
    (* Payment of N<amount> processed successfully! Your orders have been placed. *)
| payment_failed.
    (* Failed to process payment. Please try again. *)

(** The state of the dashboard [handleCheckout] reads and sets, with what it
    has shown ([alert]) and logged ([console.error]). *)
Record Dashboard : Type := mkDashboard
  { cart : list CartItem.t;
    showCart : bool;
    showCheckout : bool;
    loading : bool;
    alerts : list Alert;
    console : list JsError }.

Definition getTotalAmount (cart : list CartItem.t) : number :=
  fold_left (fun total item =>
               (total + CartItem.price_per_unit item * CartItem.orderQuantity item)%float)
            cart 0%float.

(** [handleCheckout]: the dashboard and the world it ends in.  [loading] is
    set while the orders are placed and cleared in [finally]; the total of
    the alert is read off the cart the handler was created with. *)
Definition handleCheckout (ui : Dashboard) (w : World) : Dashboard * World :=
  match place_orders (values (group_by_farmer (cart ui))) w with
  | (Normal _, w') =>
      (mkDashboard [] false false false
         (alerts ui ++ [payment_processed (getTotalAmount (cart ui))])
         (console ui),
       w')
  | (Throw e, w') =>
      (mkDashboard (cart ui) (showCart ui) (showCheckout ui) false
         (alerts ui ++ [payment_failed])
         (console ui ++ [e]),
       w')
  end.

(* ------------------------------------------------------------------ *)
(** *** The rows a request writes *)

(** The order row [createOrder] sends for [user]. *)
Definition order_for (user : uuid) (orderData : OrderData.t) (order : Order.t) : Prop :=
  Order.customer_id order = user
  /\ Order.farmer_id order = OrderData.farmer_id orderData
  /\ Order.farmer_code order = OrderData.farmer_code orderData
  /\ to_decimal (OrderData.total_amount orderData) = Some (Order.total_amount order)
  /\ Order.status order = pending
  /\ 0 < Order.total_amount order.

(** The row of [order_items] a sent item is stored as. *)
Definition stored_as (x : NewItem.t) (row : OrderItem.t) : Prop :=
  OrderItem.order_id row = NewItem.order_id x
  /\ OrderItem.fish_listing_id row = ItemData.fish_listing_id (NewItem.item x)
  /\ to_integer (ItemData.quantity (NewItem.item x)) = Some (OrderItem.quantity row)
  /\ to_decimal (ItemData.unit_price (NewItem.item x)) = Some (OrderItem.unit_price row)
  /\ to_decimal (ItemData.subtotal (NewItem.item x)) = Some (OrderItem.subtotal row)
  /\ 0 < OrderItem.quantity row
  /\ 0 < OrderItem.unit_price row
  /\ 0 < OrderItem.subtotal row.

(** The ways a call of [createOrder] can end, with the tables it leaves. *)
Inductive Placed (orderData : OrderData.t) (w : World)
  : Completion (Response (Order.t * option (list OrderItem.t))) -> Database -> Prop :=
| not_signed_in :
    session w = None ->
    Placed orderData w (Throw (Error "User not authenticated")) (db w)
| order_refused (user : uuid) (e : PgError) :
    session w = Some user ->
    Placed orderData w (Throw (ApiError e)) (db w)
| items_refused (user : uuid) (order : Order.t) (e : PgError) :
    session w = Some user ->
    order_for user orderData order ->
    Placed orderData w (Throw (ApiError e))
      (with_orders (db w) (orders (db w) ++ [order]))
| order_placed (user : uuid) (order : Order.t) (rows : list OrderItem.t) :
    session w = Some user ->
    order_for user orderData order ->
    Forall2 stored_as
      (map (fun item => NewItem.mk (Order.id order) item) (OrderData.items orderData))
      rows ->
    Placed orderData w (Normal (ok (order, Some rows)))
      (with_order_items (with_orders (db w) (orders (db w) ++ [order]))
                        (order_items (db w) ++ rows)).

(** The rows one farmer group is written as: its order, and its items. *)
Definition written_as (user : uuid) (g : Group.t) (x : Order.t * list OrderItem.t) : Prop :=
  order_for user (order_data g) (fst x)
  /\ Forall2 stored_as
       (map (fun item => NewItem.mk (Order.id (fst x)) item) (Group.items g)) (snd x).

(** The lines of a cart that belong to a farmer, in the order of the cart. *)
Definition lines_of (farmer : uuid) (cart : list CartItem.t) : list CartItem.t :=
  filter (fun item => uuid_eqb (CartItem.farmer_id item) farmer) cart.

(** What [ordersByFarmer] holds once the lines [done] have been reduced. *)
Definition grouped (done : list CartItem.t) (acc : OrdersByFarmer) : Prop :=
  NoDup (map fst acc)
  /\ (forall farmer, In farmer (map fst acc) <-> In farmer (map CartItem.farmer_id done))
  /\ (forall farmer g, In (farmer, g) acc ->
        Group.farmer_id g = farmer
        /\ Group.items g = map line_of (lines_of farmer done)
        /\ Group.total g = getTotalAmount (lines_of farmer done)
        /\ option_map farmer_code_of (hd_error (lines_of farmer done))
           = Some (Group.farmer_code g)).

End Store.


(* ================================================================== *)
(** ** A small marketplace *)

Definition farmer1 : uuid := Uuid 1.
Definition farmer2 : uuid := Uuid 2.
Definition customer1 : uuid := Uuid 10.
Definition listingA : uuid := Uuid 101.
Definition listingB : uuid := Uuid 102.
Definition listingC : uuid := Uuid 103.

Definition farmer_row (id : uuid) (name phone email code : string) : Farmer.t :=
  Farmer.mk id name (name ++ " Farms")%string phone email "handled_by_auth"
    "Nigeria" "Lagos" "Ikeja" "Ikeja" "1 Pond Road" None None nin code true 0 0.

Definition customer_row (id : uuid) (name email : string) : Customer.t :=
  Customer.mk id name (name ++ " Foods")%string "2 Market Street" "0800000010" email
    "handled_by_auth" 0 0.

Definition market : Database :=
  mkDatabase
    [ farmer_row farmer1 "Ada" "0800000001" "ada@example.com" "FSH001AAA";
      farmer_row farmer2 "Bayo" "0800000002" "bayo@example.com" "FSH002BBB" ]
    [ customer_row customer1 "Chidi" "chidi@example.com" ]
    [ FishListing.mk listingA farmer1 catfish 40 10000 "fresh catfish" true 1 1;
      FishListing.mk listingB farmer1 tilapia 25 5000 "tilapia" true 2 2;
      FishListing.mk listingC farmer2 dry_fish 90 2000 "smoked fish" true 3 3 ]
    [] [].

Definition world_of (d : Database) (user : option uuid) : World :=
  mkWorld d user (fun n => Uuid (1000 + N.of_nat n)) 0 (fun _ => 0%Q) 0 5.

Definition info1 : FarmerInfo.t := FarmerInfo.mk "Ada" "Ada Farms" "FSH001AAA" "Ikeja" "Lagos".
Definition info2 : FarmerInfo.t := FarmerInfo.mk "Bayo" "Bayo Farms" "FSH002BBB" "Ikeja" "Lagos".

Definition cart_line (id farmer : uuid) (fish : fish_type) (info : FarmerInfo.t)
    (price qty : number) : CartItem.t :=
  CartItem.mk id farmer fish 100%float price "" true 1 1 (Some info) qty.

Definition demo_cart : list CartItem.t :=
  [ cart_line listingA farmer1 catfish info1 100%float 2%float;
    cart_line listingB farmer1 tilapia info1 50%float 1%float;
    cart_line listingC farmer2 dry_fish info2 20%float 3%float ].

Definition fresh_ui (c : list CartItem.t) : Dashboard :=
  mkDashboard c true true false [] [].

(** The market after farmer2 has closed the account (its listing went with
    it), and after farmer1 has. *)
Definition market_without_farmer2 : Database :=
  mkDatabase
    [ farmer_row farmer1 "Ada" "0800000001" "ada@example.com" "FSH001AAA" ]
    (customers market)
    [ FishListing.mk listingA farmer1 catfish 40 10000 "fresh catfish" true 1 1;
      FishListing.mk listingB farmer1 tilapia 25 5000 "tilapia" true 2 2 ]
    [] [].

Definition market_without_farmer1 : Database :=
  mkDatabase
    [ farmer_row farmer2 "Bayo" "0800000002" "bayo@example.com" "FSH002BBB" ]
    (customers market)
    [ FishListing.mk listingC farmer2 dry_fish 90 2000 "smoked fish" true 3 3 ]
    [] [].

(** The market after farmer1 has deleted listing B. *)
Definition market_without_listingB : Database :=
  mkDatabase (farmers market) (customers market)
    [ FishListing.mk listingA farmer1 catfish 40 10000 "fresh catfish" true 1 1;
      FishListing.mk listingC farmer2 dry_fish 90 2000 "smoked fish" true 3 3 ]
    [] [].

(** An order whose one item states a subtotal that is not its quantity
    times its unit price. *)
Definition odd_order : OrderData.t :=
  OrderData.mk farmer1 "FSH001AAA" 5%float
    [ ItemData.mk listingA 2%float 100%float 5%float ].

(** farmer1's listing D, withdrawn from the catalog. *)
Definition listingD : uuid := Uuid 104.

Definition withdrawn : FishListing.t :=
  FishListing.mk listingD farmer1 catfish 10 12000 "withdrawn" false 4 4.

Definition market_with_withdrawn : Database :=
  mkDatabase (farmers market) (customers market)
    (fish_listings market ++ [withdrawn]) [] [].

(** The market with farmer1's contact changed. *)
Definition market_other_contact : Database :=
  mkDatabase
    [ farmer_row farmer1 "Ada" "0809999999" "ada.new@example.com" "FSH001AAA";
      farmer_row farmer2 "Bayo" "0800000002" "bayo@example.com" "FSH002BBB" ]
    (customers market) (fish_listings market) [] [].

(** farmer1's two lines of the cart. *)
Definition farmer1_cart : list CartItem.t :=
  [ cart_line listingA farmer1 catfish info1 100%float 2%float;
    cart_line listingB farmer1 tilapia info1 50%float 1%float ].

(** A third farmer signing up while the generator first draws the code of
    farmer1 ([FSH001AAA]) and then [FSH007ZNB]. *)
Definition farmer3 : uuid := Uuid 3.

Definition signup_draws (n : nat) : Q :=
  match n with
  | 0%nat => 1 # 1000
  | 4%nat => 7 # 1000
  | 5%nat => 25 # 26
  | 6%nat => 1 # 2
  | 7%nat => 1 # 26
  | _ => 0
  end.

Definition signup_world : World :=
  mkWorld market (Some farmer3) (fun n => Uuid (1000 + N.of_nat n)) 0 signup_draws 0 5.

Definition new_farmer : NewFarmer.t :=
  NewFarmer.mk farmer3 "Efe" "Efe Farms" "0800000003" "efe@example.com"
    "handled_by_auth" "Nigeria" "Delta" "Warri" "Warri" "3 Creek Road"
    (Some "") (Some "") passport None.

(** The two groups of the demonstration cart. *)
Definition group1 : Group.t :=
  Group.mk farmer1 "FSH001AAA"
    [ ItemData.mk listingA 2%float 100%float 200%float;
      ItemData.mk listingB 1%float 50%float 50%float ] 250%float.

Definition group2 : Group.t :=
  Group.mk farmer2 "FSH002BBB" [ ItemData.mk listingC 3%float 20%float 60%float ] 60%float.

(** farmer1's listing A as stored in the market. *)
Definition listingA_row : FishListing.t :=
  FishListing.mk listingA farmer1 catfish 40 10000 "fresh catfish" true 1 1.

(** What the dashboard shows the customer after a checkout. *)
Definition shown (ui : Dashboard) : list Alert * list CartItem.t * bool * bool * bool :=
  (alerts ui, cart ui, showCart ui, showCheckout ui, loading ui).

(** The orders and the number of items a checkout leaves. *)
Definition left_behind (outcome : Dashboard * World) : list (uuid * decimal) * nat :=
  (map (fun o => (Order.farmer_id o, Order.total_amount o)) (orders (db (snd outcome))),
   List.length (order_items (db (snd outcome)))).

(* ================================================================== *)
(** ** The cart of the customer dashboard *)

(** A [FishListing] as the client holds it (a row of the catalog read into
    JS values). *)
Module JsListing.
Record t : Type := mk
  { id : uuid;
    farmer_id : uuid;
    fish_type : fish_type;
    quantity : number;
    price_per_unit : number;
    description : string;
    is_active : bool;
    created_at : timestamp;
    updated_at : timestamp;
    farmer : option FarmerInfo.t }.
End JsListing.

(** [{ ...listing, orderQuantity: quantity }] *)
Definition in_cart (listing : JsListing.t) (quantity : number) : CartItem.t :=
  CartItem.mk (JsListing.id listing) (JsListing.farmer_id listing)
    (JsListing.fish_type listing) (JsListing.quantity listing)
    (JsListing.price_per_unit listing) (JsListing.description listing)
    (JsListing.is_active listing) (JsListing.created_at listing)
    (JsListing.updated_at listing) (JsListing.farmer listing) quantity.

(** [{ ...item, orderQuantity: quantity }] *)
Definition with_orderQuantity (item : CartItem.t) (quantity : number) : CartItem.t :=
  CartItem.mk (CartItem.id item) (CartItem.farmer_id item) (CartItem.fish_type item)
    (CartItem.quantity item) (CartItem.price_per_unit item) (CartItem.description item)
    (CartItem.is_active item) (CartItem.created_at item) (CartItem.updated_at item)
    (CartItem.farmer item) quantity.

(** [addToCart]: the cart [setCart] is given. *)
Definition addToCart (cart : list CartItem.t) (listing : JsListing.t) (quantity : number)
    : list CartItem.t :=
  match find (fun item => uuid_eqb (CartItem.id item) (JsListing.id listing)) cart with
  | Some _ =>
      map (fun item =>
             if uuid_eqb (CartItem.id item) (JsListing.id listing)
             then with_orderQuantity item (CartItem.orderQuantity item + quantity)%float
             else item)
          cart
  | None => cart ++ [in_cart listing quantity]
  end.

(** [removeFromCart] *)
Definition removeFromCart (cart : list CartItem.t) (id : uuid) : list CartItem.t :=
  filter (fun item => negb (uuid_eqb (CartItem.id item) id)) cart.

(** [updateCartQuantity] *)
Definition updateCartQuantity (cart : list CartItem.t) (id : uuid) (quantity : number)
    : list CartItem.t :=
  if (quantity <=? 0)%float then removeFromCart cart id
  else map (fun item =>
              if uuid_eqb (CartItem.id item) id then with_orderQuantity item quantity
              else item)
           cart.

(** What the customer can do to the cart: the buttons of a fish card and of
    the cart view. *)
Inductive CartAction : Type :=
| add_to_cart (listing : JsListing.t) (quantity : number)
| remove_from_cart (id : uuid)
| update_cart_quantity (id : uuid) (quantity : number).

Definition act (cart : list CartItem.t) (a : CartAction) : list CartItem.t :=
  match a with
  | add_to_cart listing quantity => addToCart cart listing quantity
  | remove_from_cart id => removeFromCart cart id
  | update_cart_quantity id quantity => updateCartQuantity cart id quantity
  end.

(** Newest first: the order of [.order('created_at', { ascending: false })]. *)
Definition newest_first (a b : FishListing.t) : Prop :=
  FishListing.created_at b <= FishListing.created_at a.

(** Listing A and listing C as customer1's dashboard holds them. *)
Definition shown_listingA : JsListing.t :=
  JsListing.mk listingA farmer1 catfish 40%float 100%float "fresh catfish" true 1 1
    (Some info1).

Definition shown_listingC : JsListing.t :=
  JsListing.mk listingC farmer2 dry_fish 90%float 20%float "smoked fish" true 3 3
    (Some info2).

(** The same world with another user (or none) signed in on the client. *)
Definition as_user (w : World) (user : option uuid) : World :=
  mkWorld (db w) user (uuid_src w) (uuid_calls w) (random_src w) (random_calls w) (now w).

(** What the constraints of the schema say of the tables of listings,
    orders and order items: primary keys are distinct, every foreign key
    points at a row, and the checked columns are positive. *)
Definition sound (d : Database) : Prop :=
  NoDup (map FishListing.id (fish_listings d))
  /\ NoDup (map Order.id (orders d))
  /\ NoDup (map OrderItem.id (order_items d))
  /\ Forall (fun l => has_farmer d (FishListing.farmer_id l) = true
                      /\ 0 < FishListing.quantity l
                      /\ 0 < FishListing.price_per_unit l)
            (fish_listings d)
  /\ Forall (fun o => has_customer d (Order.customer_id o) = true
                      /\ has_farmer d (Order.farmer_id o) = true
                      /\ 0 < Order.total_amount o)
            (orders d)
  /\ Forall (fun x => has_order d (OrderItem.order_id x) = true
                      /\ has_listing d (OrderItem.fish_listing_id x) = true
                      /\ 0 < OrderItem.quantity x
                      /\ 0 < OrderItem.unit_price x
                      /\ 0 < OrderItem.subtotal x)
            (order_items d).

(** The unique columns of [farmers]: the primary key, [email] and
    [unique_code]. *)
Definition distinct_farmers (d : Database) : Prop :=
  NoDup (map Farmer.id (farmers d))
  /\ NoDup (map Farmer.email (farmers d))
  /\ NoDup (map Farmer.unique_code (farmers d)).

(* ================================================================== *)
(** ** Accounts: sign-up and sign-in *)

(** The error object of the auth client and of the storage client. *)
Inductive AuthError : Type := auth_error (message : string).
Inductive StorageError : Type := storage_error (message : string).

(** [{ data: { user }, error }] of an auth call. *)
Record AuthResponse : Type := mkAuthResponse
  { auth_user : option uuid;
    auth_failure : option AuthError }.

(** [{ data: { path }, error }] of an upload. *)
Record UploadResponse : Type := mkUploadResponse
  { upload_path : option string;
    upload_failure : option StorageError }.

Definition File : Type := string.

Inductive Document : Type := business_cert | id_card.

(** The identity provider and the document store, which are not part of
    this code: what a call answers and, for the auth calls, the user the
    client is signed in as once the call has returned (given the one it was
    signed in as before).  [storage_upload user doc file] is the upload to
    the path [farmers/<user>/<doc>_<Date.now()>] of the bucket [documents].
    The functions below are written, and their properties proved, for any
    such services. *)
Class Services : Type := mkServices
  { auth_signUp : string -> string -> option uuid -> AuthResponse * option uuid;
    auth_signInWithPassword : string -> string -> option uuid -> AuthResponse * option uuid;
    storage_upload : uuid -> Document -> File -> UploadResponse }.

(** The argument of [signUpFarmer]. *)
Module FarmerData.
Record t : Type := mk
  { fullName : string;
    companyName : string;
    phone : string;
    email : string;
    password : string;
    country : string;
    state : string;
    localGovernment : string;
    city : string;
    street : string;
    idType : id_type;
    businessCert : option File;
    idCard : option File }.
End FarmerData.

(** The argument of [signUpCustomer]. *)
Module CustomerData.
Record t : Type := mk
  { fullName : string;
    companyName : string;
    companyAddress : string;
    phone : string;
    email : string;
    password : string }.
End CustomerData.

(** What is caught by the [catch] of a sign-up function. *)
Inductive SignUpError : Type :=
| auth_failed (e : AuthError)
| upload_failed (e : StorageError)
| store_failed (e : PgError).

(** How a call of a sign-up function ends: with [{ data, error }], with
    [undefined] (the function falls off its end when the auth call gives no
    user and no error), or, for the model only, with the trigger of the
    insert still looping when the fuel is spent. *)
Inductive Returned (A : Type) : Type :=
| answered (data : option A) (error : option SignUpError)
| undefined
| still_running.
Arguments answered {A} _ _.
Arguments undefined {A}.
Arguments still_running {A}.

(** [try { body } catch (error) { return { data: null, error } }] *)
Definition caught {A : Type} (body : (SignUpError + Returned A) * World)
    : Returned A * World :=
  match body with
  | (inl error, w) => (answered None (Some error), w)
  | (inr r, w) => (r, w)
  end.

Definition customers_violation (w : World) (r : Customer.t) : option PgError :=
  first_violation
    [ require (permitted customers_policies INSERT (session w) (db w) r)
        (insufficient_privilege "customers");
      require (negb (has_customer (db w) (Customer.id r)))
        (unique_violation "customers_pkey");
      require (negb (existsb (fun c => String.eqb (Customer.email c) (Customer.email r))
                             (customers (db w))))
        (unique_violation "customers_email_key");
      require (permitted customers_policies SELECT (session w) (db w) r)
        (insufficient_privilege "customers") ].

Definition with_customers (d : Database) (l : list Customer.t) : Database :=
  mkDatabase (farmers d) l (fish_listings d) (orders d) (order_items d).

(** [from('customers').insert({...}).select().single()] *)
Definition insert_customer (id : uuid) (c : CustomerData.t) (w : World)
    : Response Customer.t * World :=
  let row := Customer.mk id (CustomerData.fullName c) (CustomerData.companyName c)
               (CustomerData.companyAddress c) (CustomerData.phone c)
               (CustomerData.email c) "handled_by_auth" (now w) (now w) in
  match customers_violation w row with
  | Some e => (failed e, w)
  | None => (ok row, set_db w (with_customers (db w) (customers (db w) ++ [row])))
  end.

(** [from('customers').select('*').eq('id', id).single()] *)
Definition select_customer (id : uuid) (w : World) : Response Customer.t * World :=
  let visible := filter (permitted customers_policies SELECT (session w) (db w))
                        (customers (db w)) in
  match filter (fun c => uuid_eqb (Customer.id c) id) visible with
  | [c] => (ok c, w)
  | _ => (failed no_single_row, w)
  end.

Section Accounts.

Context {services : Services}.

Definition signUpCustomer (customerData : CustomerData.t) (w : World)
    : Returned Customer.t * World :=
  caught
    (let (authResponse, signed_in) :=
       auth_signUp (CustomerData.email customerData) (CustomerData.password customerData)
                   (session w) in
     let w1 := as_user w signed_in in
     match auth_failure authResponse with
     | Some authError => (inl (auth_failed authError), w1)
     | None =>
       match auth_user authResponse with
       | None => (inr undefined, w1)
       | Some user =>
         let (inserted, w2) := insert_customer user customerData w1 in
         match error inserted with
         | Some customerError => (inl (store_failed customerError), w2)
         | None => (inr (answered (data inserted) None), w2)
         end
       end
     end).

(** The two optional uploads of [signUpFarmer]: the paths to store, or the
    error thrown. *)
Definition upload_document (user : uuid) (doc : Document) (file : option File)
    : StorageError + string :=
  match file with
  | None => inr ""
  | Some f =>
      let r := storage_upload user doc f in
      match upload_failure r with
      | Some e => inl e
      | None => inr (or_else (upload_path r) "")
      end
  end.

Definition signUpFarmer (fuel : nat) (farmerData : FarmerData.t) (w : World)
    : Returned Farmer.t * World :=
  caught
    (let (authResponse, signed_in) :=
       auth_signUp (FarmerData.email farmerData) (FarmerData.password farmerData)
                   (session w) in
     let w1 := as_user w signed_in in
     match auth_failure authResponse with
     | Some authError => (inl (auth_failed authError), w1)
     | None =>
       match auth_user authResponse with
       | None => (inr undefined, w1)
       | Some user =>
         match upload_document user business_cert (FarmerData.businessCert farmerData) with
         | inl certError => (inl (upload_failed certError), w1)
         | inr businessCertUrl =>
           match upload_document user id_card (FarmerData.idCard farmerData) with
           | inl idError => (inl (upload_failed idError), w1)
           | inr idCardUrl =>
             let new :=
               NewFarmer.mk user (FarmerData.fullName farmerData)
                 (FarmerData.companyName farmerData) (FarmerData.phone farmerData)
                 (FarmerData.email farmerData) "handled_by_auth"
                 (FarmerData.country farmerData) (FarmerData.state farmerData)
                 (FarmerData.localGovernment farmerData) (FarmerData.city farmerData)
                 (FarmerData.street farmerData) (Some businessCertUrl) (Some idCardUrl)
                 (FarmerData.idType farmerData) None in
             match insert_farmer fuel new w1 with
             | (None, w2) => (inr still_running, w2)
             | (Some inserted, w2) =>
                 match error inserted with
                 | Some farmerError => (inl (store_failed farmerError), w2)
                 | None => (inr (answered (data inserted) None), w2)
                 end
             end
           end
         end
       end
     end).

(** The [profile] and [type] of the object [signInUser] returns. *)
Inductive Profile : Type :=
| farmer_profile (profile : Farmer.t)
| customer_profile (profile : Customer.t).

Inductive SignInError : Type :=
| sign_in_refused (e : AuthError)
| profile_not_found.   (* new Error('User profile not found') *)

Record SignedIn : Type := mkSignedIn
  { signed_in_data : option (uuid * Profile);
    signed_in_error : option SignInError }.

Definition signInUser (email password : string) : Async SignedIn :=
  fun w =>
    let (authResponse, signed_in) := auth_signInWithPassword email password (session w) in
    let w1 := as_user w signed_in in
    match auth_failure authResponse with
    | Some e => (Normal (mkSignedIn None (Some (sign_in_refused e))), w1)
    | None =>
      match auth_user authResponse with
      | None => (Throw (Error "TypeError: data.user is null"), w1)
      | Some user =>
        let (farmerData, w2) := select_farmer user w1 in
        match data farmerData with
        | Some profile =>
            (Normal (mkSignedIn (Some (user, farmer_profile profile)) None), w2)
        | None =>
          let (customerData, w3) := select_customer user w2 in
          match data customerData with
          | Some profile =>
              (Normal (mkSignedIn (Some (user, customer_profile profile)) None), w3)
          | None => (Normal (mkSignedIn None (Some profile_not_found)), w3)
          end
        end
      end
    end.

End Accounts.

(** Services for the small marketplace: the provider knows Ada (farmer1),
    Chidi (customer1) and, once signed up, Efe (farmer3) and Dayo
    (customer2); a call that succeeds signs the client in as that user. *)
Definition customer2 : uuid := Uuid 11.

Definition market_user (email : string) : option uuid :=
  if String.eqb email "ada@example.com" then Some farmer1
  else if String.eqb email "chidi@example.com" then Some customer1
  else if String.eqb email "efe@example.com" then Some farmer3
  else if String.eqb email "dayo@example.com" then Some customer2
  else None.

Definition market_auth (email password : string) (signed_in : option uuid)
    : AuthResponse * option uuid :=
  match market_user email with
  | Some user => (mkAuthResponse (Some user) None, Some user)
  | None => (mkAuthResponse None (Some (auth_error "Invalid login credentials")), signed_in)
  end.

Definition market_services : Services :=
  mkServices market_auth market_auth
    (fun user doc file => mkUploadResponse (Some "farmers/documents") None).

Definition dayo : CustomerData.t :=
  CustomerData.mk "Dayo" "Dayo Kitchens" "4 Harbour Road" "0800000011"
    "dayo@example.com" "secret".

Definition efe : FarmerData.t :=
  FarmerData.mk "Efe" "Efe Farms" "0800000003" "efe@example.com" "secret"
    "Nigeria" "Delta" "Warri" "Warri" "3 Creek Road" passport (Some "certificate") None.

(* ================================================================== *)
(** ** The farmer dashboard: loading and deleting listings *)

(** The messages [loadFishListings] and [handleDeleteFish] can show. *)
Inductive Notice : Type :=
| failed_to_load          (* Failed to load fish listings *)
| deleted_successfully    (* Fish listing deleted successfully! *)
| failed_to_delete.       (* Failed to delete fish listing *)

(** The state of the farmer dashboard the two handlers read and set, with
    what they have shown and logged. *)
Module FarmerUI.
Record t : Type := mk
  { fishListings : list FishListing.t;
    loading : bool;
    alerts : list Notice;
    console : list JsError }.
End FarmerUI.

Definition loadFishListings (ui : FarmerUI.t) (w : World) : FarmerUI.t * World :=
  match getFarmerListings w with
  | (Normal answer, w') =>
      match error answer with
      | Some e =>
          (FarmerUI.mk (FarmerUI.fishListings ui) false
             (FarmerUI.alerts ui ++ [failed_to_load])
             (FarmerUI.console ui ++ [ApiError e]),
           w')
      | None =>
          (FarmerUI.mk (or_else (data answer) []) false
             (FarmerUI.alerts ui) (FarmerUI.console ui),
           w')
      end
  | (Throw e, w') =>
      (FarmerUI.mk (FarmerUI.fishListings ui) false
         (FarmerUI.alerts ui ++ [failed_to_load])
         (FarmerUI.console ui ++ [e]),
       w')
  end.

(** [handleDeleteFish]; [confirmed] is the answer to the [confirm]
    dialog. *)
Definition handleDeleteFish (confirmed : bool) (id : uuid) (ui : FarmerUI.t) (w : World)
    : FarmerUI.t * World :=
  if negb confirmed then (ui, w)
  else
    match deleteFishListing id w with
    | (Normal answer, w') =>
        match error answer with
        | Some e =>
            (FarmerUI.mk (FarmerUI.fishListings ui) false
               (FarmerUI.alerts ui ++ [failed_to_delete])
               (FarmerUI.console ui ++ [ApiError e]),
             w')
        | None =>
            (FarmerUI.mk
               (filter (fun fish => negb (uuid_eqb (FishListing.id fish) id))
                       (FarmerUI.fishListings ui))
               false
               (FarmerUI.alerts ui ++ [deleted_successfully])
               (FarmerUI.console ui),
             w')
        end
    | (Throw e, w') =>
        (FarmerUI.mk (FarmerUI.fishListings ui) false
           (FarmerUI.alerts ui ++ [failed_to_delete])
           (FarmerUI.console ui ++ [e]),
         w')
    end.

(** A farmer dashboard that has shown and logged nothing yet. *)
Definition blank_farmer_ui : FarmerUI.t := FarmerUI.mk [] false [] [].

(** A listing farmer2 offers, and a change of price. *)
Definition tilapia_offer : ListingData.t :=
  ListingData.mk tilapia 30%float 45.5%float "pond tilapia".

Definition price_change : ListingUpdates.t :=
  ListingUpdates.mk None None None None (Some 120%float) None None None None.

(** The row the store makes of that offer in the market. *)
Definition tilapia_row : FishListing.t :=
  FishListing.mk (Uuid 1000) farmer2 tilapia 30 4550 "pond tilapia" true 5 5.

(** The same offer and a change of quantity with [NaN] for the quantity. *)
Definition nan_offer : ListingData.t :=
  ListingData.mk tilapia nan 45.5%float "pond tilapia".

Definition nan_quantity : ListingUpdates.t :=
  ListingUpdates.mk None None None (Some nan) None None None None None.

(** A cart that holds listing C only. *)
Definition cart_of_C : list CartItem.t := addToCart [] shown_listingC 1%float.

(* ================================================================== *)
(** ** What the requests do to the tables *)

Section Properties.

Context {server : Server}.

Lemma uuid_eqb_eq (a b : uuid) : uuid_eqb a b = true <-> a = b.
Proof.
  destruct a as [x], b as [y]; unfold uuid_eqb; simpl.
  rewrite N.eqb_eq. split; [intros ->; reflexivity | intros H; injection H; auto].
Qed.

Lemma uuid_eqb_refl (a : uuid) : uuid_eqb a a = true.
Proof. apply uuid_eqb_eq; reflexivity. Qed.

Lemma uuid_eqb_neq (a b : uuid) : uuid_eqb a b = false <-> a <> b.
Proof.
  split.
  - intros H E. apply uuid_eqb_eq in E. congruence.
  - intros H. destruct (uuid_eqb a b) eqn:E; [apply uuid_eqb_eq in E; contradiction | reflexivity].
Qed.

Lemma uuid_eqb_sym (a b : uuid) : uuid_eqb a b = uuid_eqb b a.
Proof. unfold uuid_eqb. apply N.eqb_sym. Qed.

Lemma first_violation_none (checks : list (option PgError)) :
  first_violation checks = None <-> Forall (fun c => c = None) checks.
Proof.
  induction checks as [|[e|] rest IH]; simpl.
  - split; auto.
  - split; [discriminate | intros H; inversion H; discriminate].
  - rewrite IH. split; [intros H; constructor; auto | intros H; inversion H; auto].
Qed.

Lemma require_none (b : bool) (e : PgError) : require b e = None <-> b = true.
Proof. destruct b; simpl; split; auto; discriminate. Qed.

Lemma read_number_value (read : number -> option Z) (x : number) (z : Z) :
  read_number read x = Some (value z) <-> read x = Some z.
Proof.
  unfold read_number. destruct (read x) as [z'|]; [| destruct (is_finite x)];
    split; intros H; try discriminate H; congruence.
Qed.

Lemma read_number_absent (read : number -> option Z) (x : number) :
  read_number read x <> Some absent.
Proof.
  unfold read_number. destruct (read x); [| destruct (is_finite x)]; discriminate.
Qed.

Lemma read_number_readable (read : number -> option Z) (x : number) :
  readable read x = true -> exists c, read_number read x = Some c.
Proof.
  unfold readable, read_number. destruct (read x) as [z|]; [eauto |].
  destruct (is_finite x); [discriminate | eauto].
Qed.

Lemma read_optional_readable (read : number -> option Z) (x : option number) :
  readable_optional read x = true -> exists c, read_optional read x = Some c.
Proof.
  destruct x as [v|]; simpl; [apply read_number_readable | eauto].
Qed.

Lemma not_null_none (column : string) (c : Cell) :
  not_null column c = None <-> c <> null.
Proof. destruct c; simpl; split; congruence. Qed.

Lemma insert_order_inv (customer farmer : uuid) (code : string) (total : number)
    (w : World) :
  let (r, w') := insert_order customer farmer code total w in
  session w' = session w
  /\ ((exists e, r = failed e /\ db w' = db w)
      \/ (exists order,
            r = ok order
            /\ Order.customer_id order = customer
            /\ Order.farmer_id order = farmer
            /\ Order.farmer_code order = code
            /\ to_decimal total = Some (Order.total_amount order)
            /\ Order.status order = pending
            /\ 0 < Order.total_amount order
            /\ db w' = with_orders (db w) (orders (db w) ++ [order]))).
Proof.
  unfold insert_order.
  destruct (to_decimal total) as [t|] eqn:Ht.
  2:{ split; [reflexivity | left; eexists; split; reflexivity]. }
  unfold gen_random_uuid.
  match goal with |- context [orders_violation ?w1 ?row] =>
    destruct (orders_violation w1 row) as [e|] eqn:Hv end.
  - split; [reflexivity | left; eexists; split; reflexivity].
  - split; [reflexivity | right].
    eexists; split; [reflexivity |]. simpl.
    repeat split; auto.
    unfold orders_violation in Hv. apply first_violation_none in Hv.
    inversion Hv as [|? ? _ Hv1]; subst. inversion Hv1 as [|? ? Hc _]; subst.
    apply require_none in Hc. simpl in Hc. apply Z.ltb_lt in Hc. exact Hc.
Qed.

Lemma insert_order_item_inv (x : NewItem.t) (w : World) :
  let (r, w') := insert_order_item x w in
  session w' = session w
  /\ match r with
     | Some _ => db w' = db w
     | None => exists row, stored_as x row
                 /\ db w' = with_order_items (db w) (order_items (db w) ++ [row])
     end.
Proof.
  unfold insert_order_item.
  destruct (to_integer _) as [q|] eqn:Hq; [| split; reflexivity].
  destruct (to_decimal (ItemData.unit_price _)) as [p|] eqn:Hp; [| split; reflexivity].
  destruct (to_decimal (ItemData.subtotal _)) as [s|] eqn:Hs; [| split; reflexivity].
  unfold gen_random_uuid.
  match goal with |- context [order_items_violation ?w1 ?row] =>
    destruct (order_items_violation w1 row) as [e|] eqn:Hv end.
  - split; reflexivity.
  - split; [reflexivity |]. eexists; split; [| reflexivity].
    unfold order_items_violation in Hv. apply first_violation_none in Hv.
    inversion Hv as [|? ? _ H1]; subst.
    inversion H1 as [|? ? Hc1 H2]; subst.
    inversion H2 as [|? ? Hc2 H3]; subst.
    inversion H3 as [|? ? Hc3 _]; subst.
    apply require_none in Hc1, Hc2, Hc3. simpl in Hc1, Hc2, Hc3.
    apply Z.ltb_lt in Hc1, Hc2, Hc3.
    unfold stored_as; simpl. repeat split; auto.
Qed.

Lemma with_order_items_twice (d : Database) (l l' : list OrderItem.t) :
  with_order_items (with_order_items d l) l' = with_order_items d l'.
Proof. reflexivity. Qed.

Lemma with_order_items_same (d : Database) : with_order_items d (order_items d) = d.
Proof. destruct d; reflexivity. Qed.

Lemma insert_each_inv (xs : list NewItem.t) (w : World) :
  let (r, w') := insert_each xs w in
  session w' = session w
  /\ match r with
     | Some _ => orders (db w') = orders (db w)
     | None => exists rows, Forall2 stored_as xs rows
                 /\ db w' = with_order_items (db w) (order_items (db w) ++ rows)
     end.
Proof.
  revert w. induction xs as [|x rest IH]; intros w; simpl.
  - split; [reflexivity |]. exists []. split; [constructor |].
    rewrite app_nil_r. symmetry. apply with_order_items_same.
  - pose proof (insert_order_item_inv x w) as H1.
    destruct (insert_order_item x w) as [[e|] w1].
    + destruct H1 as [Hs Hd]. split; [exact Hs | rewrite Hd; reflexivity].
    + destruct H1 as [Hs (row & Hrow & Hd)].
      specialize (IH w1). destruct (insert_each rest w1) as [[e|] w2].
      * destruct IH as [Hs2 Ho]. split; [congruence |].
        rewrite Ho, Hd. reflexivity.
      * destruct IH as [Hs2 (rows & Hrows & Hd2)]. split; [congruence |].
        exists (row :: rows). split; [constructor; assumption |].
        rewrite Hd2, Hd. simpl. rewrite <- app_assoc. reflexivity.
Qed.

Lemma insert_order_items_inv (xs : list NewItem.t) (w : World) :
  let (r, w') := insert_order_items xs w in
  session w' = session w
  /\ ((exists e, r = failed e /\ db w' = db w)
      \/ (exists rows, r = ok rows /\ Forall2 stored_as xs rows
            /\ db w' = with_order_items (db w) (order_items (db w) ++ rows))).
Proof.
  unfold insert_order_items.
  pose proof (insert_each_inv xs w) as H.
  destruct (insert_each xs w) as [[e|] w1].
  - destruct H as [Hs _]. split; [exact Hs |]. left. eexists; split; reflexivity.
  - destruct H as [Hs (rows & Hrows & Hd)]. split; [exact Hs |]. right.
    exists rows. split; [| split; assumption].
    rewrite Hd. simpl. rewrite skipn_app, skipn_all, Nat.sub_diag. reflexivity.
Qed.

Lemma createOrder_ends (orderData : OrderData.t) (w : World) :
  Placed orderData w (fst (createOrder orderData w)) (db (snd (createOrder orderData w)))
  /\ session (snd (createOrder orderData w)) = session w.
Proof.
  unfold createOrder, bind, getUser, throw, ret, request.
  destruct (session w) as [user|] eqn:Hu; simpl.
  2:{ split; [apply not_signed_in; assumption | assumption]. }
  pose proof (insert_order_inv user (OrderData.farmer_id orderData)
                (OrderData.farmer_code orderData) (OrderData.total_amount orderData) w) as H.
  destruct (insert_order _ _ _ _ w) as [created w1].
  destruct H as [Hs [(e & -> & Hd) | (order & -> & Hc & Hf & Hcode & Ht & Hst & Hpos & Hd)]];
    simpl.
  - rewrite Hd. split; [eapply order_refused; eassumption | congruence].
  - match goal with |- context [insert_order_items ?xs w1] =>
      pose proof (insert_order_items_inv xs w1) as H2;
      destruct (insert_order_items xs w1) as [written w2] end.
    assert (Hfor : order_for user orderData order) by (repeat split; assumption).
    destruct H2 as [Hs2 [(e & -> & Hd2) | (rows & -> & Hrows & Hd2)]]; simpl.
    + rewrite Hd2, Hd. split; [eapply items_refused; eassumption | congruence].
    + rewrite Hd2, Hd. split; [| congruence].
      change (order_items (with_orders (db w) (orders (db w) ++ [order])))
        with (order_items (db w)).
      eapply order_placed; eassumption.
Qed.

(** Whatever a call of [createOrder] does, the rows of [orders] and
    [order_items] that were there stay, and the other tables are as they
    were. *)
Lemma Placed_grows (orderData : OrderData.t) (w : World)
    (c : Completion (Response (Order.t * option (list OrderItem.t)))) (d : Database) :
  Placed orderData w c d ->
  farmers d = farmers (db w)
  /\ customers d = customers (db w)
  /\ fish_listings d = fish_listings (db w)
  /\ (exists new, orders d = orders (db w) ++ new)
  /\ (exists new, order_items d = order_items (db w) ++ new).
Proof.
  intros H. destruct H; simpl; repeat split;
    try (exists []; rewrite app_nil_r; reflexivity);
    try (eexists; reflexivity).
Qed.

Lemma place_orders_grows (groups : list Group.t) (w : World) :
  session (snd (place_orders groups w)) = session w
  /\ farmers (db (snd (place_orders groups w))) = farmers (db w)
  /\ customers (db (snd (place_orders groups w))) = customers (db w)
  /\ fish_listings (db (snd (place_orders groups w))) = fish_listings (db w)
  /\ (exists new, orders (db (snd (place_orders groups w))) = orders (db w) ++ new)
  /\ (exists new, order_items (db (snd (place_orders groups w))) = order_items (db w) ++ new).
Proof.
  revert w. induction groups as [|g rest IH]; intros w; simpl.
  - repeat split; exists []; rewrite app_nil_r; reflexivity.
  - unfold bind.
    pose proof (createOrder_ends (order_data g) w) as [Hp Hs].
    apply Placed_grows in Hp.
    destruct (createOrder (order_data g) w) as [[placed|e] w1]; simpl in *.
    + destruct Hp as (Hf & Hc & Hl & (no & Ho) & (ni & Hi)).
      destruct (error placed); simpl.
      * repeat split; try congruence; eexists; eassumption.
      * destruct (IH w1) as (Hs' & Hf' & Hc' & Hl' & (no' & Ho') & (ni' & Hi')).
        repeat split; try congruence.
        -- exists (no ++ no'). rewrite Ho', Ho, app_assoc. reflexivity.
        -- exists (ni ++ ni'). rewrite Hi', Hi, app_assoc. reflexivity.
    + destruct Hp as (Hf & Hc & Hl & Ho & Hi). repeat split; assumption.
Qed.

Lemma handleCheckout_world (ui : Dashboard) (w : World) :
  snd (handleCheckout ui w) = snd (place_orders (values (group_by_farmer (cart ui))) w).
Proof.
  unfold handleCheckout.
  destruct (place_orders _ w) as [[u|e] w']; reflexivity.
Qed.

(* ================================================================== *)
(** ** Order placement and the listings (C7) *)

(** C7. Order placement never modifies a FishListing row: after
    [handleCheckout], and after any single [createOrder], the table
    [fish_listings] is the table it was, so no listing's quantity (or any
    other column) is reserved, reduced or otherwise changed by ordering. *)
Theorem checkout_leaves_listings (ui : Dashboard) (orderData : OrderData.t) (w : World) :
  fish_listings (db (snd (handleCheckout ui w))) = fish_listings (db w)
  /\ fish_listings (db (snd (createOrder orderData w))) = fish_listings (db w).
Proof.
  split.
  - rewrite handleCheckout_world.
    apply (place_orders_grows (values (group_by_farmer (cart ui))) w).
  - destruct (createOrder_ends orderData w) as [Hp _].
    apply Placed_grows in Hp. apply Hp.
Qed.

(* ================================================================== *)
(** ** One farmer group: the order and its items (C2) *)

(** C2, as the code has it.  A call of [createOrder] writes one farmer
    group in two requests.  It ends in one of three ways: nothing is
    written (no user, or the order is refused); the Order row is written
    and stays although its items were refused, none of them being stored;
    or the Order row and one OrderItem per sent item are written.  The
    items of a group are all stored or none is; the Order row does not
    depend on them. *)
Theorem createOrder_writes (orderData : OrderData.t) (w : World) :
  let result := fst (createOrder orderData w) in
  let after := db (snd (createOrder orderData w)) in
  (after = db w /\ exists e, result = Throw e)
  \/ (exists order e,
        result = Throw (ApiError e)
        /\ after = with_orders (db w) (orders (db w) ++ [order])
        /\ order_items after = order_items (db w))
  \/ (exists order rows,
        result = Normal (ok (order, Some rows))
        /\ List.length rows = List.length (OrderData.items orderData)
        /\ Forall (fun row => OrderItem.order_id row = Order.id order) rows
        /\ after = with_order_items (with_orders (db w) (orders (db w) ++ [order]))
                                    (order_items (db w) ++ rows)).
Proof.
  intros result after. subst result after.
  destruct (createOrder_ends orderData w) as [Hp _].
  destruct Hp as [Hu | user e Hu | user order e Hu Hfor | user order rows Hu Hfor Hrows].
  - left. split; [reflexivity | eexists; reflexivity].
  - left. split; [reflexivity | eexists; reflexivity].
  - right; left. exists order, e. repeat split.
  - right; right. exists order, rows. repeat split.
    + apply Forall2_length in Hrows. rewrite length_map in Hrows. symmetry; exact Hrows.
    + clear Hfor. remember (map _ (OrderData.items orderData)) as xs eqn:Hxs.
      assert (Hall : Forall (fun x => NewItem.order_id x = Order.id order) xs).
      { subst xs. apply Forall_forall. intros x Hx. apply in_map_iff in Hx.
        destruct Hx as (i & <- & _). reflexivity. }
      clear Hxs. induction Hrows as [|x row xs rows Hst _ IH]; constructor.
      * destruct Hst as (Ho & _). inversion Hall; subst. congruence.
      * apply IH. inversion Hall; assumption.
Qed.

(* ================================================================== *)
(** ** Who a request acts for (C10) *)

Lemma insert_fish_listing_inv (farmer : uuid) (l : ListingData.t) (w : World) :
  let (r, w') := insert_fish_listing farmer l w in
  (exists e, r = failed e /\ db w' = db w)
  \/ (exists row, r = ok row
        /\ FishListing.farmer_id row = farmer
        /\ FishListing.fish_type row = ListingData.fish_type l
        /\ FishListing.description row = ListingData.description l
        /\ to_integer (ListingData.quantity l) = Some (FishListing.quantity row)
        /\ to_decimal (ListingData.price_per_unit l) = Some (FishListing.price_per_unit row)
        /\ db w' = with_fish_listings (db w) (fish_listings (db w) ++ [row])).
Proof.
  unfold insert_fish_listing.
  destruct (read_number to_integer _) as [q|] eqn:Hq; [| left; eexists; split; reflexivity].
  destruct (read_number to_decimal _) as [p|] eqn:Hp; [| left; eexists; split; reflexivity].
  unfold gen_random_uuid.
  match goal with |- context [fish_listings_violation ?w1 ?q ?p ?row] =>
    destruct (fish_listings_violation w1 q p row) as [e|] eqn:Hv end.
  - left; eexists; split; reflexivity.
  - right; eexists; split; [reflexivity |]. simpl.
    unfold fish_listings_violation in Hv. apply first_violation_none in Hv.
    inversion Hv as [|? ? _ H1]; subst. inversion H1 as [|? ? Hnq H2]; subst.
    inversion H2 as [|? ? Hnp _]; subst.
    destruct q as [| |q]; try discriminate Hnq; [apply read_number_absent in Hq; contradiction |].
    destruct p as [| |p]; try discriminate Hnp; [apply read_number_absent in Hp; contradiction |].
    apply read_number_value in Hq, Hp. simpl. repeat split; assumption.
Qed.

Lemma own_listing_permitted (c : command) (user : uuid) (d : Database) (r : FishListing.t) :
  FishListing.farmer_id r = user ->
  permitted fish_listings_policies c (Some user) d r = true.
Proof.
  intros H. unfold permitted, fish_listings_policies. simpl.
  rewrite H, uuid_eqb_refl.
  destruct c; simpl; rewrite ?orb_true_r; reflexivity.
Qed.

Lemma own_order_permitted (c : command) (user : uuid) (d : Database) (r : Order.t) :
  Order.customer_id r = user -> c = INSERT \/ c = SELECT ->
  permitted orders_policies c (Some user) d r = true.
Proof.
  intros H [-> | ->]; unfold permitted, orders_policies; simpl;
    rewrite H, uuid_eqb_refl; simpl; rewrite ?orb_true_r; reflexivity.
Qed.

(** C10. With no signed-in user, [createFishListing], [getFarmerListings]
    and [createOrder] each throw the error [User not authenticated] and
    leave every table as it was.  With a signed-in user, the listing
    [createFishListing] writes carries that user's id as [farmer_id] and the
    order [createOrder] writes carries it as [customer_id], whatever the
    caller's arguments are: a call either writes no row of the table or
    appends such a row, and it does write it when the store's constraints
    on the row are met. *)
Theorem requests_act_for_the_user (listingData : ListingData.t)
    (orderData : OrderData.t) (w : World) :
  match session w with
  | None =>
      createFishListing listingData w = (Throw (Error "User not authenticated"), w)
      /\ getFarmerListings w = (Throw (Error "User not authenticated"), w)
      /\ createOrder orderData w = (Throw (Error "User not authenticated"), w)
  | Some user =>
      (exists r w',
          createFishListing listingData w = (Normal r, w')
          /\ ((exists e, r = failed e /\ db w' = db w)
              \/ (exists row, r = ok row
                    /\ FishListing.farmer_id row = user
                    /\ db w' = with_fish_listings (db w) (fish_listings (db w) ++ [row]))))
      /\ (forall quantity price,
            to_integer (ListingData.quantity listingData) = Some quantity ->
            to_decimal (ListingData.price_per_unit listingData) = Some price ->
            0 < quantity -> 0 < price ->
            has_farmer (db w) user = true ->
            has_listing (db w) (uuid_src w (uuid_calls w)) = false ->
            exists row w',
              createFishListing listingData w = (Normal (ok row), w')
              /\ FishListing.farmer_id row = user
              /\ In row (fish_listings (db w')))
      /\ (exists new,
            orders (db (snd (createOrder orderData w))) = orders (db w) ++ new
            /\ Forall (fun order => Order.customer_id order = user) new)
      /\ (forall total,
            to_decimal (OrderData.total_amount orderData) = Some total ->
            0 < total ->
            has_customer (db w) user = true ->
            has_farmer (db w) (OrderData.farmer_id orderData) = true ->
            has_order (db w) (uuid_src w (uuid_calls w)) = false ->
            exists order,
              In order (orders (db (snd (createOrder orderData w))))
              /\ ~ In order (orders (db w))
              /\ Order.customer_id order = user
              /\ Order.farmer_id order = OrderData.farmer_id orderData
              /\ Order.total_amount order = total)
  end.
Proof.
  destruct (session w) as [user|] eqn:Hu.
  2:{ unfold createFishListing, getFarmerListings, createOrder, bind, getUser, throw.
      rewrite Hu. repeat split. }
  split; [| split; [| split]].
  - unfold createFishListing, bind, getUser, request. rewrite Hu.
    pose proof (insert_fish_listing_inv user listingData w) as H.
    destruct (insert_fish_listing user listingData w) as [r w'].
    exists r, w'. split; [reflexivity |].
    destruct H as [H | (row & -> & Hf & _ & _ & _ & _ & Hd)]; [left; exact H | right].
    exists row. repeat split; assumption.
  - intros quantity price Hq Hp Hq0 Hp0 Hfarmer Hfresh.
    unfold createFishListing, bind, getUser, request. rewrite Hu.
    apply read_number_value in Hq, Hp.
    unfold insert_fish_listing. rewrite Hq, Hp. unfold gen_random_uuid.
    match goal with |- context [fish_listings_violation ?w1 ?q ?p ?row] =>
      assert (Hv : fish_listings_violation w1 q p row = None) end.
    { unfold fish_listings_violation. apply first_violation_none.
      repeat constructor; try reflexivity; apply require_none; simpl.
      - rewrite Hu. apply own_listing_permitted. reflexivity.
      - apply Z.ltb_lt; assumption.
      - apply Z.ltb_lt; assumption.
      - rewrite Hfresh. reflexivity.
      - assumption.
      - rewrite Hu. apply own_listing_permitted. reflexivity. }
    rewrite Hv. eexists; eexists. split; [reflexivity |]. split; [reflexivity |].
    simpl. apply in_or_app. right. left. reflexivity.
  - destruct (createOrder_ends orderData w) as [Hp _].
    destruct Hp as [Hn | u e Hn | u order e Hn Hfor | u order rows Hn Hfor Hrows].
    + exists []. rewrite app_nil_r. split; [reflexivity | constructor].
    + exists []. rewrite app_nil_r. split; [reflexivity | constructor].
    + exists [order]. split; [reflexivity |]. constructor; [| constructor].
      destruct Hfor as (Hc & _). congruence.
    + exists [order]. split; [reflexivity |]. constructor; [| constructor].
      destruct Hfor as (Hc & _). congruence.
  - intros total Ht Ht0 Hcust Hfarm Hfresh.
    match goal with |- context [Order.customer_id _ = _] =>
      set (order := Order.mk (uuid_src w (uuid_calls w)) user (OrderData.farmer_id orderData)
                      (OrderData.farmer_code orderData) total pending (now w) (now w)) end.
    assert (Hins : insert_order user (OrderData.farmer_id orderData)
                     (OrderData.farmer_code orderData) (OrderData.total_amount orderData) w
                   = (ok order,
                      set_db (set_uuid_calls w (S (uuid_calls w)))
                        (with_orders (db w) (orders (db w) ++ [order])))).
    { unfold insert_order. rewrite Ht. unfold gen_random_uuid. fold order.
      assert (Hv : orders_violation (set_uuid_calls w (S (uuid_calls w))) order = None).
      { unfold orders_violation. apply first_violation_none.
        repeat constructor; apply require_none; simpl.
        - rewrite Hu. apply own_order_permitted; auto.
        - apply Z.ltb_lt; assumption.
        - rewrite Hfresh. reflexivity.
        - assumption.
        - assumption.
        - rewrite Hu. apply own_order_permitted; auto. }
      rewrite Hv. reflexivity. }
    assert (Hnew : ~ In order (orders (db w))).
    { intros Hin. unfold has_order in Hfresh.
      assert (Hex : existsb (fun o => uuid_eqb (Order.id o) (uuid_src w (uuid_calls w)))
                            (orders (db w)) = true).
      { apply existsb_exists. exists order. split; [exact Hin | apply uuid_eqb_refl]. }
      congruence. }
    exists order. split; [| repeat split; auto].
    unfold createOrder, bind, getUser, request. rewrite Hu, Hins. simpl.
    match goal with |- context [insert_order_items ?xs ?w1] =>
      pose proof (insert_order_items_inv xs w1) as H2;
      destruct (insert_order_items xs w1) as [written w2] end.
    destruct H2 as [_ [(e & -> & Hd2) | (rows & -> & _ & Hd2)]]; simpl; rewrite Hd2; simpl;
      apply in_or_app; right; left; reflexivity.
Qed.

(* ================================================================== *)
(** ** Grouping the cart by farmer (C1) *)

Lemma lookup_none (acc : OrdersByFarmer) (k : uuid) :
  lookup acc k = None <-> ~ In k (map fst acc).
Proof.
  induction acc as [|[k' g] rest IH]; simpl.
  - split; auto.
  - destruct (uuid_eqb k' k) eqn:E.
    + apply uuid_eqb_eq in E. split; [discriminate | intros H; exfalso; apply H; auto].
    + apply uuid_eqb_neq in E. rewrite IH. split.
      * intros H [H1 | H1]; [contradiction | auto].
      * intros H H1. apply H. auto.
Qed.

Lemma lookup_some (acc : OrdersByFarmer) (k : uuid) (g : Group.t) :
  lookup acc k = Some g -> In (k, g) acc.
Proof.
  induction acc as [|[k' g'] rest IH]; simpl; [discriminate |].
  destruct (uuid_eqb k' k) eqn:E.
  - apply uuid_eqb_eq in E. intros H; injection H as ->. left. congruence.
  - intros H. right. auto.
Qed.

Lemma alter_keys (f : Group.t -> Group.t) (k : uuid) (acc : OrdersByFarmer) :
  map fst (alter f k acc) = map fst acc.
Proof.
  induction acc as [|[k' g] rest IH]; simpl; [reflexivity |].
  destruct (uuid_eqb k' k); simpl; [reflexivity | rewrite IH; reflexivity].
Qed.

Lemma alter_in (f : Group.t -> Group.t) (k : uuid) (acc : OrdersByFarmer)
    (k' : uuid) (g' : Group.t) :
  NoDup (map fst acc) ->
  In (k', g') (alter f k acc) ->
  (k' = k /\ exists g, In (k, g) acc /\ g' = f g) \/ (k' <> k /\ In (k', g') acc).
Proof.
  induction acc as [|[k0 g0] rest IH]; simpl; [intros _ [] |].
  intros Hnd. inversion Hnd as [|? ? Hnotin Hnd']; subst.
  destruct (uuid_eqb k0 k) eqn:E.
  - apply uuid_eqb_eq in E; subst k0. intros [H | H].
    + injection H as <- <-. left. split; [reflexivity |]. exists g0. auto.
    + right. split; [| auto]. intros ->. apply Hnotin.
      change k with (fst (k, g')). apply in_map. exact H.
  - apply uuid_eqb_neq in E. intros [H | H].
    + injection H as <- <-. right. split; auto.
    + destruct (IH Hnd' H) as [(-> & g & Hg & ->) | (Hne & Hin)].
      * left. split; [reflexivity |]. exists g. auto.
      * right. auto.
Qed.

Lemma getTotalAmount_app (l : list CartItem.t) (x : CartItem.t) :
  getTotalAmount (l ++ [x])
  = (getTotalAmount l + CartItem.price_per_unit x * CartItem.orderQuantity x)%float.
Proof. unfold getTotalAmount. rewrite fold_left_app. reflexivity. Qed.

Lemma lines_of_app (farmer : uuid) (l : list CartItem.t) (x : CartItem.t) :
  lines_of farmer (l ++ [x])
  = lines_of farmer l ++ (if uuid_eqb (CartItem.farmer_id x) farmer then [x] else []).
Proof. unfold lines_of. rewrite filter_app. reflexivity. Qed.

Lemma lines_of_none (farmer : uuid) (l : list CartItem.t) :
  ~ In farmer (map CartItem.farmer_id l) -> lines_of farmer l = [].
Proof.
  induction l as [|x rest IH]; simpl; [reflexivity |].
  intros H. destruct (uuid_eqb (CartItem.farmer_id x) farmer) eqn:E.
  - apply uuid_eqb_eq in E. exfalso. apply H. auto.
  - apply IH. intros H1. apply H. auto.
Qed.

Lemma grouped_add_line (done : list CartItem.t) (acc : OrdersByFarmer) (item : CartItem.t) :
  grouped done acc -> grouped (done ++ [item]) (add_line acc item).
Proof.
  intros (Hnd & Hkeys & Hgroups). unfold add_line.
  set (k := CartItem.farmer_id item).
  set (bump := fun g : Group.t => Group.mk _ _ _ _).
  destruct (lookup acc k) as [g0|] eqn:Hl.
  - (* the farmer has a group already *)
    apply lookup_some in Hl.
    split; [rewrite alter_keys; exact Hnd | split].
    + intros f. rewrite alter_keys, map_app, in_app_iff, Hkeys. simpl.
      split; [auto | intros [H | [<- | []]]; [exact H |]].
      apply (proj1 (Hkeys k)). apply (in_map fst) in Hl. exact Hl.
    + intros f g Hin. apply alter_in in Hin; [| exact Hnd].
      rewrite lines_of_app. fold k.
      destruct Hin as [(-> & g1 & Hg1 & ->) | (Hne & Hin)].
      * destruct (Hgroups k g1 Hg1) as (Hid & Hitems & Htotal & Hcode).
        rewrite uuid_eqb_refl. unfold bump; simpl.
        rewrite map_app, Hitems, Htotal, getTotalAmount_app.
        repeat split; try assumption.
        destruct (lines_of k done); simpl in *; [discriminate | exact Hcode].
      * assert (E : uuid_eqb k f = false) by (apply uuid_eqb_neq; congruence).
        rewrite E, app_nil_r. apply Hgroups. exact Hin.
  - (* a new farmer *)
    apply lookup_none in Hl.
    assert (Hnd' : NoDup (map fst (acc ++ [(k, Group.mk k (farmer_code_of item) [] 0%float)]))).
    { rewrite map_app. simpl. apply NoDup_app; [exact Hnd | repeat constructor; intros [] |].
      intros x Hx [<- | []]. contradiction. }
    split; [rewrite alter_keys; exact Hnd' | split].
    + intros f. rewrite alter_keys, !map_app, !in_app_iff, Hkeys. reflexivity.
    + intros f g Hin. apply alter_in in Hin; [| exact Hnd'].
      rewrite lines_of_app. fold k.
      destruct Hin as [(-> & g1 & Hg1 & ->) | (Hne & Hin)].
      * apply in_app_or in Hg1. destruct Hg1 as [Hg1 | [Hg1 | []]].
        { exfalso. apply Hl. apply (in_map fst) in Hg1. exact Hg1. }
        injection Hg1 as <-.
        rewrite uuid_eqb_refl, lines_of_none; [| rewrite <- Hkeys; exact Hl].
        unfold bump; simpl. repeat split.
      * apply in_app_or in Hin. destruct Hin as [Hin | [Hin | []]].
        2:{ injection Hin as -> _. contradiction. }
        assert (E : uuid_eqb k f = false) by (apply uuid_eqb_neq; congruence).
        rewrite E, app_nil_r. apply Hgroups. exact Hin.
Qed.

Lemma group_by_farmer_grouped (cart : list CartItem.t) :
  grouped cart (group_by_farmer cart).
Proof.
  unfold group_by_farmer.
  induction cart as [|item done IH] using rev_ind.
  - simpl. split; [constructor | split; [intros f; simpl; tauto | intros f g []]].
  - rewrite fold_left_app. simpl. apply grouped_add_line. exact IH.
Qed.

Lemma place_orders_normal (groups : list Group.t) (w w' : World) (u : unit) (user : uuid) :
  place_orders groups w = (Normal u, w') ->
  session w = Some user ->
  exists written,
    Forall2 (written_as user) groups written
    /\ orders (db w') = orders (db w) ++ map fst written
    /\ order_items (db w') = order_items (db w) ++ List.concat (map snd written).
Proof.
  revert w. induction groups as [|g rest IH]; intros w Hrun Hu; simpl in Hrun.
  - injection Hrun as _ <-. exists []. simpl. rewrite !app_nil_r. repeat split. constructor.
  - unfold bind in Hrun.
    pose proof (createOrder_ends (order_data g) w) as [Hp Hs].
    destruct (createOrder (order_data g) w) as [c w1]. simpl in Hp, Hs.
    inversion Hp as [Hn Hc Hd | u0 e Hn Hc Hd | u0 order e Hn Hfor Hc Hd
                    | u0 order rows Hn Hfor Hrows Hc Hd]; subst c;
      try discriminate Hrun.
    simpl in Hrun.
    assert (u0 = user) by congruence. subst u0.
    destruct (IH w1 Hrun) as (written & Hw & Ho & Hi); [congruence |].
    exists ((order, rows) :: written). split; [constructor; [split; assumption | exact Hw] |].
    rewrite Ho, Hi, <- Hd. simpl. rewrite <- !app_assoc. split; reflexivity.
Qed.

(** C1. [handleCheckout] partitions the cart by [farmer_id]: the groups have
    distinct farmers, exactly the farmers of the cart; a farmer's group holds
    one item per line of that farmer, in cart order, each with
    [subtotal = unit_price * quantity], its total is the sum of
    [price_per_unit * orderQuantity] over those lines, and its code is the
    code of the farmer's first line.  When the checkout
    succeeds, exactly one Order per group is added, for the signed-in
    customer and the group's farmer, with the group's total as
    [total_amount], together with one OrderItem per line of the group.  For
    the cart [A: farmer1, 2 at 100; B: farmer1, 1 at 50; C: farmer2, 3 at 20]
    this gives exactly two Orders: farmer1 with total 250 and 2 items,
    farmer2 with total 60 and 1 item. *)
Theorem checkout_orders_per_farmer (ui : Dashboard) :
  let groups := group_by_farmer (cart ui) in
  NoDup (map fst groups)
  /\ (forall farmer, In farmer (map fst groups)
                     <-> In farmer (map CartItem.farmer_id (cart ui)))
  /\ (forall farmer g, In (farmer, g) groups ->
        Group.farmer_id g = farmer
        /\ Group.items g = map line_of (lines_of farmer (cart ui))
        /\ Group.total g = getTotalAmount (lines_of farmer (cart ui))
        /\ (exists first rest,
              lines_of farmer (cart ui) = first :: rest
              /\ Group.farmer_code g = farmer_code_of first)
        /\ Forall (fun i => ItemData.subtotal i
                            = (ItemData.unit_price i * ItemData.quantity i)%float)
                  (Group.items g))
  /\ (forall w user,
        session w = Some user ->
        alerts (fst (handleCheckout ui w))
        = alerts ui ++ [payment_processed (getTotalAmount (cart ui))] ->
        exists written,
          Forall2 (written_as user) (values groups) written
          /\ orders (db (snd (handleCheckout ui w))) = orders (db w) ++ map fst written
          /\ order_items (db (snd (handleCheckout ui w)))
             = order_items (db w) ++ List.concat (map snd written))
  /\ values (group_by_farmer demo_cart)
     = [ Group.mk farmer1 "FSH001AAA"
           [ ItemData.mk listingA 2%float 100%float 200%float;
             ItemData.mk listingB 1%float 50%float 50%float ] 250%float;
         Group.mk farmer2 "FSH002BBB"
           [ ItemData.mk listingC 3%float 20%float 60%float ] 60%float ]
  /\ (let after := db (snd (@handleCheckout postgres (fresh_ui demo_cart)
                              (world_of market (Some customer1)))) in
      map (fun o => (Order.farmer_id o, Order.total_amount o,
                     List.length (filter (fun x => uuid_eqb (OrderItem.order_id x) (Order.id o))
                                         (order_items after))))
          (orders after)
      = [ (farmer1, 25000, 2%nat); (farmer2, 6000, 1%nat) ]
      /\ Forall (fun x => OrderItem.subtotal x
                          = OrderItem.quantity x * OrderItem.unit_price x)
                (order_items after)).
Proof.
  intros groups.
  destruct (group_by_farmer_grouped (cart ui)) as (Hnd & Hkeys & Hgroups).
  split; [exact Hnd | split; [exact Hkeys | split; [| split; [| split]]]].
  - intros farmer g Hin.
    destruct (Hgroups farmer g Hin) as (Hid & Hitems & Htotal & Hcode).
    split; [exact Hid | split; [exact Hitems | split; [exact Htotal | split]]].
    + destruct (lines_of farmer (cart ui)) as [|first rest]; [discriminate Hcode |].
      exists first, rest. split; [reflexivity |]. simpl in Hcode. congruence.
    + rewrite Hitems. apply Forall_forall. intros i Hi.
      apply in_map_iff in Hi. destruct Hi as (item & <- & _). reflexivity.
  - intros w user Hu Halert.
    subst groups. rewrite handleCheckout_world.
    unfold handleCheckout in Halert.
    destruct (place_orders _ w) as [[u|e] w'] eqn:Hrun; simpl in *.
    + eapply place_orders_normal; eassumption.
    + apply app_inv_head in Halert. discriminate.
  - vm_compute. reflexivity.
  - vm_compute. split; [reflexivity | repeat constructor].
Qed.

(* ================================================================== *)
(** ** A group that fails after others were written (C3) *)

Lemma place_orders_stops (before after : list Group.t) (g : Group.t)
    (w w1 w2 : World) (e : JsError) :
  place_orders before w = (Normal tt, w1) ->
  createOrder (order_data g) w1 = (Throw e, w2) ->
  place_orders (before ++ g :: after) w = (Throw e, w2).
Proof.
  revert w. induction before as [|b before IH]; intros w Hrun Hfail; simpl in *.
  - injection Hrun as <-. unfold bind. rewrite Hfail. reflexivity.
  - unfold bind in *.
    destruct (createOrder (order_data b) w) as [[placed|e0] w0]; [| discriminate].
    destruct (error placed); [discriminate |]. apply IH; assumption.
Qed.

(** C3, as the code has it.  When the call of [createOrder] for a group
    throws after the groups before it were written, [handleCheckout] stops
    there: the world it leaves is the one the failing call left, so no later
    group is attempted, and the orders and items of the earlier groups are
    still stored (with at most the failing group's own Order row after
    them).  What the user is told does not depend on how many groups were
    written: the alert is [Failed to process payment. Please try again.],
    the thrown error is logged, the cart is kept and the dialogs stay as
    they were, exactly as when the first group fails. *)
Theorem checkout_stops_at_first_failure (ui : Dashboard) (w w1 w2 : World)
    (before after : list Group.t) (g : Group.t) (e : JsError) :
  values (group_by_farmer (cart ui)) = before ++ g :: after ->
  place_orders before w = (Normal tt, w1) ->
  createOrder (order_data g) w1 = (Throw e, w2) ->
  handleCheckout ui w
  = (mkDashboard (cart ui) (showCart ui) (showCheckout ui) false
       (alerts ui ++ [payment_failed]) (console ui ++ [e]),
     w2)
  /\ (forall user, session w = Some user ->
        exists written extra,
          Forall2 (written_as user) before written
          /\ (List.length extra <= 1)%nat
          /\ orders (db w2) = orders (db w) ++ map fst written ++ extra
          /\ order_items (db w2) = order_items (db w) ++ List.concat (map snd written)).
Proof.
  intros Hgroups Hrun Hfail. split.
  - unfold handleCheckout. rewrite Hgroups.
    rewrite (place_orders_stops before after g w w1 w2 e Hrun Hfail). reflexivity.
  - intros user Hu.
    destruct (place_orders_normal before w w1 tt user Hrun Hu) as (written & Hw & Ho & Hi).
    pose proof (createOrder_ends (order_data g) w1) as [Hp _].
    rewrite Hfail in Hp. simpl in Hp.
    exists written.
    inversion Hp as [Hn Hc Hd | u0 e0 Hn Hc Hd | u0 order e0 Hn Hfor Hc Hd
                    | u0 order rows Hn Hfor Hrows Hc Hd].
    + exists []. rewrite Ho, Hi, app_nil_r. repeat split; auto.
    + exists []. rewrite Ho, Hi, app_nil_r. repeat split; auto.
    + exists [order]. simpl. rewrite Ho, Hi, <- app_assoc.
      repeat split; auto.
Qed.

(* ================================================================== *)
(** ** What the store checks of an order item (C4) *)

Lemma Forall2_In_r {A B : Type} (R : A -> B -> Prop) (xs : list A) (ys : list B) (y : B) :
  Forall2 R xs ys -> In y ys -> exists x, In x xs /\ R x y.
Proof.
  induction 1 as [|x y0 xs ys HR _ IH]; simpl; [intros [] |].
  intros [<- | Hin].
  - exists x. auto.
  - destruct (IH Hin) as (x' & Hx & HRx). exists x'. auto.
Qed.

(** C4, as the code has it.  Every row [createOrder] adds to [order_items]
    passed the store's CHECK constraints, so its quantity, unit price and
    subtotal are positive, and its subtotal is the one the caller sent, read
    into the column and not computed by the store.  That a subtotal is
    [unit_price * quantity] is the caller's doing: it holds of every item
    [handleCheckout] sends. *)
Theorem order_item_subtotals (orderData : OrderData.t) (w : World) (ui : Dashboard) :
  (forall row,
      In row (order_items (db (snd (createOrder orderData w)))) ->
      In row (order_items (db w))
      \/ (0 < OrderItem.subtotal row
          /\ 0 < OrderItem.quantity row
          /\ 0 < OrderItem.unit_price row
          /\ exists item,
               In item (OrderData.items orderData)
               /\ to_decimal (ItemData.subtotal item) = Some (OrderItem.subtotal row)
               /\ to_decimal (ItemData.unit_price item) = Some (OrderItem.unit_price row)
               /\ to_integer (ItemData.quantity item) = Some (OrderItem.quantity row)))
  /\ (forall g item,
        In g (values (group_by_farmer (cart ui))) ->
        In item (Group.items g) ->
        ItemData.subtotal item = (ItemData.unit_price item * ItemData.quantity item)%float).
Proof.
  split.
  - intros row Hin.
    destruct (createOrder_ends orderData w) as [Hp _].
    inversion Hp as [Hn Hc Hd | u0 e0 Hn Hc Hd | u0 order e0 Hn Hfor Hc Hd
                    | u0 order rows Hn Hfor Hrows Hc Hd];
      rewrite <- Hd in Hin; simpl in Hin; auto.
    apply in_app_or in Hin. destruct Hin as [Hin | Hin]; [left; exact Hin | right].
    destruct (Forall2_In_r _ _ _ _ Hrows Hin) as (x & Hx & Hst).
    apply in_map_iff in Hx. destruct Hx as (item & <- & Hitem).
    destruct Hst as (_ & _ & Hq & Hp' & Hs & Hq0 & Hp0 & Hs0). simpl in *.
    repeat split; try assumption. exists item. auto.
  - intros g item Hg Hitem.
    destruct (group_by_farmer_grouped (cart ui)) as (_ & _ & Hgroups).
    unfold values in Hg. apply in_map_iff in Hg. destruct Hg as ([f g'] & Heq & Hin).
    simpl in Heq; subst g'.
    destruct (Hgroups f g Hin) as (_ & Hitems & _).
    rewrite Hitems in Hitem. apply in_map_iff in Hitem.
    destruct Hitem as (line & <- & _). reflexivity.
Qed.

(* ================================================================== *)
(** ** Who sees an inactive listing (C5) *)

Lemma insert_desc_In {A : Type} (key : A -> timestamp) (x y : A) (l : list A) :
  In x (insert_desc key y l) <-> x = y \/ In x l.
Proof.
  induction l as [|z rest IH]; simpl.
  - split; [intros [H | []]; auto | intros [H | []]; auto].
  - destruct (key z <? key y); simpl.
    + split; [intros [H | H]; auto | intros [H | H]; auto].
    + rewrite IH. split; [intros [H | [H | H]]; auto | intros [H | [H | H]]; auto].
Qed.

Lemma order_desc_In {A : Type} (key : A -> timestamp) (x : A) (l : list A) :
  In x (order_desc key l) <-> In x l.
Proof.
  unfold order_desc. induction l as [|y rest IH]; simpl; [reflexivity |].
  rewrite insert_desc_In, IH. split; [intros [H | H]; auto | intros [H | H]; auto].
Qed.

Lemma getFarmerListings_as (w : World) (user : uuid) :
  session w = Some user ->
  getFarmerListings w
  = (Normal (ok (order_desc FishListing.created_at
                   (filter (fun l => uuid_eqb (FishListing.farmer_id l) user)
                      (filter (permitted fish_listings_policies SELECT (Some user) (db w))
                         (fish_listings (db w)))))),
     w).
Proof.
  intros Hu. unfold getFarmerListings, bind, getUser.
  rewrite Hu. unfold request, select_farmer_listings. rewrite Hu. reflexivity.
Qed.

(** C5. An inactive listing of farmer F is returned to F: the policies of
    [fish_listings] accept the row for F, and F's listing read
    ([getFarmerListings]) contains it.  For any other signed-in reader,
    farmer or customer, the policies reject the row, and both listing reads
    answer without an error and without the row.  (The public catalog is
    the read of active listings; it leaves the row out for every reader.) *)
Theorem inactive_listing_visibility (w : World) (l : FishListing.t) (reader : uuid) :
  In l (fish_listings (db w)) ->
  FishListing.is_active l = false ->
  session w = Some reader ->
  permitted fish_listings_policies SELECT (Some reader) (db w) l
  = uuid_eqb (FishListing.farmer_id l) reader
  /\ (FishListing.farmer_id l = reader ->
        exists rows, getFarmerListings w = (Normal (ok rows), w) /\ In l rows)
  /\ (FishListing.farmer_id l <> reader ->
        exists rows, getFarmerListings w = (Normal (ok rows), w) /\ ~ In l rows)
  /\ (exists rows, getFishListings w = (Normal (ok rows), w)
                   /\ ~ In l (map Listed.listing rows)).
Proof.
  intros Hin Hinactive Hu.
  assert (Hpol : permitted fish_listings_policies SELECT (Some reader) (db w) l
                 = uuid_eqb (FishListing.farmer_id l) reader).
  { unfold permitted, fish_listings_policies. simpl. rewrite Hinactive. simpl.
    rewrite orb_false_r. reflexivity. }
  split; [exact Hpol | split; [| split]].
  - intros Hown.
    rewrite (getFarmerListings_as w reader Hu). eexists. split; [reflexivity |].
    apply order_desc_In. apply filter_In. split.
    + apply filter_In. split; [exact Hin |].
      rewrite Hpol. apply uuid_eqb_eq. exact Hown.
    + apply uuid_eqb_eq. exact Hown.
  - intros Hother.
    rewrite (getFarmerListings_as w reader Hu). eexists. split; [reflexivity |].
    rewrite order_desc_In. intros H. apply filter_In in H. destruct H as [_ H].
    apply uuid_eqb_eq in H. contradiction.
  - unfold getFishListings. eexists. split; [reflexivity |].
    rewrite map_map. simpl. rewrite map_id, Hu.
    rewrite order_desc_In. intros H. apply filter_In in H. destruct H as [_ H].
    rewrite Hinactive in H. discriminate.
Qed.

(* ================================================================== *)
(** ** The farmer's contact and the catalog (C6) *)

Lemma farmer_readable (reader : uuid) (d : Database) (f : Farmer.t) :
  permitted farmers_policies SELECT (Some reader) d f = true.
Proof. reflexivity. Qed.

Lemma filter_all {A : Type} (p : A -> bool) (l : list A) :
  (forall x, In x l -> p x = true) -> filter p l = l.
Proof.
  induction l as [|x rest IH]; simpl; intros H; [reflexivity |].
  rewrite (H x (or_introl eq_refl)), IH; [reflexivity | auto].
Qed.

Lemma filter_none {A : Type} (p : A -> bool) (l : list A) :
  (forall x, In x l -> p x = false) -> filter p l = [].
Proof.
  induction l as [|x rest IH]; simpl; intros H; [reflexivity |].
  rewrite (H x (or_introl eq_refl)), IH; [reflexivity | auto].
Qed.

Lemma find_farmer_without_contact (id : uuid) (l1 l2 : list Farmer.t) :
  map without_contact l1 = map without_contact l2 ->
  option_map farmer_info (find (fun f => uuid_eqb (Farmer.id f) id) l1)
  = option_map farmer_info (find (fun f => uuid_eqb (Farmer.id f) id) l2).
Proof.
  revert l2. induction l1 as [|f1 l1 IH]; intros [|f2 l2] H; simpl in *;
    try discriminate; [reflexivity |].
  injection H as Hid Hname Hcompany _ _ Hstate _ Hcity _ _ _ _ Hcode _ _ _ Htail.
  assert (Hinfo : farmer_info f1 = farmer_info f2)
    by (unfold farmer_info; congruence).
  rewrite Hid. destruct (uuid_eqb (Farmer.id f2) id); simpl.
  - rewrite Hinfo. reflexivity.
  - apply IH. exact Htail.
Qed.

Lemma embed_farmer_without_contact (w1 w2 : World) (l : FishListing.t) :
  session w1 = session w2 ->
  map without_contact (farmers (db w1)) = map without_contact (farmers (db w2)) ->
  embed_farmer w1 l = embed_farmer w2 l.
Proof.
  intros Hs Hf. unfold embed_farmer. rewrite Hs.
  destruct (session w2) as [reader|].
  - rewrite !filter_all by (intros; apply farmer_readable).
    apply find_farmer_without_contact. exact Hf.
  - rewrite !filter_none by reflexivity. reflexivity.
Qed.

(** C6. The farmer attached to a row of the catalog is made of
    [full_name], [company_name], [unique_code], [city] and [state] alone:
    two states of the store that differ only in farmers' phones or emails
    give the same catalog.  A direct read of a farmer's profile
    ([select * from farmers where id = ...]) by any signed-in user is
    permitted and returns the whole row, phone and email included. *)
Theorem catalog_hides_contact (w1 w2 : World) :
  session w1 = session w2 ->
  fish_listings (db w1) = fish_listings (db w2) ->
  map without_contact (farmers (db w1)) = map without_contact (farmers (db w2)) ->
  fst (getFishListings w1) = fst (getFishListings w2)
  /\ (forall reader f,
        session w1 = Some reader ->
        filter (fun x => uuid_eqb (Farmer.id x) (Farmer.id f)) (farmers (db w1)) = [f] ->
        permitted farmers_policies SELECT (Some reader) (db w1) f = true
        /\ fst (select_farmer (Farmer.id f) w1) = ok f).
Proof.
  intros Hs Hl Hf. split.
  - unfold getFishListings. simpl. rewrite Hl, Hs.
    assert (Hvis : forall l,
               permitted fish_listings_policies SELECT (session w2) (db w1) l
               = permitted fish_listings_policies SELECT (session w2) (db w2) l)
      by (intros l; destruct (session w2); reflexivity).
    rewrite (filter_ext _ _ Hvis).
    f_equal. f_equal. apply map_ext. intros l. f_equal.
    apply embed_farmer_without_contact; assumption.
  - intros reader f Hu Hone. split; [reflexivity |].
    unfold select_farmer. rewrite Hu.
    rewrite (filter_all (permitted farmers_policies SELECT (Some reader) (db w1)))
      by (intros; apply farmer_readable).
    rewrite Hone. reflexivity.
Qed.

(* ================================================================== *)
(** ** Another farmer's listing (C9) *)

Lemma same_id_same_row (rows : list FishListing.t) (a b : FishListing.t) :
  NoDup (map FishListing.id rows) ->
  In a rows -> In b rows -> FishListing.id a = FishListing.id b -> a = b.
Proof.
  induction rows as [|r rest IH]; simpl; [intros _ [] |].
  intros Hnd. inversion Hnd as [|? ? Hnotin Hnd']; subst.
  intros [-> | Ha] [-> | Hb] Hid; auto.
  - exfalso. apply Hnotin. rewrite Hid. apply in_map. exact Hb.
  - exfalso. apply Hnotin. rewrite <- Hid. apply in_map. exact Ha.
Qed.

Lemma foreign_listing_not_reached (c : command) (w : World) (l : FishListing.t)
    (principal : uuid) :
  c = UPDATE \/ c = DELETE ->
  session w = Some principal ->
  In l (fish_listings (db w)) ->
  FishListing.farmer_id l <> principal ->
  NoDup (map FishListing.id (fish_listings (db w))) ->
  forall r, In r (fish_listings (db w)) -> reached c w (FishListing.id l) r = false.
Proof.
  intros Hc Hu Hin Hother Hnd r Hr. unfold reached.
  destruct (uuid_eqb (FishListing.id r) (FishListing.id l)) eqn:E; [| reflexivity].
  apply uuid_eqb_eq in E.
  assert (r = l) by (eapply same_id_same_row; eassumption). subst r.
  rewrite Hu.
  assert (Hno : permitted fish_listings_policies c (Some principal) (db w) l = false).
  { apply uuid_eqb_neq in Hother.
    destruct Hc as [-> | ->]; unfold permitted; simpl; rewrite Hother; reflexivity. }
  rewrite Hno. apply andb_false_r.
Qed.

(** C9, as the code has it.  Let a signed-in principal P address a listing
    whose [farmer_id] is not P, in a table whose ids are distinct (the
    primary key).  Every table is left as it was, and
    - creating a listing under that [farmer_id] is refused by row-level
      security;
    - [updateFishListing] reaches no row, and [.single()] answers with its
      no-single-row error, which is not an authorization error;
    - [deleteFishListing] reaches no row either and answers without any
      error.
    The two refusals are these errors whenever the numbers of the request
    are numbers the body can carry to their columns, [NaN] and the
    infinities (sent as [null]) included; a request with another number is
    refused as well, with that error or with the error for the number. *)
Theorem foreign_listing_untouched (w : World) (l : FishListing.t) (principal : uuid) :
  session w = Some principal ->
  In l (fish_listings (db w)) ->
  FishListing.farmer_id l <> principal ->
  NoDup (map FishListing.id (fish_listings (db w))) ->
  (forall listingData,
      db (snd (insert_fish_listing (FishListing.farmer_id l) listingData w)) = db w
      /\ (exists e,
            fst (insert_fish_listing (FishListing.farmer_id l) listingData w) = failed e
            /\ (e = insufficient_privilege "fish_listings" \/ exists c, e = data_exception c))
      /\ (readable to_integer (ListingData.quantity listingData) = true ->
          readable to_decimal (ListingData.price_per_unit listingData) = true ->
          fst (insert_fish_listing (FishListing.farmer_id l) listingData w)
          = failed (insufficient_privilege "fish_listings")))
  /\ (forall updates,
        db (snd (updateFishListing (FishListing.id l) updates w)) = db w
        /\ (exists e,
              fst (updateFishListing (FishListing.id l) updates w) = Normal (failed e)
              /\ (e = no_single_row \/ exists c, e = data_exception c))
        /\ (readable_optional to_integer (ListingUpdates.quantity updates) = true ->
            readable_optional to_decimal (ListingUpdates.price_per_unit updates) = true ->
            fst (updateFishListing (FishListing.id l) updates w)
            = Normal (failed no_single_row)))
  /\ deleteFishListing (FishListing.id l) w = (Normal (mkResponse None None), w).
Proof.
  intros Hu Hin Hother Hnd. split; [| split].
  - intros listingData.
    assert (Hrefused : forall quantity price row,
               fish_listings_violation (set_uuid_calls w (S (uuid_calls w)))
                 quantity price row
               = Some (insufficient_privilege "fish_listings")
               \/ FishListing.farmer_id row <> FishListing.farmer_id l).
    { intros quantity price row.
      destruct (uuid_eqb (FishListing.farmer_id row) (FishListing.farmer_id l)) eqn:E;
        [left | right; apply uuid_eqb_neq; exact E].
      apply uuid_eqb_eq in E. unfold fish_listings_violation. simpl. rewrite Hu.
      unfold permitted at 1. simpl. rewrite E.
      apply uuid_eqb_neq in Hother. rewrite Hother. reflexivity. }
    unfold insert_fish_listing.
    destruct (read_number to_integer (ListingData.quantity listingData)) as [q|] eqn:Hq.
    2:{ split; [reflexivity |].
        split; [eexists; split; [reflexivity | right; eexists; reflexivity] |].
        intros H _. apply read_number_readable in H. destruct H as (c & H).
        rewrite H in Hq. discriminate Hq. }
    destruct (read_number to_decimal (ListingData.price_per_unit listingData))
      as [p|] eqn:Hp.
    2:{ split; [reflexivity |].
        split; [eexists; split; [reflexivity | right; eexists; reflexivity] |].
        intros _ H. apply read_number_readable in H. destruct H as (c & H).
        rewrite H in Hp. discriminate Hp. }
    unfold gen_random_uuid.
    match goal with |- context [fish_listings_violation ?w1 ?a ?b ?row] =>
      destruct (Hrefused a b row) as [Hv | Hv]; [rewrite Hv | exfalso; apply Hv; reflexivity]
    end.
    split; [reflexivity |].
    split; [eexists; split; [reflexivity | left; reflexivity] | reflexivity].
  - intros updates.
    unfold updateFishListing, request, update_fish_listing.
    destruct (read_optional to_integer (ListingUpdates.quantity updates)) as [q|] eqn:Hq.
    2:{ split; [reflexivity |].
        split; [eexists; split; [reflexivity | right; eexists; reflexivity] |].
        intros H _. apply read_optional_readable in H. destruct H as (c & H).
        rewrite H in Hq. discriminate Hq. }
    destruct (read_optional to_decimal (ListingUpdates.price_per_unit updates))
      as [p|] eqn:Hp.
    2:{ split; [reflexivity |].
        split; [eexists; split; [reflexivity | right; eexists; reflexivity] |].
        intros _ H. apply read_optional_readable in H. destruct H as (c & H).
        rewrite H in Hp. discriminate Hp. }
    rewrite (filter_none (reached UPDATE w (FishListing.id l)))
      by (apply (foreign_listing_not_reached UPDATE w l principal); auto).
    simpl. split; [reflexivity |].
    split; [eexists; split; [reflexivity | left; reflexivity] | reflexivity].
  - unfold deleteFishListing, request, delete_fish_listing.
    rewrite (filter_none (reached DELETE w (FishListing.id l)))
      by (apply (foreign_listing_not_reached DELETE w l principal); auto).
    rewrite (filter_all (fun r => negb (reached DELETE w (FishListing.id l) r))).
    2:{ intros r Hr.
        rewrite (foreign_listing_not_reached DELETE w l principal); auto. }
    simpl. rewrite filter_all by reflexivity.
    destruct w as [d s us uc rs rc n]; destruct d; reflexivity.
Qed.

End Properties.

(* ================================================================== *)
(** ** Farmer codes (C8) *)

Lemma Qfloor_scaled (r : Q) (n : Z) :
  (0 <= r)%Q -> (r < 1)%Q -> 0 < n -> 0 <= Qfloor (r * inject_Z n) < n.
Proof.
  intros H0 H1 Hn. split.
  - change 0 with (Qfloor 0). apply Qfloor_resp_le.
    apply Qmult_le_0_compat; [exact H0 |].
    change 0%Q with (inject_Z 0). rewrite <- Zle_Qle. lia.
  - rewrite Zlt_Qlt. eapply Qle_lt_trans; [apply Qfloor_le |].
    rewrite <- (Qmult_1_l (inject_Z n)) at 2.
    apply Qmult_lt_compat_r; [| exact H1].
    change 0%Q with (inject_Z 0). rewrite <- Zlt_Qlt. exact Hn.
Qed.

Lemma below_forallb (p : nat -> bool) (n : nat) (z : Z) :
  forallb p (seq 0 n) = true -> 0 <= z < Z.of_nat n -> p (Z.to_nat z) = true.
Proof.
  intros H Hz. rewrite forallb_forall in H. apply H. apply in_seq. lia.
Qed.

Lemma lpad_three_digits (z : Z) :
  0 <= z < 1000 -> three_digits (lpad (text_of_Z z) 3 "0") = true.
Proof.
  intros Hz.
  assert (H : forallb (fun n => three_digits (lpad (text_of_Z (Z.of_nat n)) 3 "0"))
                      (seq 0 1000) = true) by (vm_compute; reflexivity).
  apply (below_forallb _ 1000 z) in H; [| lia].
  cbv beta in H. rewrite Z2Nat.id in H by lia. exact H.
Qed.

Lemma chr_capital (z : Z) : 0 <= z < 26 -> one_capital (chr (65 + z)) = true.
Proof.
  intros Hz.
  assert (H : forallb (fun n => one_capital (chr (65 + Z.of_nat n))) (seq 0 26) = true)
    by (vm_compute; reflexivity).
  apply (below_forallb _ 26 z) in H; [| lia].
  cbv beta in H. rewrite Z2Nat.id in H by lia. exact H.
Qed.

Lemma farmer_code_from_format (r1 r2 r3 r4 : Q) :
  (0 <= r1 /\ r1 < 1)%Q -> (0 <= r2 /\ r2 < 1)%Q ->
  (0 <= r3 /\ r3 < 1)%Q -> (0 <= r4 /\ r4 < 1)%Q ->
  code_format (farmer_code_from r1 r2 r3 r4) = true.
Proof.
  intros [H1 H1'] [H2 H2'] [H3 H3'] [H4 H4']. unfold farmer_code_from.
  pose proof (lpad_three_digits _ (Qfloor_scaled r1 1000 H1 H1' eq_refl)) as Hd.
  pose proof (chr_capital _ (Qfloor_scaled r2 26 H2 H2' eq_refl)) as Ha.
  pose proof (chr_capital _ (Qfloor_scaled r3 26 H3 H3' eq_refl)) as Hb.
  pose proof (chr_capital _ (Qfloor_scaled r4 26 H4 H4' eq_refl)) as Hc.
  change (inject_Z 1000) with 1000%Q in Hd.
  change (inject_Z 26) with 26%Q in Ha, Hb, Hc.
  destruct (lpad _ 3 "0") as [|d1 [|d2 [|d3 [|]]]]; try discriminate Hd.
  destruct (chr (65 + Qfloor (r2 * 26))) as [|l1 [|]]; try discriminate Ha.
  destruct (chr (65 + Qfloor (r3 * 26))) as [|l2 [|]]; try discriminate Hb.
  destruct (chr (65 + Qfloor (r4 * 26))) as [|l3 [|]]; try discriminate Hc.
  simpl in *. rewrite Hd, Ha, Hb, Hc. reflexivity.
Qed.

Lemma first_fresh (taken : nat -> bool) (k : nat) :
  taken k = false ->
  exists j, (j <= k)%nat /\ taken j = false /\ forall i, (i < j)%nat -> taken i = true.
Proof.
  induction k as [k IH] using (well_founded_induction lt_wf). intros Hk.
  destruct (forallb taken (seq 0 k)) eqn:E.
  - exists k. split; [lia | split; [exact Hk |]].
    intros i Hi. rewrite forallb_forall in E. apply E. apply in_seq. lia.
  - assert (Hex : exists i, In i (seq 0 k) /\ taken i = false).
    { clear IH Hk. induction (seq 0 k) as [|a l IHl]; simpl in E; [discriminate |].
      destruct (taken a) eqn:Ea.
      - destruct (IHl E) as (i & Hi & Hf). exists i. split; [right; exact Hi | exact Hf].
      - exists a. split; [left; reflexivity | exact Ea]. }
    destruct Hex as (i & Hi & Hf). apply in_seq in Hi.
    destruct (IH i ltac:(lia) Hf) as (j & Hj & Hfresh & Hbefore).
    exists j. split; [lia | auto].
Qed.

(** The loop returns in the first round whose code no farmer has, given
    fuel for that many rounds, and leaves the tables as they are. *)
Lemma generate_farmer_code_returns (j : nat) :
  forall (w : World) (fuel : nat),
    (j < fuel)%nat ->
    (forall i, (i < j)%nat -> code_exists w (round w i) = true) ->
    code_exists w (round w j) = false ->
    exists w',
      generate_farmer_code fuel w = (Some (round w j), w')
      /\ db w' = db w /\ session w' = session w.
Proof.
  induction j as [|j IH]; intros w fuel Hfuel Hbefore Hfresh;
    (destruct fuel as [|fuel]; [lia |]); simpl; unfold random; simpl.
  - unfold round in Hfresh. rewrite Nat.mul_0_r, Nat.add_0_r in Hfresh.
    unfold code_at in Hfresh.
    change (code_exists (set_random_calls _ _) ?c) with (code_exists w c).
    rewrite Hfresh. simpl. eexists.
    split; [unfold round, code_at; rewrite Nat.mul_0_r, Nat.add_0_r; reflexivity |].
    split; reflexivity.
  - pose proof (Hbefore 0%nat ltac:(lia)) as H0.
    unfold round in H0. rewrite Nat.mul_0_r, Nat.add_0_r in H0. unfold code_at in H0.
    change (code_exists (set_random_calls _ _) ?c) with (code_exists w c).
    rewrite H0. simpl.
    match goal with |- context [generate_farmer_code fuel ?x] => set (w4 := x) end.
    assert (Hround : forall i, round w4 i = round w (S i)).
    { intros i. unfold round, code_at.
      replace (random_calls w + 4 * S i)%nat with (random_calls w4 + 4 * i)%nat
        by (unfold w4; simpl; lia).
      reflexivity. }
    destruct (IH w4 fuel ltac:(lia)) as (w' & Hgen & Hd & Hs).
    + intros i Hi. rewrite Hround. apply (Hbefore (S i)). lia.
    + rewrite Hround. exact Hfresh.
    + exists w'. rewrite Hgen, Hround. repeat split; assumption.
Qed.

Lemma round_format (w : World) (i : nat) :
  (forall n, (0 <= random_src w n /\ random_src w n < 1)%Q) ->
  code_format (round w i) = true.
Proof.
  intros Hr. unfold round, code_at. apply farmer_code_from_format; apply Hr.
Qed.

Lemma code_format_nonempty (s : string) : code_format s = true -> s <> "".
Proof. intros H ->. discriminate. Qed.

(** The check of the loop reads the farmers the caller may read: all of
    them for a signed-in user, none for a user who is not signed in. *)
Lemma code_exists_signed_in (w : World) (user : uuid) (code : string) :
  session w = Some user ->
  code_exists w code
  = existsb (fun f => String.eqb (Farmer.unique_code f) code) (farmers (db w)).
Proof.
  intros Hu. unfold code_exists. rewrite Hu.
  rewrite filter_all by (intros; apply farmer_readable). reflexivity.
Qed.

Lemma code_exists_anonymous (w : World) (code : string) :
  session w = None -> code_exists w code = false.
Proof.
  intros Hu. unfold code_exists. rewrite Hu.
  rewrite filter_none by reflexivity. reflexivity.
Qed.

Lemma code_free_signed_in (w : World) (user : uuid) (code : string) :
  session w = Some user ->
  code_exists w code = false <->
  forall f, In f (farmers (db w)) -> Farmer.unique_code f <> code.
Proof.
  intros Hu. rewrite (code_exists_signed_in w user code Hu). split.
  - intros H f Hf Hsame.
    assert (E : existsb (fun f0 => String.eqb (Farmer.unique_code f0) code)
                        (farmers (db w)) = true).
    { apply existsb_exists. exists f. split; [exact Hf | apply String.eqb_eq; exact Hsame]. }
    congruence.
  - intros H. destruct (existsb _ _) eqn:E; [| reflexivity].
    apply existsb_exists in E. destruct E as (f & Hf & Hsame).
    apply String.eqb_eq in Hsame. exfalso. exact (H f Hf Hsame).
Qed.

Lemma code_taken_signed_in (w : World) (user : uuid) (code : string) :
  session w = Some user ->
  code_exists w code = true <->
  exists f, In f (farmers (db w)) /\ Farmer.unique_code f = code.
Proof.
  intros Hu. rewrite (code_exists_signed_in w user code Hu). rewrite existsb_exists.
  split; intros (f & Hf & Hsame); exists f; (split; [exact Hf |]);
    apply String.eqb_eq; exact Hsame.
Qed.

Lemma generate_farmer_code_gives_up (fuel : nat) :
  forall w : World,
    (forall i, (i < fuel)%nat -> code_exists w (round w i) = true) ->
    fst (generate_farmer_code fuel w) = None.
Proof.
  induction fuel as [|fuel IH]; intros w Htaken; simpl; [reflexivity |].
  unfold random. simpl.
  pose proof (Htaken 0%nat ltac:(lia)) as H0.
  unfold round in H0. rewrite Nat.mul_0_r, Nat.add_0_r in H0. unfold code_at in H0.
  change (code_exists (set_random_calls _ _) ?c) with (code_exists w c).
  rewrite H0. simpl.
  match goal with |- context [generate_farmer_code fuel ?x] => set (w4 := x) end.
  apply IH. intros i Hi.
  assert (Hround : round w4 i = round w (S i)).
  { unfold round, code_at.
    replace (random_calls w + 4 * S i)%nat with (random_calls w4 + 4 * i)%nat
      by (unfold w4; simpl; lia).
    reflexivity. }
  rewrite Hround. apply (Htaken (S i)). lia.
Qed.

(** What the loop returns, in terms of its own check [code_exists]. *)
Lemma generate_farmer_code_checked (fuel : nat) (w : World) :
  match generate_farmer_code fuel w with
  | (Some code, w') =>
      code_exists w code = false
      /\ db w' = db w
      /\ exists j, (j < fuel)%nat
                   /\ code = round w j
                   /\ forall i, (i < j)%nat -> code_exists w (round w i) = true
  | (None, _) => forall i, (i < fuel)%nat -> code_exists w (round w i) = true
  end.
Proof.
  destruct (forallb (fun i => code_exists w (round w i)) (seq 0 fuel)) eqn:Hall.
  - assert (Htaken : forall i, (i < fuel)%nat -> code_exists w (round w i) = true).
    { intros i Hi. rewrite forallb_forall in Hall. apply Hall. apply in_seq. lia. }
    pose proof (generate_farmer_code_gives_up fuel w Htaken) as Hnone.
    destruct (generate_farmer_code fuel w) as [[code|] w']; [discriminate Hnone |].
    exact Htaken.
  - assert (Hex : exists k, (k < fuel)%nat /\ code_exists w (round w k) = false).
    { clear - Hall. assert (H : exists k, In k (seq 0 fuel) /\ code_exists w (round w k) = false).
      { induction (seq 0 fuel) as [|a l IH]; simpl in Hall; [discriminate |].
        destruct (code_exists w (round w a)) eqn:Ea.
        - destruct (IH Hall) as (k & Hk & Hf). exists k. split; [right; exact Hk | exact Hf].
        - exists a. split; [left; reflexivity | exact Ea]. }
      destruct H as (k & Hk & Hf). exists k. apply in_seq in Hk. split; [lia | exact Hf]. }
    destruct Hex as (k & Hk & Hfree).
    destruct (first_fresh (fun i => code_exists w (round w i)) k Hfree)
      as (j & Hj & Hfresh & Hbefore).
    destruct (generate_farmer_code_returns j w fuel ltac:(lia) Hbefore Hfresh)
      as (w' & Hgen & Hd & _).
    rewrite Hgen. split; [exact Hfresh | split; [exact Hd |]].
    exists j. split; [lia | split; [reflexivity | exact Hbefore]].
Qed.

Lemma generate_farmer_code_some (fuel : nat) :
  forall (w w' : World) (code : string),
    generate_farmer_code fuel w = (Some code, w') ->
    code_exists w code = false
    /\ db w' = db w /\ session w' = session w
    /\ exists n, code = code_at w n.
Proof.
  induction fuel as [|fuel IH]; intros w w' code H; simpl in H; [discriminate H |].
  unfold random in H. simpl in H.
  match type of H with context [generate_farmer_code fuel ?x] => set (w4 := x) in H end.
  change (code_exists w4 ?c) with (code_exists w c) in H.
  destruct (code_exists w _) eqn:E; simpl in H.
  - apply IH in H. destruct H as (Hfree & Hd & Hs & (n & Hn)).
    repeat split; try assumption. exists n. exact Hn.
  - injection H as <- <-. repeat split; try assumption.
    exists (random_calls w). reflexivity.
Qed.

Lemma generate_farmer_code_db (fuel : nat) :
  forall w : World, db (snd (generate_farmer_code fuel w)) = db w.
Proof.
  induction fuel as [|fuel IH]; intros w; simpl; [reflexivity |].
  unfold random. simpl. destruct (negb _); [reflexivity |].
  rewrite IH. reflexivity.
Qed.

(** C8. A farmer row inserted with no [unique_code] (NULL or the empty
    text) gets its code from [generate_farmer_code], which draws a code and
    draws again while some farmer has the code drawn.  The draws of
    [random()] lie in [0, 1).
    - Every row so created is stored with a non-empty code of the form
      [FSH], three digits, three capitals, that no farmer already there
      has: the code of the first round of the loop whose code no farmer
      has, every earlier round having drawn a code that is taken.
    - The row is created: when the caller is signed in as the user the row
      is for (the INSERT policy), no farmer has the row's id or email, and
      some round [k] draws a code no farmer has, the insert answers with
      the stored row, given fuel for the first such round. *)
Theorem farmer_code_assigned (new : NewFarmer.t) (w : World) :
  NewFarmer.unique_code new = None \/ NewFarmer.unique_code new = Some "" ->
  (forall n, (0 <= random_src w n /\ random_src w n < 1)%Q) ->
  (forall fuel row w',
      insert_farmer fuel new w = (Some (ok row), w') ->
      db w' = with_farmers (db w) (farmers (db w) ++ [row])
      /\ code_format (Farmer.unique_code row) = true
      /\ Farmer.unique_code row <> ""
      /\ (forall f, In f (farmers (db w)) ->
                    Farmer.unique_code f <> Farmer.unique_code row)
      /\ exists j,
           (j < fuel)%nat
           /\ Farmer.unique_code row = round w j
           /\ forall i, (i < j)%nat ->
                        exists f, In f (farmers (db w))
                                  /\ Farmer.unique_code f = round w i)
  /\ (forall k,
        session w = Some (NewFarmer.id new) ->
        (forall f, In f (farmers (db w)) ->
                   Farmer.id f <> NewFarmer.id new
                   /\ Farmer.email f <> NewFarmer.email new) ->
        (forall f, In f (farmers (db w)) -> Farmer.unique_code f <> round w k) ->
        exists j row,
          (j <= k)%nat
          /\ Farmer.id row = NewFarmer.id new
          /\ Farmer.unique_code row = round w j
          /\ forall fuel, (j < fuel)%nat ->
                exists w', insert_farmer fuel new w = (Some (ok row), w')).
Proof.
  intros Habsent Hrange.
  assert (Hset : forall fuel, set_farmer_code fuel new w = generate_farmer_code fuel w).
  { intros fuel. unfold set_farmer_code. destruct Habsent as [-> | ->]; reflexivity. }
  split.
  - intros fuel row w' Hins. unfold insert_farmer in Hins. rewrite Hset in Hins.
    pose proof (generate_farmer_code_checked fuel w) as Hgen.
    destruct (generate_farmer_code fuel w) as [[code|] w1] eqn:Hrun; [| discriminate Hins].
    destruct Hgen as (Hfree & Hd & j & Hj & Hcode & Hbefore).
    destruct (generate_farmer_code_some fuel w w1 code Hrun) as (_ & _ & Hs & _).
    match type of Hins with context [farmers_violation w1 ?r] =>
      destruct (farmers_violation w1 r) as [e|] eqn:Hv end; [discriminate Hins |].
    injection Hins as <- <-. simpl.
    unfold farmers_violation in Hv. apply first_violation_none in Hv.
    apply Forall_inv in Hv. rename Hv into Hpolicy.
    apply require_none in Hpolicy. rewrite Hs in Hpolicy.
    destruct (session w) as [user|] eqn:Hu; [| discriminate Hpolicy].
    pose proof (round_format w j Hrange) as Hformat. rewrite <- Hcode in Hformat.
    split; [rewrite Hd; reflexivity |].
    split; [exact Hformat |].
    split; [apply code_format_nonempty; exact Hformat |].
    split; [apply (code_free_signed_in w user code Hu); exact Hfree |].
    exists j. split; [exact Hj | split; [exact Hcode |]].
    intros i Hi. apply (code_taken_signed_in w user _ Hu). apply Hbefore. exact Hi.
  - intros k Hu Hnew Hk.
    apply (code_free_signed_in w _ _ Hu) in Hk.
    destruct (first_fresh (fun i => code_exists w (round w i)) k Hk)
      as (j & Hj & Hfresh & Hbefore).
    eexists j, _. split; [exact Hj |].
    split; [| split; [|
      intros fuel Hfuel;
      destruct (generate_farmer_code_returns j w fuel Hfuel Hbefore Hfresh)
        as (w1 & Hgen & Hd & Hs);
      unfold insert_farmer; rewrite Hset, Hgen;
      match goal with |- context [farmers_violation w1 ?r] =>
        assert (Hv : farmers_violation w1 r = None) end;
      [| rewrite Hv; eexists; reflexivity]]]; [reflexivity | reflexivity |].
    unfold farmers_violation. apply first_violation_none.
    repeat constructor; apply require_none; simpl; rewrite ?Hs, ?Hd, ?Hu.
    + unfold permitted. simpl. rewrite uuid_eqb_refl. reflexivity.
    + apply negb_true_iff. destruct (existsb _ _) eqn:E; [| reflexivity].
      apply existsb_exists in E. destruct E as (f & Hf & Hsame).
      apply uuid_eqb_eq in Hsame. exfalso. exact (proj1 (Hnew f Hf) Hsame).
    + apply negb_true_iff. destruct (existsb _ _) eqn:E; [| reflexivity].
      apply existsb_exists in E. destruct E as (f & Hf & Hsame).
      apply String.eqb_eq in Hsame. exfalso. exact (proj2 (Hnew f Hf) Hsame).
    + apply negb_true_iff. rewrite <- (code_exists_signed_in w _ _ Hu). exact Hfresh.
    + reflexivity.
Qed.

(* ================================================================== *)
(** ** The properties on the small marketplace *)

(** The demonstration cart, checked out by customer1, is written as one
    order with its items per farmer group. *)
Lemma checkout_orders_per_farmer_market :
  exists written,
    Forall2 (written_as customer1) (values (group_by_farmer (cart (fresh_ui demo_cart))))
            written
    /\ orders (db (snd (handleCheckout (fresh_ui demo_cart)
                          (world_of market (Some customer1)))))
       = orders (db (world_of market (Some customer1))) ++ map fst written
    /\ order_items (db (snd (handleCheckout (fresh_ui demo_cart)
                               (world_of market (Some customer1)))))
       = order_items (db (world_of market (Some customer1)))
         ++ List.concat (map snd written).
Proof.
  destruct (checkout_orders_per_farmer (fresh_ui demo_cart)) as (_ & _ & _ & H & _).
  apply (H (world_of market (Some customer1)) customer1).
  - reflexivity.
  - vm_compute. reflexivity.
Defined.

(** Against C2 as stated: listing B was deleted after the customer had put
    it in the cart.  The Order of farmer1's group is committed, the
    insertion of its items fails on the foreign key, and the Order row
    remains, with no item. *)
Lemma order_kept_without_items :
  let outcome := handleCheckout (fresh_ui farmer1_cart)
                   (world_of market_without_listingB (Some customer1)) in
  console (fst outcome)
  = [ ApiError (foreign_key_violation "order_items_fish_listing_id_fkey") ]
  /\ map (fun o => (Order.farmer_id o, Order.total_amount o)) (orders (db (snd outcome)))
     = [ (farmer1, 25000) ]
  /\ order_items (db (snd outcome)) = [].
Proof. vm_compute. repeat split. Qed.

(** Against C3 as stated: the same cart checked out when farmer2 is gone
    (farmer1's group is written, farmer2's fails) and when farmer1 is gone
    (the first group fails, nothing is written).  What the customer is
    shown is the same in both: the failure alert, the cart as it was, the
    dialogs open; the log holds the error of the failed insert and nothing
    about the group that was written. *)
Lemma partial_failure_reported_as_total :
  let partial := handleCheckout (fresh_ui demo_cart)
                   (world_of market_without_farmer2 (Some customer1)) in
  let total := handleCheckout (fresh_ui demo_cart)
                 (world_of market_without_farmer1 (Some customer1)) in
  shown (fst partial) = shown (fst total)
  /\ alerts (fst partial) = [ payment_failed ]
  /\ cart (fst partial) = demo_cart
  /\ console (fst partial) = [ ApiError (foreign_key_violation "orders_farmer_id_fkey") ]
  /\ left_behind partial = ([ (farmer1, 25000) ], 2%nat)
  /\ left_behind total = ([], 0%nat).
Proof. vm_compute. repeat split. Qed.

(** farmer2 is gone: the checkout stops at farmer2's group, farmer1's order
    and items stay, and the dashboard shows the failure alert. *)
Lemma checkout_stops_at_first_failure_market :
  let w := world_of market_without_farmer2 (Some customer1) in
  let w1 := snd (place_orders [group1] w) in
  let e := ApiError (foreign_key_violation "orders_farmer_id_fkey") in
  let w2 := snd (createOrder (order_data group2) w1) in
  handleCheckout (fresh_ui demo_cart) w
  = (mkDashboard demo_cart true true false [payment_failed] [e], w2)
  /\ exists written extra,
       Forall2 (written_as customer1) [group1] written
       /\ (List.length extra <= 1)%nat
       /\ orders (db w2) = orders (db w) ++ map fst written ++ extra
       /\ order_items (db w2) = order_items (db w) ++ List.concat (map snd written).
Proof.
  intros w w1 e w2.
  assert (H : values (group_by_farmer (cart (fresh_ui demo_cart))) = [group1] ++ group2 :: []
              /\ place_orders [group1] w = (Normal tt, w1)
              /\ createOrder (order_data group2) w1 = (Throw e, w2))
    by (vm_compute; repeat split).
  destruct H as (Hgroups & Hrun & Hfail).
  destruct (checkout_stops_at_first_failure (fresh_ui demo_cart) w w1 w2
              [group1] [] group2 e Hgroups Hrun Hfail) as [Hui Hrows].
  split.
  - exact Hui.
  - apply (Hrows customer1). reflexivity.
Defined.

(** Against C4 as stated: the store accepts, and keeps, an order item of
    quantity 2 at unit price 100.00 whose subtotal is 5.00. *)
Lemma store_accepts_unrelated_subtotal :
  let outcome := createOrder odd_order (world_of market (Some customer1)) in
  (exists placed, fst outcome = Normal (ok placed))
  /\ map (fun x => (OrderItem.quantity x, OrderItem.unit_price x, OrderItem.subtotal x))
         (order_items (db (snd outcome)))
     = [ (2, 10000, 500) ]
  /\ ~ Forall (fun x => OrderItem.subtotal x = OrderItem.quantity x * OrderItem.unit_price x)
              (order_items (db (snd outcome))).
Proof.
  vm_compute. split; [eexists; reflexivity | split; [reflexivity |]].
  intros H. inversion H as [|? ? Heq _]. discriminate Heq.
Qed.

(** The row stored for the odd order passed the positivity checks, and the
    first item of the demonstration cart carries its product as subtotal. *)
Lemma order_item_subtotals_market :
  (forall row,
      In row (order_items (db (snd (createOrder odd_order
                                      (world_of market (Some customer1)))))) ->
      0 < OrderItem.subtotal row)
  /\ ItemData.subtotal (ItemData.mk listingA 2%float 100%float 200%float)
     = (100 * 2)%float.
Proof.
  destruct (order_item_subtotals odd_order (world_of market (Some customer1))
              (fresh_ui demo_cart)) as [Hstore Hcart].
  split.
  - intros row Hin. destruct (Hstore row Hin) as [Hold | (Hs & _)].
    + destruct Hold.
    + exact Hs.
  - apply (Hcart group1).
    + vm_compute. left. reflexivity.
    + left. reflexivity.
Defined.

(** farmer1 reads the withdrawn listing D back; customer1 and farmer2 do
    not get it, and get no error. *)
Lemma inactive_listing_visibility_market :
  (exists rows,
      getFarmerListings (world_of market_with_withdrawn (Some farmer1))
      = (Normal (ok rows), world_of market_with_withdrawn (Some farmer1))
      /\ In withdrawn rows)
  /\ (exists rows,
        getFishListings (world_of market_with_withdrawn (Some customer1))
        = (Normal (ok rows), world_of market_with_withdrawn (Some customer1))
        /\ ~ In withdrawn (map Listed.listing rows))
  /\ (exists rows,
        getFarmerListings (world_of market_with_withdrawn (Some farmer2))
        = (Normal (ok rows), world_of market_with_withdrawn (Some farmer2))
        /\ ~ In withdrawn rows).
Proof.
  assert (Hin : In withdrawn (fish_listings market_with_withdrawn))
    by (simpl; auto).
  split; [| split].
  - destruct (inactive_listing_visibility
                (world_of market_with_withdrawn (Some farmer1)) withdrawn farmer1)
      as (_ & Hown & _); solve [exact Hin | reflexivity | apply Hown; reflexivity].
  - destruct (inactive_listing_visibility
                (world_of market_with_withdrawn (Some customer1)) withdrawn customer1)
      as (_ & _ & _ & Hcatalog); solve [exact Hin | reflexivity | exact Hcatalog].
  - destruct (inactive_listing_visibility
                (world_of market_with_withdrawn (Some farmer2)) withdrawn farmer2)
      as (_ & _ & Hother & _);
      solve [exact Hin | reflexivity | apply Hother; discriminate].
Defined.

(** Changing farmer1's phone and email changes nothing in the catalog
    customer1 gets, while customer1's read of farmer1's profile returns the
    row with its phone and email. *)
Lemma catalog_hides_contact_market :
  fst (getFishListings (world_of market (Some customer1)))
  = fst (getFishListings (world_of market_other_contact (Some customer1)))
  /\ fst (select_farmer farmer1 (world_of market (Some customer1)))
     = ok (farmer_row farmer1 "Ada" "0800000001" "ada@example.com" "FSH001AAA").
Proof.
  destruct (catalog_hides_contact (world_of market (Some customer1))
              (world_of market_other_contact (Some customer1)))
    as [Hcatalog Hprofile]; try reflexivity.
  split.
  - exact Hcatalog.
  - apply (Hprofile customer1
             (farmer_row farmer1 "Ada" "0800000001" "ada@example.com" "FSH001AAA"));
      reflexivity.
Defined.

Lemma signup_draws_in_range (n : nat) :
  (0 <= signup_draws n /\ signup_draws n < 1)%Q.
Proof.
  do 8 (destruct n as [|n]; [split; [discriminate | reflexivity] |]).
  split; [discriminate | reflexivity].
Defined.

(** farmer3 is inserted without a code: the first code drawn is farmer1's,
    the second is free, and the row is stored with it. *)
Lemma farmer_code_assigned_market :
  exists row w',
    insert_farmer 2 new_farmer signup_world = (Some (ok row), w')
    /\ Farmer.id row = farmer3
    /\ Farmer.unique_code row = "FSH007ZNB"
    /\ code_format (Farmer.unique_code row) = true
    /\ farmers (db w') = farmers market ++ [row]
    /\ forall f, In f (farmers market) -> Farmer.unique_code f <> Farmer.unique_code row.
Proof.
  destruct (farmer_code_assigned new_farmer signup_world (or_introl eq_refl)
              signup_draws_in_range) as [Hevery Hcreated].
  destruct (Hcreated 1%nat) as (j & row & Hj & Hid & Hcode & Hins).
  - reflexivity.
  - simpl. intros f [<- | [<- | []]]; split; discriminate.
  - simpl. intros f [<- | [<- | []]]; vm_compute; discriminate.
  - assert (Hfuel : (j < 2)%nat) by lia.
    destruct (Hins 2%nat Hfuel) as (w' & Hstored).
    destruct (Hevery 2%nat row w' Hstored) as (Hdb & Hformat & _ & Hfree & _).
    assert (Hone : j = 1%nat).
    { destruct j as [|[|j]]; [exfalso | reflexivity | lia].
      apply (Hfree (farmer_row farmer1 "Ada" "0800000001" "ada@example.com" "FSH001AAA"));
        [left; reflexivity |].
      rewrite Hcode. vm_compute. reflexivity. }
    subst j. exists row, w'.
    split; [exact Hstored |].
    split; [exact Hid |].
    split; [rewrite Hcode; vm_compute; reflexivity |].
    split; [exact Hformat |].
    split; [rewrite Hdb; reflexivity | exact Hfree].
Defined.

(** Against C9 as stated: farmer2 asks to delete farmer1's listing A.  The
    request answers [{ data: null, error: null }]: no error of any kind is
    reported, and the listing is still there. *)
Lemma foreign_delete_reports_no_error :
  let outcome := deleteFishListing listingA (world_of market (Some farmer2)) in
  fst outcome = Normal (mkResponse None None)
  /\ fish_listings (db (snd outcome)) = fish_listings market.
Proof. vm_compute. split; reflexivity. Qed.

(** farmer2 cannot create under farmer1's id, nor update or delete
    listing A, whatever the request holds; a creation is answered by the
    row-level-security error and an update by the no-single-row error, also
    when the quantity sent is [NaN]. *)
Lemma foreign_listing_untouched_market :
  let w := world_of market (Some farmer2) in
  (forall listingData, db (snd (insert_fish_listing farmer1 listingData w)) = market)
  /\ fst (insert_fish_listing farmer1 tilapia_offer w)
     = failed (insufficient_privilege "fish_listings")
  /\ fst (insert_fish_listing farmer1 nan_offer w)
     = failed (insufficient_privilege "fish_listings")
  /\ (forall updates, db (snd (updateFishListing listingA updates w)) = market)
  /\ fst (updateFishListing listingA price_change w) = Normal (failed no_single_row)
  /\ fst (updateFishListing listingA nan_quantity w) = Normal (failed no_single_row)
  /\ deleteFishListing listingA w = (Normal (mkResponse None None), w).
Proof.
  intros w.
  destruct (foreign_listing_untouched w listingA_row farmer2) as (Hcreate & Hupdate & Hdelete).
  - reflexivity.
  - simpl. auto.
  - discriminate.
  - simpl. repeat constructor; simpl; intuition discriminate.
  - split; [intros listingData; apply (Hcreate listingData) |].
    split; [apply (Hcreate tilapia_offer); reflexivity |].
    split; [apply (Hcreate nan_offer); reflexivity |].
    split; [intros updates; apply (Hupdate updates) |].
    split; [apply (Hupdate price_change); reflexivity |].
    split; [apply (Hupdate nan_quantity); reflexivity | exact Hdelete].
Defined.

(** With nobody signed in the three requests throw; with farmer1 signed in
    a valid listing is written under farmer1's id. *)
Lemma requests_act_for_the_user_market :
  let listingData := ListingData.mk tilapia 12%float 45%float "pond tilapia" in
  (createFishListing listingData (world_of market None)
   = (Throw (Error "User not authenticated"), world_of market None)
   /\ getFarmerListings (world_of market None)
      = (Throw (Error "User not authenticated"), world_of market None)
   /\ createOrder odd_order (world_of market None)
      = (Throw (Error "User not authenticated"), world_of market None))
  /\ exists row w',
       createFishListing listingData (world_of market (Some farmer1)) = (Normal (ok row), w')
       /\ FishListing.farmer_id row = farmer1
       /\ In row (fish_listings (db w')).
Proof.
  intros listingData. split.
  - exact (requests_act_for_the_user listingData odd_order (world_of market None)).
  - destruct (requests_act_for_the_user listingData odd_order
                (world_of market (Some farmer1))) as (_ & Hwritten & _).
    apply (Hwritten 12 4500); vm_compute; reflexivity.
Defined.

(* ================================================================== *)
(** ** The cart *)

Lemma find_id_none (cart : list CartItem.t) (id : uuid) :
  find (fun item => uuid_eqb (CartItem.id item) id) cart = None
  <-> ~ In id (map CartItem.id cart).
Proof.
  induction cart as [|x rest IH]; simpl; [split; auto |].
  destruct (uuid_eqb (CartItem.id x) id) eqn:E.
  - apply uuid_eqb_eq in E. split; [discriminate | intros H; exfalso; apply H; auto].
  - apply uuid_eqb_neq in E. rewrite IH. split.
    + intros H [H1 | H1]; [contradiction | auto].
    + intros H H1. apply H. auto.
Qed.

Lemma requantified_ids (cart : list CartItem.t) (id : uuid) (f : CartItem.t -> number) :
  map CartItem.id
      (map (fun item => if uuid_eqb (CartItem.id item) id
                        then with_orderQuantity item (f item) else item) cart)
  = map CartItem.id cart.
Proof.
  rewrite map_map. apply map_ext. intros item.
  destruct (uuid_eqb (CartItem.id item) id); reflexivity.
Qed.

Lemma requantified_absent (cart : list CartItem.t) (id : uuid) (f : CartItem.t -> number) :
  ~ In id (map CartItem.id cart) ->
  map (fun item => if uuid_eqb (CartItem.id item) id
                   then with_orderQuantity item (f item) else item) cart
  = cart.
Proof.
  induction cart as [|x rest IH]; simpl; intros H; [reflexivity |].
  destruct (uuid_eqb (CartItem.id x) id) eqn:E.
  - apply uuid_eqb_eq in E. exfalso. apply H. auto.
  - rewrite IH; [reflexivity | intros H1; apply H; auto].
Qed.

Lemma removeFromCart_absent (cart : list CartItem.t) (id : uuid) :
  ~ In id (map CartItem.id cart) -> removeFromCart cart id = cart.
Proof.
  intros H. unfold removeFromCart. apply filter_all. intros item Hin.
  apply negb_true_iff. apply uuid_eqb_neq. intros E. apply H. rewrite <- E.
  apply in_map. exact Hin.
Qed.

Lemma removeFromCart_distinct (cart : list CartItem.t) (id : uuid) :
  NoDup (map CartItem.id cart) -> NoDup (map CartItem.id (removeFromCart cart id)).
Proof.
  unfold removeFromCart. induction cart as [|x rest IH]; simpl; intros H; [constructor |].
  inversion H as [|? ? Hnotin Hrest]; subst.
  destruct (negb (uuid_eqb (CartItem.id x) id)); simpl; [| auto].
  constructor; [| auto]. intros Hin. apply Hnotin.
  apply in_map_iff in Hin. destruct Hin as (y & Hy & Hin).
  apply filter_In in Hin. rewrite <- Hy. apply in_map. apply Hin.
Qed.

Lemma removeFromCart_no_line (cart : list CartItem.t) (id : uuid) :
  ~ In id (map CartItem.id (removeFromCart cart id)).
Proof.
  intros Hin. apply in_map_iff in Hin. destruct Hin as (item & Hid & Hin).
  apply filter_In in Hin. destruct Hin as [_ Hneq].
  rewrite Hid, uuid_eqb_refl in Hneq. discriminate.
Qed.

Lemma find_after {A : Type} (p : A -> bool) (l : list A) (x : A) :
  find p l = None -> find p (l ++ [x]) = find p [x].
Proof.
  induction l as [|y rest IH]; simpl; [reflexivity |].
  destruct (p y); [discriminate | exact IH].
Qed.

Lemma act_keeps_ids_distinct (cart : list CartItem.t) (a : CartAction) :
  NoDup (map CartItem.id cart) -> NoDup (map CartItem.id (act cart a)).
Proof.
  intros H. destruct a as [listing quantity | id | id quantity]; simpl.
  - unfold addToCart.
    destruct (find _ cart) eqn:F.
    + rewrite (requantified_ids cart (JsListing.id listing)
                 (fun item => (CartItem.orderQuantity item + quantity)%float)).
      exact H.
    + apply find_id_none in F. rewrite map_app. simpl.
      apply NoDup_app; [exact H | repeat constructor; intros [] |].
      intros x Hx [<- | []]. contradiction.
  - apply removeFromCart_distinct. exact H.
  - unfold updateCartQuantity. destruct (quantity <=? 0)%float.
    + apply removeFromCart_distinct. exact H.
    + rewrite (requantified_ids cart id (fun _ => quantity)). exact H.
Qed.

(** X1. Whatever the customer does with the add, remove and quantity
    buttons, starting from the empty cart, no two lines of the cart are for
    the same listing. *)
Theorem cart_lines_are_distinct (actions : list CartAction) :
  NoDup (map CartItem.id (fold_left act actions [])).
Proof.
  assert (H : forall cart, NoDup (map CartItem.id cart) ->
                           NoDup (map CartItem.id (fold_left act actions cart))).
  { induction actions as [|a rest IH]; intros cart Hc; simpl; [exact Hc |].
    apply IH. apply act_keeps_ids_distinct. exact Hc. }
  apply H. constructor.
Qed.

(** X2. Adding a listing that is not in the cart and then adding it again
    gives one line for it, at the end of the cart, whose quantity is the sum
    of the two quantities; the listing's available quantity plays no part. *)
Theorem addToCart_adds_up (cart : list CartItem.t) (listing : JsListing.t)
    (q1 q2 : number) :
  ~ In (JsListing.id listing) (map CartItem.id cart) ->
  addToCart (addToCart cart listing q1) listing q2
  = cart ++ [in_cart listing (q1 + q2)%float].
Proof.
  intros H. unfold addToCart at 2.
  rewrite (proj2 (find_id_none cart (JsListing.id listing)) H).
  unfold addToCart.
  rewrite find_after by (apply find_id_none; exact H). simpl.
  rewrite uuid_eqb_refl. rewrite map_app. simpl. rewrite uuid_eqb_refl.
  rewrite (requantified_absent cart (JsListing.id listing)
             (fun item => (CartItem.orderQuantity item + q2)%float) H).
  reflexivity.
Qed.

(** X3. Removing a listing leaves no line for it, and undoes the adding of
    a listing that was not in the cart. *)
Theorem removeFromCart_removes (cart : list CartItem.t) (listing : JsListing.t)
    (quantity : number) (id : uuid) :
  ~ In id (map CartItem.id (removeFromCart cart id))
  /\ (~ In (JsListing.id listing) (map CartItem.id cart) ->
      removeFromCart (addToCart cart listing quantity) (JsListing.id listing) = cart).
Proof.
  split.
  - apply removeFromCart_no_line.
  - intros H. unfold addToCart.
    rewrite (proj2 (find_id_none cart (JsListing.id listing)) H).
    unfold removeFromCart. rewrite filter_app. simpl. rewrite uuid_eqb_refl. simpl.
    rewrite app_nil_r. apply removeFromCart_absent. exact H.
Qed.

(** X4. After [updateCartQuantity] for a listing, a line of that listing
    that is still in the cart carries the new quantity, and that quantity is
    not [<= 0]: a quantity of zero or less removes the line instead.  The
    listings in the cart are among those that were there. *)
Theorem updateCartQuantity_sets (cart : list CartItem.t) (id : uuid) (quantity : number) :
  (forall item,
      In item (updateCartQuantity cart id quantity) ->
      CartItem.id item = id ->
      CartItem.orderQuantity item = quantity /\ (quantity <=? 0)%float = false)
  /\ incl (map CartItem.id (updateCartQuantity cart id quantity)) (map CartItem.id cart).
Proof.
  unfold updateCartQuantity. destruct (quantity <=? 0)%float eqn:E; split.
  - intros item Hin Hid. exfalso.
    subst id. apply (removeFromCart_no_line cart (CartItem.id item)).
    apply in_map. exact Hin.
  - intros x Hx. apply in_map_iff in Hx. destruct Hx as (item & <- & Hin).
    apply filter_In in Hin. apply in_map. apply Hin.
  - intros item Hin Hid. apply in_map_iff in Hin. destruct Hin as (old & Hold & _).
    destruct (uuid_eqb (CartItem.id old) id) eqn:Eid.
    + subst item. split; reflexivity.
    + subst item. apply uuid_eqb_neq in Eid. contradiction.
  - rewrite (requantified_ids cart id (fun _ => quantity)). apply incl_refl.
Qed.

Lemma lines_of_other (k : uuid) (x : CartItem.t) (rest : list CartItem.t) :
  CartItem.farmer_id x <> k -> lines_of k (x :: rest) = lines_of k rest.
Proof.
  intros H. unfold lines_of. simpl.
  apply uuid_eqb_neq in H. rewrite H. reflexivity.
Qed.

Lemma lines_of_same (x : CartItem.t) (rest : list CartItem.t) :
  lines_of (CartItem.farmer_id x) (x :: rest) = x :: lines_of (CartItem.farmer_id x) rest.
Proof. unfold lines_of. simpl. rewrite uuid_eqb_refl. reflexivity. Qed.

Lemma lines_of_others (x : CartItem.t) (rest : list CartItem.t) (ks : list uuid) :
  ~ In (CartItem.farmer_id x) ks ->
  map (fun k => lines_of k (x :: rest)) ks = map (fun k => lines_of k rest) ks.
Proof.
  intros H. apply map_ext_in. intros k Hk. apply lines_of_other.
  intros E. apply H. rewrite E. exact Hk.
Qed.

Lemma lines_partition (cart : list CartItem.t) :
  forall ks : list uuid,
    NoDup ks ->
    (forall x, In x cart -> In (CartItem.farmer_id x) ks) ->
    Permutation (List.concat (map (fun k => lines_of k cart) ks)) cart.
Proof.
  induction cart as [|x rest IH]; intros ks Hnd Hall.
  - assert (E : List.concat (map (fun k => lines_of k []) ks) = [])
      by (clear; unfold lines_of; induction ks; simpl; auto).
    rewrite E. constructor.
  - destruct (in_split _ _ (Hall x (or_introl eq_refl))) as (ks1 & ks2 & Hks).
    subst ks. apply NoDup_remove in Hnd as Hnd'. destruct Hnd' as [_ Hnotin].
    rewrite map_app, concat_app, map_cons, concat_cons.
    rewrite (lines_of_others x rest ks1) by (intros H; apply Hnotin; apply in_or_app; auto).
    rewrite (lines_of_others x rest ks2) by (intros H; apply Hnotin; apply in_or_app; auto).
    rewrite lines_of_same. simpl.
    apply Permutation_sym. apply Permutation_cons_app. apply Permutation_sym.
    specialize (IH (ks1 ++ CartItem.farmer_id x :: ks2) Hnd
                   (fun y Hy => Hall y (or_intror Hy))).
    rewrite map_app, concat_app in IH. simpl in IH. exact IH.
Qed.

(** X5. Grouping loses and repeats nothing: the items of all the groups,
    taken together, are the lines of the cart, one item per line. *)
Theorem grouping_keeps_every_line (cart : list CartItem.t) :
  Permutation (List.concat (map Group.items (values (group_by_farmer cart))))
              (map line_of cart).
Proof.
  destruct (group_by_farmer_grouped cart) as (Hnd & Hkeys & Hgroups).
  assert (E : map Group.items (values (group_by_farmer cart))
              = map (fun k => map line_of (lines_of k cart))
                    (map fst (group_by_farmer cart))).
  { unfold values. rewrite !map_map. apply map_ext_in. intros [f g] Hin. simpl.
    apply (Hgroups f g Hin). }
  rewrite E, <- (map_map (fun k => lines_of k cart) (map line_of)), <- concat_map.
  apply Permutation_map. apply lines_partition; [exact Hnd |].
  intros x Hx. apply Hkeys. apply in_map. exact Hx.
Qed.

(* ================================================================== *)
(** ** The two listing reads *)

Lemma insert_desc_sorted {A : Type} (key : A -> timestamp) (x : A) (l : list A) :
  StronglySorted (fun a b => key b <= key a) l ->
  StronglySorted (fun a b => key b <= key a) (insert_desc key x l).
Proof.
  induction l as [|y rest IH]; simpl; intros Hs.
  - repeat constructor.
  - inversion Hs as [|? ? Hrest Hall]; subst.
    destruct (key y <? key x) eqn:E.
    + apply Z.ltb_lt in E. constructor; [exact Hs |].
      constructor; [lia |].
      eapply Forall_impl; [| exact Hall]. simpl. intros z Hz. lia.
    + apply Z.ltb_ge in E. constructor; [apply IH; exact Hrest |].
      apply Forall_forall. intros z Hz. apply insert_desc_In in Hz.
      destruct Hz as [-> | Hz]; [exact E |].
      rewrite Forall_forall in Hall. apply Hall. exact Hz.
Qed.

Lemma order_desc_sorted {A : Type} (key : A -> timestamp) (l : list A) :
  StronglySorted (fun a b => key b <= key a) (order_desc key l).
Proof.
  unfold order_desc. induction l as [|x rest IH]; simpl; [constructor |].
  apply insert_desc_sorted. exact IH.
Qed.

Lemma insert_desc_perm {A : Type} (key : A -> timestamp) (x : A) (l : list A) :
  Permutation (insert_desc key x l) (x :: l).
Proof.
  induction l as [|y rest IH]; simpl; [apply Permutation_refl |].
  destruct (key y <? key x); [apply Permutation_refl |].
  eapply Permutation_trans; [apply perm_skip; exact IH | apply perm_swap].
Qed.

Lemma order_desc_perm {A : Type} (key : A -> timestamp) (l : list A) :
  Permutation (order_desc key l) l.
Proof.
  unfold order_desc. induction l as [|x rest IH]; simpl; [constructor |].
  eapply Permutation_trans; [apply insert_desc_perm | apply perm_skip; exact IH].
Qed.

Lemma filter_filter_ext {A : Type} (p q r : A -> bool) (l : list A) :
  (forall x, q x && p x = r x) -> filter q (filter p l) = filter r l.
Proof.
  intros H. induction l as [|x rest IH]; simpl; [reflexivity |].
  rewrite <- (H x). destruct (p x); simpl.
  - rewrite andb_true_r. destruct (q x); rewrite IH; reflexivity.
  - rewrite andb_false_r. exact IH.
Qed.

(** X6. The catalog read never fails and changes nothing.  Its rows are in
    the order newest first and every one of them is an active listing; a
    signed-in reader gets every active listing of the table exactly once,
    and a visitor who is not signed in gets none. *)
Theorem catalog_is_newest_first (w : World) :
  exists rows,
    getFishListings w = (Normal (ok rows), w)
    /\ StronglySorted newest_first (map Listed.listing rows)
    /\ (forall r, In r rows -> FishListing.is_active (Listed.listing r) = true)
    /\ match session w with
       | Some _ =>
           Permutation (map Listed.listing rows)
                       (filter FishListing.is_active (fish_listings (db w)))
       | None => rows = []
       end.
Proof.
  unfold getFishListings. eexists. split; [reflexivity |].
  rewrite map_map. simpl. rewrite map_id.
  split; [apply order_desc_sorted | split].
  - intros r Hr. apply in_map_iff in Hr. destruct Hr as (l & <- & Hl). simpl.
    apply order_desc_In in Hl. apply filter_In in Hl. destruct Hl as [_ Hl].
    destruct (FishListing.is_active l); [reflexivity | discriminate].
  - destruct (session w) as [reader|].
    + eapply Permutation_trans; [apply order_desc_perm |].
      rewrite (filter_filter_ext _ _ FishListing.is_active); [apply Permutation_refl |].
      intros l. unfold permitted. simpl.
      destruct (FishListing.is_active l); reflexivity.
    + rewrite (filter_none (permitted fish_listings_policies SELECT None (db w)))
        by reflexivity.
      reflexivity.
Qed.

(** X7. A signed-in farmer's own read returns the farmer's listings, the
    inactive ones too, each exactly once and newest first, and nothing of
    anybody else. *)
Theorem own_listings_are_all_returned (w : World) (farmer : uuid) :
  session w = Some farmer ->
  exists rows,
    getFarmerListings w = (Normal (ok rows), w)
    /\ StronglySorted newest_first rows
    /\ Permutation rows
         (filter (fun l => uuid_eqb (FishListing.farmer_id l) farmer)
                 (fish_listings (db w))).
Proof.
  intros Hu. rewrite (getFarmerListings_as w farmer Hu).
  eexists. split; [reflexivity |]. split; [apply order_desc_sorted |].
  eapply Permutation_trans; [apply order_desc_perm |].
  rewrite (filter_filter_ext _ _ (fun l => uuid_eqb (FishListing.farmer_id l) farmer));
    [apply Permutation_refl |].
  intros l. unfold permitted. simpl.
  destruct (uuid_eqb (FishListing.farmer_id l) farmer); simpl;
    rewrite ?orb_true_r, ?andb_false_l; reflexivity.
Qed.

(* ================================================================== *)
(** ** Listings: create, update, delete *)

Section MoreProperties.

Context {server : Server}.

Lemma first_violation_cons (c : option PgError) (rest : list (option PgError)) :
  first_violation (c :: rest) = None <-> c = None /\ first_violation rest = None.
Proof.
  destruct c; simpl; split.
  - discriminate.
  - intros [H _]. discriminate H.
  - auto.
  - intros [_ H]. exact H.
Qed.

Lemma insert_fish_listing_ok (farmer : uuid) (l : ListingData.t) (w w' : World)
    (row : FishListing.t) :
  insert_fish_listing farmer l w = (ok row, w') ->
  (exists quantity price,
      fish_listings_violation (set_uuid_calls w (S (uuid_calls w))) quantity price row
      = None)
  /\ FishListing.id row = uuid_src w (uuid_calls w)
  /\ FishListing.farmer_id row = farmer
  /\ FishListing.is_active row = true
  /\ FishListing.created_at row = now w
  /\ session w' = session w
  /\ db w' = with_fish_listings (db w) (fish_listings (db w) ++ [row]).
Proof.
  unfold insert_fish_listing.
  destruct (read_number to_integer _) as [q|]; [| intros H; discriminate H].
  destruct (read_number to_decimal _) as [p|]; [| intros H; discriminate H].
  unfold gen_random_uuid.
  match goal with |- context [fish_listings_violation ?w1 ?q ?p ?r] =>
    destruct (fish_listings_violation w1 q p r) as [e|] eqn:Hv end;
    intros H; [discriminate H |].
  injection H as <- <-. simpl. repeat split. exists q, p. exact Hv.
Qed.

Lemma has_farmer_find (d : Database) (id : uuid) :
  has_farmer d id = true ->
  exists f, find (fun f => uuid_eqb (Farmer.id f) id) (farmers d) = Some f
            /\ In f (farmers d) /\ Farmer.id f = id.
Proof.
  unfold has_farmer. induction (farmers d) as [|f rest IH]; simpl; [discriminate |].
  destruct (uuid_eqb (Farmer.id f) id) eqn:E.
  - intros _. exists f. apply uuid_eqb_eq in E. auto.
  - simpl. intros H. destruct (IH H) as (f' & Hfind & Hin & Hid). exists f'. auto.
Qed.

(** X8. A listing that [createFishListing] has written is in the catalog of
    every signed-in reader from then on, as an active listing of the
    signed-in farmer, and with a farmer attached: the public columns of a
    farmer row whose id is the listing's [farmer_id]. *)
Theorem created_listing_is_listed (listingData : ListingData.t) (w w' : World)
    (row : FishListing.t) (reader : uuid) :
  createFishListing listingData w = (Normal (ok row), w') ->
  session w = Some (FishListing.farmer_id row)
  /\ exists rows listed f,
       getFishListings (as_user w' (Some reader))
       = (Normal (ok rows), as_user w' (Some reader))
       /\ In listed rows
       /\ Listed.listing listed = row
       /\ In f (farmers (db w'))
       /\ Farmer.id f = FishListing.farmer_id row
       /\ Listed.farmer listed = Some (farmer_info f).
Proof.
  unfold createFishListing, bind, getUser, request.
  destruct (session w) as [user|] eqn:Hu; [| intros H; discriminate H].
  destruct (insert_fish_listing user listingData w) as [r w1] eqn:Hins.
  intros H. injection H as -> ->.
  apply insert_fish_listing_ok in Hins.
  destruct Hins as ((quantity & price & Hv) & _ & Hfarmer & Hactive & _ & _ & Hd).
  split; [congruence |].
  unfold fish_listings_violation in Hv.
  repeat (apply first_violation_cons in Hv; destruct Hv as [? Hv]).
  match goal with H : require (has_farmer _ _) _ = None |- _ =>
    apply require_none in H; simpl in H; rename H into Hfk end.
  destruct (has_farmer_find _ _ Hfk) as (f & Hfind & Hin & Hid).
  unfold getFishListings. simpl. rewrite Hd. simpl.
  eexists. exists (Listed.mk row (Some (farmer_info f))), f.
  split; [reflexivity |].
  split; [| repeat split; auto].
  apply in_map_iff. exists row. split.
  - unfold embed_farmer. simpl. rewrite Hd. simpl.
    rewrite filter_all by (intros; apply farmer_readable).
    rewrite Hfind. reflexivity.
  - apply order_desc_In. apply filter_In. split.
    + apply filter_In. split; [apply in_or_app; right; left; reflexivity |].
      unfold permitted. simpl. rewrite Hactive. reflexivity.
    + rewrite Hactive. reflexivity.
Qed.

Lemma reached_own (c : command) (w : World) (farmer id : uuid) (l : FishListing.t) :
  c = UPDATE \/ c = DELETE ->
  session w = Some farmer ->
  reached c w id l
  = uuid_eqb (FishListing.id l) id && uuid_eqb (FishListing.farmer_id l) farmer.
Proof.
  intros Hc Hu. unfold reached. rewrite Hu. unfold permitted. simpl.
  destruct Hc as [-> | ->]; simpl;
    destruct (uuid_eqb (FishListing.id l) id),
             (uuid_eqb (FishListing.farmer_id l) farmer),
             (FishListing.is_active l); reflexivity.
Qed.

(** X9. [updateFishListing], called by a signed-in farmer, changes listings
    of that farmer only: every listing of another farmer is in the table
    afterwards as it was, no row is added or removed, and the other tables
    are untouched.  When it answers with a row, that row is in the table,
    replaces a listing of this farmer with the id asked for, still belongs
    to this farmer (a listing cannot be handed to another farmer), has a
    positive quantity and price, and has [updated_at] set to the time of the
    request whatever the caller sent.  When it answers with an error,
    nothing has changed. *)
Theorem update_changes_own_listing_only (id : uuid) (updates : ListingUpdates.t)
    (w : World) (farmer : uuid) :
  session w = Some farmer ->
  let before := db w in
  let after := db (snd (updateFishListing id updates w)) in
  (forall l, In l (fish_listings before) -> FishListing.farmer_id l <> farmer ->
             In l (fish_listings after))
  /\ List.length (fish_listings after) = List.length (fish_listings before)
  /\ farmers after = farmers before
  /\ customers after = customers before
  /\ orders after = orders before
  /\ order_items after = order_items before
  /\ (forall row,
        fst (updateFishListing id updates w) = Normal (ok row) ->
        In row (fish_listings after)
        /\ FishListing.farmer_id row = farmer
        /\ 0 < FishListing.quantity row
        /\ 0 < FishListing.price_per_unit row
        /\ FishListing.updated_at row = now w
        /\ exists old, In old (fish_listings before)
                       /\ FishListing.id old = id
                       /\ FishListing.farmer_id old = farmer)
  /\ (forall e, fst (updateFishListing id updates w) = Normal (failed e) -> after = before).
Proof.
  intros Hu before after. subst before after.
  unfold updateFishListing, request, update_fish_listing.
  destruct (read_optional to_integer _) as [q|];
    [| simpl; repeat split; auto; try (intros; discriminate)].
  destruct (read_optional to_decimal _) as [p|];
    [| simpl; repeat split; auto; try (intros; discriminate)].
  destruct (first_violation _) as [e|] eqn:Hv;
    [simpl; repeat split; auto; try (intros; discriminate) |].
  destruct (filter (reached UPDATE w id) (fish_listings (db w))) as [|r [|r' more]] eqn:Hhit;
    [simpl; repeat split; auto; try (intros; discriminate) | |
     simpl; repeat split; auto; try (intros; discriminate)].
  assert (Hr : In r (fish_listings (db w)) /\ reached UPDATE w id r = true).
  { apply filter_In. rewrite Hhit. left. reflexivity. }
  destruct Hr as [Hin Hreached].
  simpl.
  split; [| split; [apply length_map | do 4 (split; [reflexivity |]); split]].
  - intros l Hl Hother. apply in_map_iff. exists l. split; [| exact Hl].
    rewrite (reached_own UPDATE w farmer id l) by auto.
    apply uuid_eqb_neq in Hother. rewrite Hother, andb_false_r. reflexivity.
  - intros row H. injection H as <-.
    cbn [map first_violation] in Hv.
    match type of Hv with context [revised_violation ?a ?b ?c ?d ?e ?f] =>
      destruct (revised_violation a b c d e f) eqn:Hrv; [discriminate Hv |] end.
    clear Hv. unfold revised_violation in Hrv.
    repeat (apply first_violation_cons in Hrv; destruct Hrv as [? Hrv]).
    repeat match goal with H : require _ _ = None |- _ =>
             apply require_none in H end.
    rewrite (reached_own UPDATE w farmer id r) in Hreached by auto.
    apply andb_true_iff in Hreached. destruct Hreached as [Hid Hown].
    apply uuid_eqb_eq in Hid, Hown.
    split; [| split; [| split; [| split; [| split]]]].
    + apply in_map_iff. exists r. split; [| exact Hin].
      rewrite (reached_own UPDATE w farmer id r) by auto.
      rewrite Hid, Hown, !uuid_eqb_refl. reflexivity.
    + match goal with H : permitted _ UPDATE _ _ _ = true |- _ =>
        rewrite Hu in H; unfold permitted in H; simpl in H;
        rewrite orb_false_r in H; apply uuid_eqb_eq in H; exact H end.
    + match goal with H : (0 <? FishListing.quantity _) = true |- _ =>
        apply Z.ltb_lt in H; exact H end.
    + match goal with H : (0 <? FishListing.price_per_unit _) = true |- _ =>
        apply Z.ltb_lt in H; exact H end.
    + reflexivity.
    + exists r. auto.
  - intros e H. discriminate H.
Qed.

(** X10. [deleteFishListing], called by a signed-in farmer, never reports
    an error.  It removes exactly the listings with the given id that belong
    to that farmer, and with them the order items that refer to such a
    listing; every other listing and order item stays, and the orders, the
    farmers and the customers are untouched. *)
Theorem delete_removes_own_listing_only (id : uuid) (w : World) (farmer : uuid) :
  session w = Some farmer ->
  let before := db w in
  let after := db (snd (deleteFishListing id w)) in
  fst (deleteFishListing id w) = Normal (mkResponse None None)
  /\ (forall l, In l (fish_listings after)
                <-> In l (fish_listings before)
                    /\ ~ (FishListing.id l = id /\ FishListing.farmer_id l = farmer))
  /\ (forall x, In x (order_items after)
                <-> In x (order_items before)
                    /\ ~ (OrderItem.fish_listing_id x = id
                          /\ exists l, In l (fish_listings before)
                                       /\ FishListing.id l = id
                                       /\ FishListing.farmer_id l = farmer))
  /\ orders after = orders before
  /\ farmers after = farmers before
  /\ customers after = customers before.
Proof.
  intros Hu before after. subst before after.
  unfold deleteFishListing, request, delete_fish_listing. simpl.
  split; [reflexivity | split; [| split; [| repeat split]]].
  - intros l. rewrite filter_In, (reached_own DELETE w farmer id l) by auto.
    rewrite negb_true_iff. split; intros [Hin H]; (split; [exact Hin |]).
    + intros [Hid Hown]. rewrite Hid, Hown, !uuid_eqb_refl in H. discriminate H.
    + destruct (uuid_eqb (FishListing.id l) id) eqn:E1; [| reflexivity].
      destruct (uuid_eqb (FishListing.farmer_id l) farmer) eqn:E2; [| reflexivity].
      exfalso. apply H. split; apply uuid_eqb_eq; assumption.
  - intros x. rewrite filter_In, negb_true_iff. split.
    + intros [Hin Hnone]. split; [exact Hin |]. intros [Hid (l & Hl & Hlid & Hown)].
      assert (Hex : existsb (fun r => uuid_eqb (FishListing.id r) (OrderItem.fish_listing_id x))
                            (filter (reached DELETE w id) (fish_listings (db w))) = true).
      { apply existsb_exists. exists l. split.
        - apply filter_In. split; [exact Hl |].
          rewrite (reached_own DELETE w farmer id l) by auto.
          rewrite Hlid, Hown, !uuid_eqb_refl. reflexivity.
        - rewrite Hlid, Hid. apply uuid_eqb_refl. }
      congruence.
    + intros [Hin Hnot]. split; [exact Hin |].
      destruct (existsb _ _) eqn:Hex; [| reflexivity].
      exfalso. apply Hnot. apply existsb_exists in Hex.
      destruct Hex as (l & Hl & Hsame). apply filter_In in Hl. destruct Hl as [Hl Hreached].
      rewrite (reached_own DELETE w farmer id l) in Hreached by auto.
      apply andb_true_iff in Hreached. destruct Hreached as [Hid Hown].
      apply uuid_eqb_eq in Hid, Hown, Hsame.
      split; [congruence |]. exists l. auto.
Qed.

(* ================================================================== *)
(** ** The constraints of the schema as an invariant *)

Lemma no_row_with_id {A : Type} (f : A -> uuid) (l : list A) (i : uuid) :
  existsb (fun x => uuid_eqb (f x) i) l = false -> ~ In i (map f l).
Proof.
  intros H Hin. apply in_map_iff in Hin. destruct Hin as (x & Hx & Hin).
  assert (E : existsb (fun x => uuid_eqb (f x) i) l = true).
  { apply existsb_exists. exists x. split; [exact Hin | rewrite Hx; apply uuid_eqb_refl]. }
  congruence.
Qed.

Lemma NoDup_map_snoc {A : Type} (f : A -> uuid) (l : list A) (x : A) :
  NoDup (map f l) -> ~ In (f x) (map f l) -> NoDup (map f (l ++ [x])).
Proof.
  intros Hnd Hnew. rewrite map_app. simpl.
  apply NoDup_app; [exact Hnd | repeat constructor; intros [] |].
  intros y Hy [<- | []]. contradiction.
Qed.

Lemma NoDup_map_filter {A : Type} (f : A -> uuid) (p : A -> bool) (l : list A) :
  NoDup (map f l) -> NoDup (map f (filter p l)).
Proof.
  induction l as [|x rest IH]; simpl; intros H; [constructor |].
  inversion H as [|? ? Hnotin Hrest]; subst.
  destruct (p x); simpl; [| auto].
  constructor; [| auto]. intros Hin. apply Hnotin.
  apply in_map_iff in Hin. destruct Hin as (y & Hy & Hin).
  apply filter_In in Hin. rewrite <- Hy. apply in_map. apply Hin.
Qed.

Lemma existsb_more {A : Type} (p : A -> bool) (l more : list A) :
  existsb p l = true -> existsb p (l ++ more) = true.
Proof. intros H. rewrite existsb_app, H. reflexivity. Qed.

Lemma insert_order_sound (customer farmer : uuid) (code : string) (total : number)
    (w : World) :
  sound (db w) -> sound (db (snd (insert_order customer farmer code total w))).
Proof.
  intros Hs. unfold insert_order.
  destruct (to_decimal total) as [t|]; [| exact Hs].
  unfold gen_random_uuid.
  match goal with |- context [orders_violation ?w1 ?r] =>
    destruct (orders_violation w1 r) as [e|] eqn:Hv end; [exact Hs |].
  unfold orders_violation in Hv.
  repeat (apply first_violation_cons in Hv; destruct Hv as [? Hv]).
  repeat match goal with H : require _ _ = None |- _ => apply require_none in H end.
  simpl in *.
  destruct Hs as (Hl & Ho & Hi & Hfl & Hfo & Hfi).
  repeat split; try assumption.
  - apply NoDup_map_snoc; [exact Ho |]. simpl. apply no_row_with_id.
    match goal with H : negb (has_order _ _) = true |- _ =>
      apply negb_true_iff in H; exact H end.
  - apply Forall_app. split; [exact Hfo |]. constructor; [| constructor]. simpl.
    match goal with H : (0 <? t) = true |- _ => apply Z.ltb_lt in H end.
    repeat split; assumption.
  - eapply Forall_impl; [| exact Hfi]. simpl.
    intros x (Hxo & Hrest). split; [| exact Hrest].
    apply existsb_more. exact Hxo.
Qed.

Lemma insert_order_item_sound (x : NewItem.t) (w : World) :
  sound (db w) -> sound (db (snd (insert_order_item x w))).
Proof.
  intros Hs. unfold insert_order_item.
  destruct (to_integer _) as [q|]; [| exact Hs].
  destruct (to_decimal (ItemData.unit_price _)) as [p|]; [| exact Hs].
  destruct (to_decimal (ItemData.subtotal _)) as [s|]; [| exact Hs].
  unfold gen_random_uuid.
  match goal with |- context [order_items_violation ?w1 ?r] =>
    destruct (order_items_violation w1 r) as [e|] eqn:Hv end; [exact Hs |].
  unfold order_items_violation in Hv.
  repeat (apply first_violation_cons in Hv; destruct Hv as [? Hv]).
  repeat match goal with H : require _ _ = None |- _ => apply require_none in H end.
  simpl in *.
  destruct Hs as (Hl & Ho & Hi & Hfl & Hfo & Hfi).
  repeat split; try assumption.
  - apply NoDup_map_snoc; [exact Hi |]. simpl. apply no_row_with_id.
    match goal with H : negb (has_order_item _ _) = true |- _ =>
      apply negb_true_iff in H; exact H end.
  - apply Forall_app. split; [exact Hfi |]. constructor; [| constructor]. simpl.
    repeat match goal with H : (0 <? _) = true |- _ => apply Z.ltb_lt in H end.
    repeat split; assumption.
Qed.

Lemma insert_each_sound (xs : list NewItem.t) (w : World) :
  sound (db w) -> sound (db (snd (insert_each xs w))).
Proof.
  revert w. induction xs as [|x rest IH]; intros w Hs; simpl; [exact Hs |].
  pose proof (insert_order_item_sound x w Hs) as H1.
  destruct (insert_order_item x w) as [[e|] w1]; simpl in *; [exact H1 |].
  apply IH. exact H1.
Qed.

Lemma insert_order_items_sound (xs : list NewItem.t) (w : World) :
  sound (db w) -> sound (db (snd (insert_order_items xs w))).
Proof.
  intros Hs. unfold insert_order_items.
  pose proof (insert_each_sound xs w Hs) as H1.
  destruct (insert_each xs w) as [[e|] w1]; simpl in *; [exact Hs | exact H1].
Qed.

Lemma createOrder_sound (orderData : OrderData.t) (w : World) :
  sound (db w) -> sound (db (snd (createOrder orderData w))).
Proof.
  intros Hs. unfold createOrder, bind, getUser, throw, ret, request.
  destruct (session w) as [user|]; [| exact Hs].
  pose proof (insert_order_sound user (OrderData.farmer_id orderData)
                (OrderData.farmer_code orderData) (OrderData.total_amount orderData) w Hs)
    as H1.
  destruct (insert_order _ _ _ _ w) as [created w1]. simpl in H1.
  destruct (error created); [exact H1 |].
  destruct (data created) as [order|]; [| exact H1].
  match goal with |- context [insert_order_items ?xs w1] =>
    pose proof (insert_order_items_sound xs w1 H1) as H2;
    destruct (insert_order_items xs w1) as [written w2] end.
  simpl in H2. destruct (error written); exact H2.
Qed.

Lemma place_orders_sound (groups : list Group.t) (w : World) :
  sound (db w) -> sound (db (snd (place_orders groups w))).
Proof.
  revert w. induction groups as [|g rest IH]; intros w Hs; simpl; [exact Hs |].
  unfold bind. pose proof (createOrder_sound (order_data g) w Hs) as H1.
  destruct (createOrder (order_data g) w) as [[placed|e] w1]; simpl in *; [| exact H1].
  destruct (error placed); [exact H1 |]. apply IH. exact H1.
Qed.

(** X11. A checkout keeps the constraints of the schema, however it ends:
    if before it the primary keys are distinct, every foreign key of a
    listing, an order and an order item points at a row, and the checked
    columns are positive, the same holds of the tables it leaves, whether
    all groups were written, some, or none. *)
Theorem checkout_keeps_the_schema (ui : Dashboard) (w : World) :
  sound (db w) -> sound (db (snd (handleCheckout ui w))).
Proof.
  intros Hs. rewrite handleCheckout_world. apply place_orders_sound. exact Hs.
Qed.

Lemma createFishListing_sound (listingData : ListingData.t) (w : World) :
  sound (db w) -> sound (db (snd (createFishListing listingData w))).
Proof.
  intros Hs. unfold createFishListing, bind, getUser, throw, request.
  destruct (session w) as [user|]; [| exact Hs].
  unfold insert_fish_listing.
  destruct (read_number to_integer _) as [q|]; [| exact Hs].
  destruct (read_number to_decimal _) as [p|]; [| exact Hs].
  unfold gen_random_uuid.
  match goal with |- context [fish_listings_violation ?w1 ?q ?p ?r] =>
    destruct (fish_listings_violation w1 q p r) as [e|] eqn:Hv end; [exact Hs |].
  unfold fish_listings_violation in Hv.
  repeat (apply first_violation_cons in Hv; destruct Hv as [? Hv]).
  repeat match goal with H : require _ _ = None |- _ => apply require_none in H end.
  simpl in *.
  destruct Hs as (Hl & Ho & Hi & Hfl & Hfo & Hfi).
  repeat split; try assumption.
  - apply NoDup_map_snoc; [exact Hl |]. simpl. apply no_row_with_id.
    match goal with H : negb (has_listing _ _) = true |- _ =>
      apply negb_true_iff in H; exact H end.
  - apply Forall_app. split; [exact Hfl |]. constructor; [| constructor]. simpl.
    repeat match goal with H : (0 <? _) = true |- _ => apply Z.ltb_lt in H end.
    repeat split; assumption.
  - eapply Forall_impl; [| exact Hfi]. simpl.
    intros x (Hxo & Hxl & Hrest). split; [exact Hxo | split; [| exact Hrest]].
    apply existsb_more. exact Hxl.
Qed.

Lemma deleteFishListing_sound (id : uuid) (w : World) :
  sound (db w) -> sound (db (snd (deleteFishListing id w))).
Proof.
  intros (Hl & Ho & Hi & Hfl & Hfo & Hfi).
  unfold deleteFishListing, request, delete_fish_listing. simpl.
  repeat split; try assumption.
  - apply NoDup_map_filter. exact Hl.
  - apply NoDup_map_filter. exact Hi.
  - apply Forall_forall. intros l Hin. apply filter_In in Hin.
    rewrite Forall_forall in Hfl. apply (Hfl l). apply Hin.
  - apply Forall_forall. intros x Hin. apply filter_In in Hin. destruct Hin as [Hin Hkeep].
    rewrite Forall_forall in Hfi. destruct (Hfi x Hin) as (Hxo & Hxl & Hrest).
    split; [exact Hxo | split; [| exact Hrest]].
    unfold has_listing in *. simpl. apply existsb_exists in Hxl.
    destruct Hxl as (l & Hlin & Hlid). apply existsb_exists. exists l.
    split; [| exact Hlid]. apply filter_In. split; [exact Hlin |].
    destruct (reached DELETE w id l) eqn:Hreached; [| reflexivity].
    exfalso. apply negb_true_iff in Hkeep.
    assert (E : existsb (fun r => uuid_eqb (FishListing.id r) (OrderItem.fish_listing_id x))
                        (filter (reached DELETE w id) (fish_listings (db w))) = true).
    { apply existsb_exists. exists l. split; [| exact Hlid].
      apply filter_In. split; assumption. }
    congruence.
Qed.

Lemma revised_ids_distinct (reach : FishListing.t -> bool)
    (change : FishListing.t -> FishListing.t) (r : FishListing.t) :
  forall rows : list FishListing.t,
    NoDup (map FishListing.id rows) ->
    filter reach rows = [r] ->
    ~ In (FishListing.id (change r))
         (map FishListing.id (filter (fun l => negb (reach l)) rows)) ->
    NoDup (map FishListing.id (map (fun l => if reach l then change l else l) rows)).
Proof.
  induction rows as [|x rest IH]; simpl; intros Hnd Hhit Hnew; [discriminate Hhit |].
  inversion Hnd as [|? ? Hnotin Hrest]; subst.
  destruct (reach x) eqn:Hx; simpl in *.
  - injection Hhit as -> Hnone.
    assert (Hsame : map (fun l => if reach l then change l else l) rest = rest).
    { clear - Hnone. induction rest as [|y rest IH]; simpl in *; [reflexivity |].
      destruct (reach y); [discriminate Hnone |]. rewrite IH; auto. }
    assert (Hkept : filter (fun l => negb (reach l)) rest = rest).
    { clear - Hnone. induction rest as [|y rest IH]; simpl in *; [reflexivity |].
      destruct (reach y); [discriminate Hnone |]. simpl. rewrite IH; auto. }
    rewrite Hsame. rewrite Hkept in Hnew. constructor; assumption.
  - constructor.
    + intros Hin. apply in_map_iff in Hin. destruct Hin as (y' & Hy' & Hin).
      apply in_map_iff in Hin. destruct Hin as (y & <- & Hin).
      destruct (reach y) eqn:Hy.
      * assert (y = r).
        { assert (Hf : In y (filter reach rest)) by (apply filter_In; auto).
          rewrite Hhit in Hf. destruct Hf as [<- | []]. reflexivity. }
        subst y. apply Hnew. left. symmetry. exact Hy'.
      * apply Hnotin. rewrite <- Hy'. apply in_map. exact Hin.
    + apply IH; [exact Hrest | exact Hhit |]. intros Hin. apply Hnew. right. exact Hin.
Qed.

Lemma updateFishListing_sound (id : uuid) (updates : ListingUpdates.t) (w : World) :
  sound (db w) -> sound (db (snd (updateFishListing id updates w))).
Proof.
  intros Hs. unfold updateFishListing, request, update_fish_listing.
  destruct (read_optional to_integer _) as [q|]; [| exact Hs].
  destruct (read_optional to_decimal _) as [p|]; [| exact Hs].
  destruct (first_violation _) as [e|] eqn:Hv; [exact Hs |].
  destruct (filter (reached UPDATE w id) (fish_listings (db w))) as [|r [|r' more]] eqn:Hhit;
    [exact Hs | | exact Hs].
  cbn [map first_violation] in Hv.
  match type of Hv with context [revised_violation ?a ?b ?c ?d ?e ?f] =>
    destruct (revised_violation a b c d e f) eqn:Hrv; [discriminate Hv |] end.
  clear Hv. unfold revised_violation in Hrv.
  apply first_violation_cons in Hrv; destruct Hrv as [_ Hrv].
  apply first_violation_cons in Hrv; destruct Hrv as [_ Hrv].
  apply first_violation_cons in Hrv; destruct Hrv as [_ Hrv].
  apply first_violation_cons in Hrv; destruct Hrv as [_ Hrv].
  apply first_violation_cons in Hrv; destruct Hrv as [Hq Hrv].
  apply first_violation_cons in Hrv; destruct Hrv as [Hp Hrv].
  apply first_violation_cons in Hrv; destruct Hrv as [Hpk Hrv].
  apply first_violation_cons in Hrv; destruct Hrv as [Hfk Hrv].
  apply first_violation_cons in Hrv; destruct Hrv as [Hrefs _].
  apply require_none in Hq, Hp, Hpk, Hfk, Hrefs.
  apply Z.ltb_lt in Hq, Hp. apply negb_true_iff in Hpk.
  destruct Hs as (Hl & Ho & Hi & Hfl & Hfo & Hfi).
  set (change := revise updates (written q) (written p) (now w)) in *.
  assert (Hone : forall l, In l (fish_listings (db w)) ->
                           reached UPDATE w id l = true -> l = r).
  { intros l Hin Hreached.
    assert (Hf : In l (filter (reached UPDATE w id) (fish_listings (db w))))
      by (apply filter_In; auto).
    rewrite Hhit in Hf. destruct Hf as [<- | []]. reflexivity. }
  simpl. repeat split; try assumption.
  - apply revised_ids_distinct with (r := r); [exact Hl | exact Hhit |].
    apply no_row_with_id. exact Hpk.
  - apply Forall_forall. intros l' Hin. apply in_map_iff in Hin.
    destruct Hin as (l & <- & Hin).
    destruct (reached UPDATE w id l) eqn:Hreached.
    + rewrite (Hone l Hin Hreached). repeat split; assumption.
    + rewrite Forall_forall in Hfl. apply (Hfl l Hin).
  - apply Forall_forall. intros x Hin.
    rewrite Forall_forall in Hfi. destruct (Hfi x Hin) as (Hxo & Hxl & Hrest).
    split; [exact Hxo | split; [| exact Hrest]].
    unfold has_listing in *. simpl. apply existsb_exists in Hxl.
    destruct Hxl as (l & Hlin & Hlid). apply existsb_exists.
    exists (if reached UPDATE w id l then change l else l).
    split; [apply in_map_iff; exists l; auto |].
    destruct (reached UPDATE w id l) eqn:Hreached; [| exact Hlid].
    rewrite (Hone l Hlin Hreached) in *.
    apply orb_true_iff in Hrefs. destruct Hrefs as [H | H].
    + apply uuid_eqb_eq in H. rewrite H. exact Hlid.
    + exfalso. apply negb_true_iff in H.
      assert (E : existsb (fun y => uuid_eqb (OrderItem.fish_listing_id y) (FishListing.id r))
                          (order_items (db w)) = true).
      { apply existsb_exists. exists x. split; [exact Hin |].
        rewrite uuid_eqb_sym. exact Hlid. }
      congruence.
Qed.

(** X12. The three requests on listings keep the constraints of the schema:
    after [createFishListing], [updateFishListing] or [deleteFishListing],
    whoever calls it and whatever it answers, the primary keys are still
    distinct, every listing still has its farmer, every order item still has
    its order and its listing, and the checked columns are still positive. *)
Theorem listing_requests_keep_the_schema (listingData : ListingData.t) (id : uuid)
    (updates : ListingUpdates.t) (w : World) :
  sound (db w) ->
  sound (db (snd (createFishListing listingData w)))
  /\ sound (db (snd (updateFishListing id updates w)))
  /\ sound (db (snd (deleteFishListing id w))).
Proof.
  intros Hs. split; [| split].
  - apply createFishListing_sound. exact Hs.
  - apply updateFishListing_sound. exact Hs.
  - apply deleteFishListing_sound. exact Hs.
Qed.

(* ================================================================== *)
(** ** Orders: what a checkout leaves alone, and who reads an order *)

(** X13. A checkout only appends: the orders and order items that were
    stored stay as they are, in place, followed by whatever the checkout
    wrote; the farmers, the customers and the signed-in user are as
    before. *)
Theorem checkout_only_appends (ui : Dashboard) (w : World) :
  let after := snd (handleCheckout ui w) in
  (exists new, orders (db after) = orders (db w) ++ new)
  /\ (exists new, order_items (db after) = order_items (db w) ++ new)
  /\ farmers (db after) = farmers (db w)
  /\ customers (db after) = customers (db w)
  /\ session after = session w.
Proof.
  intros after. subst after. rewrite handleCheckout_world.
  destruct (place_orders_grows (values (group_by_farmer (cart ui))) w)
    as (Hs & Hf & Hc & _ & Ho & Hi).
  repeat split; assumption.
Qed.

Lemma insert_order_ok (customer farmer : uuid) (code : string) (total : number)
    (w w' : World) (order : Order.t) :
  insert_order customer farmer code total w = (ok order, w') ->
  has_order (db w) (Order.id order) = false
  /\ Order.customer_id order = customer
  /\ Order.farmer_id order = farmer
  /\ db w' = with_orders (db w) (orders (db w) ++ [order]).
Proof.
  unfold insert_order.
  destruct (to_decimal total) as [t|]; [| intros H; discriminate H].
  unfold gen_random_uuid.
  match goal with |- context [orders_violation ?w1 ?r] =>
    destruct (orders_violation w1 r) as [e|] eqn:Hv end;
    intros H; [discriminate H |].
  injection H as <- <-. simpl.
  unfold orders_violation in Hv.
  apply first_violation_cons in Hv; destruct Hv as [_ Hv].
  apply first_violation_cons in Hv; destruct Hv as [_ Hv].
  apply first_violation_cons in Hv; destruct Hv as [Hpk _].
  apply require_none in Hpk. apply negb_true_iff in Hpk. simpl in Hpk.
  repeat split. exact Hpk.
Qed.

Lemma no_order_with_id (d : Database) (i : uuid) (g : Order.t -> bool) :
  has_order d i = false ->
  existsb (fun o => uuid_eqb (Order.id o) i && g o) (orders d) = false.
Proof.
  unfold has_order. induction (orders d) as [|o rest IH]; simpl; [reflexivity |].
  intros H. apply orb_false_iff in H. destruct H as [H1 H2].
  rewrite H1, IH by exact H2. reflexivity.
Qed.

(** X14. An order that [createOrder] has placed can be read by its customer
    and by its farmer and by nobody else, and each of its items can be read
    by exactly those who can read the order. *)
Theorem placed_order_is_read_by_its_parties (orderData : OrderData.t) (w w' : World)
    (order : Order.t) (rows : list OrderItem.t) (reader : uuid) :
  createOrder orderData w = (Normal (ok (order, Some rows)), w') ->
  permitted orders_policies SELECT (Some reader) (db w') order
  = (uuid_eqb (Order.customer_id order) reader || uuid_eqb (Order.farmer_id order) reader)
  /\ Forall (fun row =>
               permitted order_items_policies SELECT (Some reader) (db w') row
               = permitted orders_policies SELECT (Some reader) (db w') order)
            rows.
Proof.
  intros Hrun.
  assert (Hread : forall d,
             permitted orders_policies SELECT (Some reader) d order
             = (uuid_eqb (Order.customer_id order) reader
                || uuid_eqb (Order.farmer_id order) reader)).
  { intros d. unfold permitted. simpl. rewrite orb_false_r. reflexivity. }
  split; [apply Hread |]. rewrite Hread.
  unfold createOrder, bind, getUser, throw, ret, request in Hrun.
  destruct (session w) as [user|]; [| discriminate Hrun].
  pose proof (insert_order_inv user (OrderData.farmer_id orderData)
                (OrderData.farmer_code orderData) (OrderData.total_amount orderData) w) as Hinv.
  destruct (insert_order _ _ _ _ w) as [created w1] eqn:Hins.
  destruct Hinv as [_ [(e & -> & _) | (order' & -> & _)]]; simpl in Hrun;
    [discriminate Hrun |].
  apply insert_order_ok in Hins. destruct Hins as (Hfresh & _ & _ & Hd).
  match type of Hrun with context [insert_order_items ?xs w1] =>
    pose proof (insert_order_items_inv xs w1) as Hitems;
    destruct (insert_order_items xs w1) as [written w2] end.
  destruct Hitems as [_ [(e & -> & _) | (rows' & -> & Hrows & Hd2)]]; simpl in Hrun;
    [discriminate Hrun |].
  injection Hrun as -> -> ->.
  assert (Hall : Forall (fun row => OrderItem.order_id row = Order.id order) rows).
  { clear - Hrows. remember (map _ (OrderData.items orderData)) as xs eqn:Hxs.
    assert (Hids : Forall (fun x => NewItem.order_id x = Order.id order) xs).
    { subst xs. apply Forall_forall. intros x Hx. apply in_map_iff in Hx.
      destruct Hx as (i & <- & _). reflexivity. }
    clear Hxs. induction Hrows as [|x row xs rows Hst _ IH]; constructor.
    - destruct Hst as (Ho & _). inversion Hids; subst. congruence.
    - apply IH. inversion Hids; assumption. }
  eapply Forall_impl; [| exact Hall]. simpl. intros row Hrow.
  unfold permitted. simpl. rewrite Hd2, Hd. simpl.
  rewrite existsb_app, Hrow. simpl.
  rewrite (no_order_with_id (db w) (Order.id order) _ Hfresh).
  rewrite uuid_eqb_refl. simpl. rewrite !orb_false_r. reflexivity.
Qed.

End MoreProperties.

(* ================================================================== *)
(** ** Farmers: unique columns and the code generator *)

Lemma no_row_with_text {A : Type} (f : A -> string) (l : list A) (s : string) :
  existsb (fun x => String.eqb (f x) s) l = false -> ~ In s (map f l).
Proof.
  intros H Hin. apply in_map_iff in Hin. destruct Hin as (x & Hx & Hin).
  assert (E : existsb (fun x => String.eqb (f x) s) l = true).
  { apply existsb_exists. exists x. split; [exact Hin | rewrite Hx; apply String.eqb_refl]. }
  congruence.
Qed.

Lemma NoDup_snoc {A B : Type} (f : A -> B) (l : list A) (x : A) :
  NoDup (map f l) -> ~ In (f x) (map f l) -> NoDup (map f (l ++ [x])).
Proof.
  intros Hnd Hnew. rewrite map_app. simpl.
  apply NoDup_app; [exact Hnd | repeat constructor; intros [] |].
  intros y Hy [<- | []]. contradiction.
Qed.

(** X15. Inserting a farmer keeps ids, emails and codes distinct, and a row
    whose email, or whose supplied code, some farmer already has is refused
    and not written. *)
Theorem insert_farmer_keeps_farmers_distinct (fuel : nat) (new : NewFarmer.t)
    (w w' : World) (r : Response Farmer.t) :
  insert_farmer fuel new w = (Some r, w') ->
  distinct_farmers (db w) ->
  distinct_farmers (db w')
  /\ (forall f, In f (farmers (db w)) ->
                Farmer.email f = NewFarmer.email new
                \/ Some (Farmer.unique_code f) = NewFarmer.unique_code new
                   /\ Farmer.unique_code f <> "" ->
                (exists e, r = failed e) /\ db w' = db w).
Proof.
  unfold insert_farmer.
  destruct (set_farmer_code fuel new w) as [[code|] w1] eqn:Hset;
    [| intros H; discriminate H].
  assert (Hd : db w1 = db w).
  { unfold set_farmer_code in Hset.
    assert (Hgen : forall n v c v', generate_farmer_code n v = (c, v') -> db v' = db v).
    { induction n as [|n IH]; intros v c v' H; simpl in H.
      - injection H as _ <-. reflexivity.
      - unfold random in H. simpl in H.
        destruct (negb _); [injection H as _ <-; reflexivity |].
        apply IH in H. exact H. }
    destruct (NewFarmer.unique_code new) as [c|].
    - destruct (String.eqb c ""); [eapply Hgen; exact Hset |].
      injection Hset as _ <-. reflexivity.
    - eapply Hgen; exact Hset. }
  match goal with |- context [farmers_violation w1 ?row] =>
    destruct (farmers_violation w1 row) as [e|] eqn:Hv end;
    intros H Hdistinct; injection H as <- <-.
  - rewrite Hd. split; [exact Hdistinct |]. intros f Hf _.
    split; [eexists; reflexivity | reflexivity].
  - unfold farmers_violation in Hv.
    apply first_violation_cons in Hv; destruct Hv as [_ Hv].
    apply first_violation_cons in Hv; destruct Hv as [Hpk Hv].
    apply first_violation_cons in Hv; destruct Hv as [Hemail Hv].
    apply first_violation_cons in Hv; destruct Hv as [Hcode _].
    apply require_none in Hpk, Hemail, Hcode.
    apply negb_true_iff in Hpk, Hemail, Hcode. simpl in Hpk, Hemail, Hcode.
    rewrite Hd in Hpk, Hemail, Hcode.
    destruct Hdistinct as (Hi & He & Hc). simpl. rewrite Hd. simpl.
    split.
    + split; [| split]; apply NoDup_snoc; try assumption; simpl.
      * apply no_row_with_id. exact Hpk.
      * apply no_row_with_text. exact Hemail.
      * apply no_row_with_text. exact Hcode.
    + intros f Hf [Hsame | [Hsame Hgiven]]; exfalso.
      * apply (no_row_with_text Farmer.email _ _ Hemail).
        rewrite <- Hsame. apply in_map. exact Hf.
      * apply (no_row_with_text Farmer.unique_code _ _ Hcode).
        unfold set_farmer_code in Hset. rewrite <- Hsame in Hset.
        destruct (String.eqb (Farmer.unique_code f) "") eqn:E;
          [apply String.eqb_eq in E; contradiction |].
        injection Hset as <- _. apply in_map. exact Hf.
Qed.

(** X16. [generate_farmer_code] changes no table, and what it returns is
    the code of one of its rounds.  Called for a signed-in user it never
    returns a code some farmer has: it returns the code of the first round
    whose code no farmer has, every earlier round having drawn a code that
    is taken.  Called for a user who is not signed in, its check reads no
    farmer (row-level security hides them all) and it returns the code of
    its first round, taken or not.  With fuel for [n] rounds it fails to
    return only for a signed-in user and when each of the first [n] rounds
    drew a code that is taken. *)
Theorem generate_farmer_code_result (fuel : nat) (w : World) :
  match generate_farmer_code fuel w with
  | (Some code, w') =>
      db w' = db w
      /\ exists j, (j < fuel)%nat
                   /\ code = round w j
                   /\ match session w with
                      | Some _ =>
                          (forall f, In f (farmers (db w)) -> Farmer.unique_code f <> code)
                          /\ (forall i, (i < j)%nat ->
                                 exists f, In f (farmers (db w))
                                           /\ Farmer.unique_code f = round w i)
                      | None => j = 0%nat
                      end
  | (None, _) =>
      forall i, (i < fuel)%nat ->
        session w <> None
        /\ exists f, In f (farmers (db w)) /\ Farmer.unique_code f = round w i
  end.
Proof.
  pose proof (generate_farmer_code_checked fuel w) as H.
  destruct (generate_farmer_code fuel w) as [[code|] w'].
  - destruct H as (Hfree & Hd & j & Hj & Hcode & Hbefore).
    split; [exact Hd |]. exists j. split; [exact Hj | split; [exact Hcode |]].
    destruct (session w) as [user|] eqn:Hu.
    + split.
      * apply (code_free_signed_in w user code Hu). exact Hfree.
      * intros i Hi. apply (code_taken_signed_in w user _ Hu). apply Hbefore. exact Hi.
    + destruct j as [|j]; [reflexivity |].
      pose proof (Hbefore 0%nat ltac:(lia)) as H0.
      rewrite (code_exists_anonymous w _ Hu) in H0. discriminate H0.
  - intros i Hi. specialize (H i Hi).
    destruct (session w) as [user|] eqn:Hu.
    + split; [discriminate |]. apply (code_taken_signed_in w user _ Hu). exact H.
    + rewrite (code_exists_anonymous w _ Hu) in H. discriminate H.
Qed.

(* ================================================================== *)
(** ** Accounts *)

Section AccountProperties.

Context {services : Services}.

(** X17. When [signUpCustomer] answers with a customer row, the row has
    been appended to
    [customers], its id is the user the identity provider created, the
    client is signed in as that very user, the row carries the email given
    and the fixed text [handled_by_auth] in place of a password, and no
    customer before had its id or its email.  In every other case no table
    has changed. *)
Theorem signUpCustomer_outcome (customerData : CustomerData.t) (w : World) :
  let answer := auth_signUp (CustomerData.email customerData)
                            (CustomerData.password customerData) (session w) in
  match signUpCustomer customerData w with
  | (answered (Some row) error, w') =>
      error = None
      /\ auth_user (fst answer) = Some (Customer.id row)
      /\ session w' = Some (Customer.id row)
      /\ db w' = with_customers (db w) (customers (db w) ++ [row])
      /\ Customer.email row = CustomerData.email customerData
      /\ Customer.password_hash row = "handled_by_auth"
      /\ (forall c, In c (customers (db w)) ->
                    Customer.id c <> Customer.id row
                    /\ Customer.email c <> Customer.email row)
  | (answered None error, w') => error <> None /\ db w' = db w
  | (undefined, w') => db w' = db w
  | (still_running, _) => False
  end.
Proof.
  intros answer. subst answer. unfold signUpCustomer, caught.
  destruct (auth_signUp _ _ _) as [authResponse signed_in]. simpl.
  destruct (auth_failure authResponse) as [authError|];
    [split; [discriminate | reflexivity] |].
  destruct (auth_user authResponse) as [user|]; [| reflexivity].
  unfold insert_customer.
  match goal with |- context [customers_violation ?w1 ?r] =>
    destruct (customers_violation w1 r) as [e|] eqn:Hv end; simpl;
    [split; [discriminate | reflexivity] |].
  unfold customers_violation in Hv.
  apply first_violation_cons in Hv; destruct Hv as [Hrls Hv].
  apply first_violation_cons in Hv; destruct Hv as [Hpk Hv].
  apply first_violation_cons in Hv; destruct Hv as [Hemail _].
  apply require_none in Hrls, Hpk, Hemail.
  apply negb_true_iff in Hpk, Hemail. simpl in Hrls, Hpk, Hemail.
  assert (Hs : signed_in = Some user).
  { destruct signed_in as [u|]; [| discriminate Hrls].
    unfold permitted in Hrls. simpl in Hrls. rewrite orb_false_r in Hrls.
    apply uuid_eqb_eq in Hrls. congruence. }
  repeat split; try assumption.
  - intros E. apply (no_row_with_id Customer.id _ _ Hpk).
    rewrite <- E. apply in_map. assumption.
  - intros E. apply (no_row_with_text Customer.email _ _ Hemail).
    rewrite <- E. apply in_map. assumption.
Qed.

(** X18. When [signUpFarmer] answers with a farmer row, the row has been
    appended to [farmers], its id is the user the identity provider created
    and the client is signed in as that user; the row is unverified, holds
    [handled_by_auth] in place of a password, and its [unique_code], which
    the request did not send, is a generated code ([FSH], three digits,
    three capitals, given draws of [random()] in [0, 1)) that no farmer
    before had.  In every other case, a failed upload included, no table
    has changed. *)
Theorem signUpFarmer_outcome (fuel : nat) (farmerData : FarmerData.t) (w : World) :
  (forall n, (0 <= random_src w n /\ random_src w n < 1)%Q) ->
  let answer := auth_signUp (FarmerData.email farmerData)
                            (FarmerData.password farmerData) (session w) in
  match signUpFarmer fuel farmerData w with
  | (answered (Some row) error, w') =>
      error = None
      /\ auth_user (fst answer) = Some (Farmer.id row)
      /\ session w' = Some (Farmer.id row)
      /\ db w' = with_farmers (db w) (farmers (db w) ++ [row])
      /\ Farmer.is_verified row = false
      /\ Farmer.password_hash row = "handled_by_auth"
      /\ code_format (Farmer.unique_code row) = true
      /\ (forall f, In f (farmers (db w)) ->
                    Farmer.unique_code f <> Farmer.unique_code row
                    /\ Farmer.email f <> Farmer.email row)
  | (answered None error, w') => error <> None /\ db w' = db w
  | (undefined, w') => db w' = db w
  | (still_running, w') => db w' = db w
  end.
Proof.
  intros Hrange answer. subst answer. unfold signUpFarmer, caught.
  destruct (auth_signUp _ _ _) as [authResponse signed_in]. simpl.
  destruct (auth_failure authResponse) as [authError|];
    [split; [discriminate | reflexivity] |].
  destruct (auth_user authResponse) as [user|]; [| reflexivity].
  destruct (upload_document user business_cert _) as [certError|businessCertUrl];
    [split; [discriminate | reflexivity] |].
  destruct (upload_document user id_card _) as [idError|idCardUrl];
    [split; [discriminate | reflexivity] |].
  unfold insert_farmer, set_farmer_code. simpl.
  destruct (generate_farmer_code fuel (as_user w signed_in)) as [[code|] w1] eqn:Hgen.
  2:{ pose proof (generate_farmer_code_db fuel (as_user w signed_in)) as H.
      rewrite Hgen in H. exact H. }
  apply generate_farmer_code_some in Hgen.
  destruct Hgen as (_ & Hd & Hs & (n & Hn)). simpl in Hd, Hs.
  match goal with |- context [farmers_violation w1 ?r] =>
    destruct (farmers_violation w1 r) as [e|] eqn:Hv end; simpl;
    [split; [discriminate | exact Hd] |].
  unfold farmers_violation in Hv.
  apply first_violation_cons in Hv; destruct Hv as [Hrls Hv].
  apply first_violation_cons in Hv; destruct Hv as [_ Hv].
  apply first_violation_cons in Hv; destruct Hv as [Hemail Hv].
  apply first_violation_cons in Hv; destruct Hv as [Hcode _].
  apply require_none in Hrls, Hemail, Hcode.
  apply negb_true_iff in Hemail, Hcode. simpl in Hrls, Hemail, Hcode.
  rewrite Hs, Hd in Hrls. rewrite Hd in Hemail, Hcode.
  assert (Hin : signed_in = Some user).
  { destruct signed_in as [u|]; [| discriminate Hrls].
    unfold permitted in Hrls. simpl in Hrls. rewrite orb_false_r in Hrls.
    apply uuid_eqb_eq in Hrls. congruence. }
  rewrite Hs, Hd.
  split; [reflexivity | split; [reflexivity | split; [exact Hin |]]].
  split; [reflexivity | split; [reflexivity | split; [reflexivity | split]]].
  - rewrite Hn. unfold code_at. apply farmer_code_from_format; apply Hrange.
  - intros f Hf. split.
    + intros E. apply (no_row_with_text Farmer.unique_code _ _ Hcode).
      rewrite <- E. apply in_map. exact Hf.
    + intros E. apply (no_row_with_text Farmer.email _ _ Hemail).
      rewrite <- E. apply in_map. exact Hf.
Qed.

(** X19. [signInUser] reads, and changes no table; when it returns, the
    client is signed in as whoever the identity provider left signed in,
    also when no profile was found.  A profile it returns is a row of the
    table its type names, with the id of the user who signed in; a customer
    profile is returned only to a client signed in as that customer.  The
    farmer profile comes first: a signed-in user with exactly one farmer
    row gets the farmer profile whatever [customers] holds.  It throws only
    when the provider gives neither a user nor an error. *)
Theorem signInUser_outcome (email password : string) (w : World) :
  let answer := auth_signInWithPassword email password (session w) in
  let outcome := signInUser email password w in
  db (snd outcome) = db w
  /\ session (snd outcome) = snd answer
  /\ match fst outcome with
     | Normal r =>
         match signed_in_data r, signed_in_error r with
         | Some (user, farmer_profile f), None =>
             auth_user (fst answer) = Some user
             /\ In f (farmers (db w)) /\ Farmer.id f = user
         | Some (user, customer_profile c), None =>
             auth_user (fst answer) = Some user
             /\ In c (customers (db w)) /\ Customer.id c = user
             /\ snd answer = Some user
         | None, Some (sign_in_refused e) => auth_failure (fst answer) = Some e
         | None, Some profile_not_found =>
             auth_failure (fst answer) = None /\ auth_user (fst answer) <> None
         | _, _ => False
         end
     | Throw _ => auth_failure (fst answer) = None /\ auth_user (fst answer) = None
     end
  /\ (forall user f reader,
        auth_failure (fst answer) = None ->
        auth_user (fst answer) = Some user ->
        snd answer = Some reader ->
        filter (fun x => uuid_eqb (Farmer.id x) user) (farmers (db w)) = [f] ->
        fst outcome = Normal (mkSignedIn (Some (user, farmer_profile f)) None)).
Proof.
  intros answer outcome. subst answer outcome. unfold signInUser.
  destruct (auth_signInWithPassword email password (session w)) as [authResponse signed_in].
  simpl.
  destruct (auth_failure authResponse) as [e|] eqn:Hfail; simpl.
  { repeat split. intros user f reader H. discriminate H. }
  destruct (auth_user authResponse) as [user|] eqn:Huser; simpl.
  2:{ repeat split. intros user f reader _ H. discriminate H. }
  unfold select_farmer. simpl.
  destruct (filter (fun f => uuid_eqb (Farmer.id f) user)
                   (filter (permitted farmers_policies SELECT signed_in (db w))
                           (farmers (db w)))) as [|f [|f' more]] eqn:Hfarmers; simpl.
  2:{ (* one farmer row *)
      assert (Hf : In f (farmers (db w)) /\ Farmer.id f = user).
      { assert (H : In f (filter (fun f => uuid_eqb (Farmer.id f) user)
                            (filter (permitted farmers_policies SELECT signed_in (db w))
                                    (farmers (db w)))))
          by (rewrite Hfarmers; left; reflexivity).
        apply filter_In in H. destruct H as [H Hid]. apply filter_In in H.
        apply uuid_eqb_eq in Hid. split; [apply H | exact Hid]. }
      repeat split; try apply Hf.
      intros user' f0 reader _ Hu Hs Hone. injection Hu as <-. subst signed_in.
      rewrite (filter_all (permitted farmers_policies SELECT (Some reader) (db w)))
        in Hfarmers by (intros; apply farmer_readable).
      rewrite Hone in Hfarmers. injection Hfarmers as <-. reflexivity. }
  all: unfold select_customer; simpl.
  all: destruct (filter (fun c => uuid_eqb (Customer.id c) user)
                        (filter (permitted customers_policies SELECT signed_in (db w))
                                (customers (db w)))) as [|c [|c' more']] eqn:Hcustomers;
    simpl.
  all: repeat split; try discriminate.
  all: try (intros user' f0 reader _ Hu Hs Hone; injection Hu as <-; subst signed_in;
            rewrite (filter_all (permitted farmers_policies SELECT (Some reader) (db w)))
              in Hfarmers by (intros; apply farmer_readable);
            rewrite Hone in Hfarmers; discriminate Hfarmers).
  all: assert (Hc : In c (filter (fun c => uuid_eqb (Customer.id c) user)
                            (filter (permitted customers_policies SELECT signed_in (db w))
                                    (customers (db w)))))
         by (rewrite Hcustomers; left; reflexivity);
       apply filter_In in Hc; destruct Hc as [Hc Hid]; apply filter_In in Hc;
       destruct Hc as [Hin Hread]; apply uuid_eqb_eq in Hid.
  all: try exact Hin; try exact Hid.
  all: destruct signed_in as [u|]; [| discriminate Hread];
       unfold permitted in Hread; simpl in Hread; rewrite orb_false_r in Hread;
       apply uuid_eqb_eq in Hread; congruence.
Qed.

End AccountProperties.

(* ================================================================== *)
(** ** The farmer dashboard *)

Lemma insert_desc_front {A : Type} (key : A -> timestamp) (x : A) (l : list A) :
  (forall z, In z l -> key z < key x) -> insert_desc key x l = x :: l.
Proof.
  destruct l as [|y rest]; simpl; intros H; [reflexivity |].
  assert (E : (key y <? key x) = true) by (apply Z.ltb_lt, H; left; reflexivity).
  rewrite E. reflexivity.
Qed.

Lemma filter_insert_desc {A : Type} (key : A -> timestamp) (p : A -> bool) (x : A)
    (l : list A) :
  StronglySorted (fun a b => key b <= key a) l ->
  filter p (insert_desc key x l)
  = if p x then insert_desc key x (filter p l) else filter p l.
Proof.
  induction l as [|y rest IH]; simpl; intros Hs.
  - destruct (p x); reflexivity.
  - inversion Hs as [|? ? Hrest Hall]; subst.
    destruct (key y <? key x) eqn:E; simpl.
    + destruct (p x) eqn:Px, (p y) eqn:Py; simpl; rewrite ?E; try reflexivity.
      symmetry. apply insert_desc_front. intros z Hz.
      apply filter_In in Hz. destruct Hz as [Hz _].
      apply Z.ltb_lt in E. rewrite Forall_forall in Hall.
      specialize (Hall z Hz). simpl in Hall. lia.
    + destruct (p y) eqn:Py; rewrite (IH Hrest); destruct (p x); simpl;
        rewrite ?E; reflexivity.
Qed.

Lemma filter_order_desc {A : Type} (key : A -> timestamp) (p : A -> bool) (l : list A) :
  filter p (order_desc key l) = order_desc key (filter p l).
Proof.
  induction l as [|x rest IH]; [reflexivity |].
  change (order_desc key (x :: rest)) with (insert_desc key x (order_desc key rest)).
  rewrite filter_insert_desc by apply order_desc_sorted.
  simpl. destruct (p x); rewrite IH; reflexivity.
Qed.

Lemma own_rows_readable (farmer : uuid) (d : Database) (rows : list FishListing.t) :
  filter (fun l => uuid_eqb (FishListing.farmer_id l) farmer)
         (filter (permitted fish_listings_policies SELECT (Some farmer) d) rows)
  = filter (fun l => uuid_eqb (FishListing.farmer_id l) farmer) rows.
Proof.
  apply filter_filter_ext. intros l.
  destruct (uuid_eqb (FishListing.farmer_id l) farmer) eqn:E; [| reflexivity].
  apply uuid_eqb_eq in E. rewrite (own_listing_permitted SELECT farmer d l E).
  reflexivity.
Qed.

(** X20. A farmer is signed in and the dashboard shows what
    [getFarmerListings] returns.  After a confirmed [handleDeleteFish] the
    dashboard shows again exactly what [getFarmerListings] returns then, so
    the list on the screen and the table agree without a reload; the
    dashboard says that the listing was deleted, logs nothing, and is no
    longer loading. *)
Theorem dashboard_follows_the_delete (id : uuid) (ui : FarmerUI.t) (w : World)
    (farmer : uuid) :
  session w = Some farmer ->
  getFarmerListings w = (Normal (ok (FarmerUI.fishListings ui)), w) ->
  let ui' := fst (handleDeleteFish true id ui w) in
  let w' := snd (handleDeleteFish true id ui w) in
  getFarmerListings w' = (Normal (ok (FarmerUI.fishListings ui')), w')
  /\ FarmerUI.alerts ui' = FarmerUI.alerts ui ++ [deleted_successfully]
  /\ FarmerUI.console ui' = FarmerUI.console ui
  /\ FarmerUI.loading ui' = false.
Proof.
  intros Hu Hshown ui' w'. subst ui' w'.
  rewrite (getFarmerListings_as w farmer Hu) in Hshown.
  injection Hshown as Hshown.
  unfold handleDeleteFish, deleteFishListing, request, delete_fish_listing. simpl.
  repeat split.
  rewrite (getFarmerListings_as _ farmer) by exact Hu.
  simpl. rewrite <- Hshown, filter_order_desc, !own_rows_readable.
  assert (Hleft : filter (fun fish => negb (uuid_eqb (FishListing.id fish) id))
                    (filter (fun l => uuid_eqb (FishListing.farmer_id l) farmer)
                            (fish_listings (db w)))
                  = filter (fun l => uuid_eqb (FishListing.farmer_id l) farmer
                                     && negb (uuid_eqb (FishListing.id l) id))
                           (fish_listings (db w))).
  { apply filter_filter_ext. intros l. apply andb_comm. }
  assert (Hright : filter (fun l => uuid_eqb (FishListing.farmer_id l) farmer)
                     (filter (fun r => negb (reached DELETE w id r))
                             (fish_listings (db w)))
                   = filter (fun l => uuid_eqb (FishListing.farmer_id l) farmer
                                      && negb (uuid_eqb (FishListing.id l) id))
                            (fish_listings (db w))).
  { apply filter_filter_ext. intros l.
    rewrite (reached_own DELETE w farmer id l) by auto.
    destruct (uuid_eqb (FishListing.farmer_id l) farmer),
             (uuid_eqb (FishListing.id l) id); reflexivity. }
  rewrite Hleft, Hright. reflexivity.
Qed.

(** X21. [loadFishListings] changes nothing in the store and ends with the
    dashboard no longer loading.  For a signed-in farmer it shows that
    farmer's listings, each exactly once and newest first, and says
    nothing; when nobody is signed in it keeps the list it had, says that
    loading failed and logs the error. *)
Theorem loadFishListings_outcome (ui : FarmerUI.t) (w : World) :
  let ui' := fst (loadFishListings ui w) in
  snd (loadFishListings ui w) = w
  /\ FarmerUI.loading ui' = false
  /\ match session w with
     | Some farmer =>
         StronglySorted newest_first (FarmerUI.fishListings ui')
         /\ Permutation (FarmerUI.fishListings ui')
              (filter (fun l => uuid_eqb (FishListing.farmer_id l) farmer)
                      (fish_listings (db w)))
         /\ FarmerUI.alerts ui' = FarmerUI.alerts ui
         /\ FarmerUI.console ui' = FarmerUI.console ui
     | None =>
         FarmerUI.fishListings ui' = FarmerUI.fishListings ui
         /\ FarmerUI.alerts ui' = FarmerUI.alerts ui ++ [failed_to_load]
         /\ FarmerUI.console ui' = FarmerUI.console ui ++ [Error "User not authenticated"]
     end.
Proof.
  intros ui'. subst ui'. unfold loadFishListings.
  destruct (session w) as [farmer|] eqn:Hu.
  - rewrite (getFarmerListings_as w farmer Hu). simpl.
    rewrite own_rows_readable.
    repeat split.
    + apply (order_desc_sorted FishListing.created_at).
    + apply order_desc_perm.
  - unfold getFarmerListings, bind, getUser. rewrite Hu. simpl.
    repeat split.
Qed.

(* ================================================================== *)
(** ** The further properties on the small marketplace *)

Lemma market_sound : sound market.
Proof.
  unfold sound. simpl.
  repeat split; repeat constructor; simpl; try lia; intuition discriminate.
Qed.

Lemma market_distinct_farmers : distinct_farmers market.
Proof.
  unfold distinct_farmers. simpl.
  repeat split; repeat constructor; simpl; intuition discriminate.
Qed.

(** Listing A is added twice to a cart that holds listing C: one line of
    listing A is appended, with the two quantities added. *)
Lemma addToCart_adds_up_market :
  addToCart (addToCart cart_of_C shown_listingA 2%float) shown_listingA 3%float
  = cart_of_C ++ [in_cart shown_listingA (2 + 3)%float].
Proof.
  apply addToCart_adds_up. simpl. intros [H | []]. discriminate H.
Defined.

(** Listing C is removed from its cart, and listing A is added to that
    cart and removed again. *)
Lemma removeFromCart_removes_market :
  ~ In listingC (map CartItem.id (removeFromCart cart_of_C listingC))
  /\ removeFromCart (addToCart cart_of_C shown_listingA 2%float)
       (JsListing.id shown_listingA)
     = cart_of_C.
Proof.
  destruct (removeFromCart_removes cart_of_C shown_listingA 2%float listingC)
    as [Hgone Hundone].
  split; [exact Hgone | apply Hundone].
  simpl. intros [H | []]. discriminate H.
Defined.

(** The line of listing A in the demonstration cart is set to 5. *)
Lemma updateCartQuantity_sets_market :
  let item := cart_line listingA farmer1 catfish info1 100%float 5%float in
  In item (updateCartQuantity demo_cart listingA 5%float)
  /\ CartItem.orderQuantity item = 5%float
  /\ (5 <=? 0)%float = false.
Proof.
  intros item.
  assert (Hin : In item (updateCartQuantity demo_cart listingA 5%float))
    by (left; reflexivity).
  split; [exact Hin |].
  apply (proj1 (updateCartQuantity_sets demo_cart listingA 5%float) item Hin).
  reflexivity.
Defined.

(** farmer1 reads the own listings of the market. *)
Lemma own_listings_are_all_returned_market :
  exists rows,
    getFarmerListings (world_of market (Some farmer1))
    = (Normal (ok rows), world_of market (Some farmer1))
    /\ StronglySorted newest_first rows
    /\ Permutation rows
         (filter (fun l => uuid_eqb (FishListing.farmer_id l) farmer1)
                 (fish_listings market)).
Proof.
  apply (own_listings_are_all_returned (world_of market (Some farmer1)) farmer1).
  reflexivity.
Defined.

(** farmer2 creates a listing; customer1 finds it in the catalog with
    farmer2's public details. *)
Lemma created_listing_is_listed_market :
  let w := world_of market (Some farmer2) in
  let w' := snd (createFishListing tilapia_offer w) in
  createFishListing tilapia_offer w = (Normal (ok tilapia_row), w')
  /\ exists rows listed,
       getFishListings (as_user w' (Some customer1))
       = (Normal (ok rows), as_user w' (Some customer1))
       /\ In listed rows
       /\ Listed.listing listed = tilapia_row
       /\ Listed.farmer listed = Some info2.
Proof.
  intros w w'.
  assert (Hcreated : createFishListing tilapia_offer w = (Normal (ok tilapia_row), w'))
    by (vm_compute; reflexivity).
  split; [exact Hcreated |].
  destruct (created_listing_is_listed tilapia_offer w w' tilapia_row customer1 Hcreated)
    as (_ & rows & listed & f & Hread & Hin & Hrow & Hf & Hid & Hinfo).
  exists rows, listed. repeat split; try assumption.
  rewrite Hinfo. f_equal.
  vm_compute in Hf. destruct Hf as [<- | [<- | []]];
    [vm_compute in Hid; discriminate Hid | reflexivity].
Defined.

(** farmer1 changes the price of listing A: the row comes back changed,
    still farmer1's, stamped with the time of the request; farmer2's
    listing C stays as it was. *)
Lemma update_changes_own_listing_only_market :
  let w := world_of market (Some farmer1) in
  let after := db (snd (updateFishListing listingA price_change w)) in
  exists row,
    fst (updateFishListing listingA price_change w) = Normal (ok row)
    /\ FishListing.price_per_unit row = 12000
    /\ In row (fish_listings after)
    /\ FishListing.farmer_id row = farmer1
    /\ FishListing.updated_at row = 5
    /\ In (FishListing.mk listingC farmer2 dry_fish 90 2000 "smoked fish" true 3 3)
          (fish_listings after).
Proof.
  intros w after.
  pose proof (update_changes_own_listing_only listingA price_change w farmer1 eq_refl)
    as H.
  cbv zeta in H. destruct H as (Hothers & _ & _ & _ & _ & _ & Hrow & _).
  eexists. split; [vm_compute; reflexivity |].
  split; [reflexivity |].
  destruct (Hrow _ ltac:(vm_compute; reflexivity)) as (Hin & Hown & _ & _ & Hat & _).
  split; [exact Hin |]. split; [exact Hown |]. split; [exact Hat |].
  apply Hothers.
  - simpl. auto.
  - discriminate.
Defined.

(** farmer1 deletes listing B: no error, and the listings left are those
    of the market other than farmer1's listing B. *)
Lemma delete_removes_own_listing_only_market :
  let w := world_of market (Some farmer1) in
  fst (deleteFishListing listingB w) = Normal (mkResponse None None)
  /\ forall l, In l (fish_listings (db (snd (deleteFishListing listingB w))))
               <-> In l (fish_listings market)
                   /\ ~ (FishListing.id l = listingB /\ FishListing.farmer_id l = farmer1).
Proof.
  intros w.
  pose proof (delete_removes_own_listing_only listingB w farmer1 eq_refl) as H.
  cbv zeta in H. destruct H as (Hanswer & Hlistings & _).
  split; [exact Hanswer | exact Hlistings].
Defined.

(** The market keeps the constraints of the schema through customer1's
    checkout of the demonstration cart. *)
Lemma checkout_keeps_the_schema_market :
  sound (db (snd (handleCheckout (fresh_ui demo_cart) (world_of market (Some customer1))))).
Proof.
  apply checkout_keeps_the_schema. exact market_sound.
Defined.

(** The market keeps them through farmer1's creating a listing, changing
    the price of listing A and deleting listing A. *)
Lemma listing_requests_keep_the_schema_market :
  let w := world_of market (Some farmer1) in
  sound (db (snd (createFishListing tilapia_offer w)))
  /\ sound (db (snd (updateFishListing listingA price_change w)))
  /\ sound (db (snd (deleteFishListing listingA w))).
Proof.
  intros w. apply listing_requests_keep_the_schema. exact market_sound.
Defined.

(** customer1 places the order of farmer1's group: farmer1 may read the
    order and its two items, farmer2 may read neither. *)
Lemma placed_order_is_read_by_its_parties_market :
  let w := world_of market (Some customer1) in
  exists order rows w',
    createOrder (order_data group1) w = (Normal (ok (order, Some rows)), w')
    /\ List.length rows = 2%nat
    /\ permitted orders_policies SELECT (Some farmer1) (db w') order = true
    /\ Forall (fun row =>
                 permitted order_items_policies SELECT (Some farmer1) (db w') row = true)
              rows
    /\ permitted orders_policies SELECT (Some farmer2) (db w') order = false
    /\ Forall (fun row =>
                 permitted order_items_policies SELECT (Some farmer2) (db w') row = false)
              rows.
Proof.
  intros w.
  destruct (createOrder (order_data group1) w) as [answer w'] eqn:Hplaced.
  assert (Hanswer : exists order rows,
             answer = Normal (ok (order, Some rows))
             /\ List.length rows = 2%nat
             /\ Order.customer_id order = customer1
             /\ Order.farmer_id order = farmer1).
  { vm_compute in Hplaced. injection Hplaced as <- _.
    eexists _, _. repeat split. }
  destruct Hanswer as (order & rows & -> & Hlen & Hcustomer & Hfarmer).
  exists order, rows, w'. split; [reflexivity |]. split; [exact Hlen |].
  destruct (placed_order_is_read_by_its_parties (order_data group1) w w' order rows
              farmer1 Hplaced) as [Hread1 Hitems1].
  destruct (placed_order_is_read_by_its_parties (order_data group1) w w' order rows
              farmer2 Hplaced) as [Hread2 Hitems2].
  rewrite Hcustomer, Hfarmer in Hread1, Hread2.
  change (permitted orders_policies SELECT (Some farmer1) (db w') order = true) in Hread1.
  change (permitted orders_policies SELECT (Some farmer2) (db w') order = false) in Hread2.
  repeat split; try assumption.
  - eapply Forall_impl; [| exact Hitems1]. simpl. intros row ->. exact Hread1.
  - eapply Forall_impl; [| exact Hitems2]. simpl. intros row ->. exact Hread2.
Defined.

(** farmer3 is inserted into the market: ids, emails and codes stay
    distinct. *)
Lemma insert_farmer_keeps_farmers_distinct_market :
  exists r w',
    insert_farmer 2 new_farmer signup_world = (Some r, w')
    /\ List.length (farmers (db w')) = 3%nat
    /\ distinct_farmers (db w').
Proof.
  destruct (insert_farmer 2 new_farmer signup_world) as [answer w'] eqn:Hinserted.
  assert (Hanswer : exists r, answer = Some r /\ List.length (farmers (db w')) = 3%nat).
  { vm_compute in Hinserted. injection Hinserted as <- <-.
    eexists. split; reflexivity. }
  destruct Hanswer as (r & -> & Hlen).
  exists r, w'. split; [reflexivity |]. split; [exact Hlen |].
  apply (insert_farmer_keeps_farmers_distinct 2 new_farmer signup_world w' r Hinserted).
  exact market_distinct_farmers.
Defined.

(** For farmer3, signed in, the loop passes over farmer1's code and
    returns the second code drawn, which no farmer has; for a caller who is
    not signed in it returns the first code drawn, which is farmer1's. *)
Lemma generate_farmer_code_result_market :
  (exists w',
      generate_farmer_code 2 signup_world = (Some "FSH007ZNB", w')
      /\ forall f, In f (farmers market) -> Farmer.unique_code f <> "FSH007ZNB")
  /\ (exists w' f,
        generate_farmer_code 2 (as_user signup_world None)
        = (Some (Farmer.unique_code f), w')
        /\ In f (farmers market)).
Proof.
  split.
  - pose proof (generate_farmer_code_result 2 signup_world) as H.
    destruct (generate_farmer_code 2 signup_world) as [[code|] w'] eqn:Hrun;
      [| vm_compute in Hrun; discriminate Hrun].
    assert (Hcode : code = "FSH007ZNB")
      by (vm_compute in Hrun; injection Hrun as <- _; reflexivity).
    subst code. exists w'. split; [reflexivity |].
    destruct H as (_ & j & _ & _ & Hfree & _). exact Hfree.
  - pose proof (generate_farmer_code_result 2 (as_user signup_world None)) as H.
    destruct (generate_farmer_code 2 (as_user signup_world None)) as [[code|] w'] eqn:Hrun;
      [| vm_compute in Hrun; discriminate Hrun].
    destruct H as (_ & j & _ & Hcode & Hfirst). simpl in Hfirst. subst j.
    exists w', (farmer_row farmer1 "Ada" "0800000001" "ada@example.com" "FSH001AAA").
    split; [rewrite Hcode; vm_compute; reflexivity | left; reflexivity].
Defined.

(** Dayo signs up as a customer of the market. *)
Lemma signUpCustomer_outcome_market :
  let w := world_of market None in
  exists row w',
    @signUpCustomer market_services dayo w = (answered (Some row) None, w')
    /\ Customer.id row = customer2
    /\ session w' = Some customer2
    /\ db w' = with_customers market (customers market ++ [row])
    /\ forall c, In c (customers market) -> Customer.email c <> Customer.email row.
Proof.
  intros w.
  pose proof (@signUpCustomer_outcome market_services dayo w) as H. cbv zeta in H.
  destruct (@signUpCustomer market_services dayo w) as [answer w'] eqn:Hsigned.
  assert (Hanswer : exists row, answer = answered (Some row) None
                                /\ Customer.id row = customer2).
  { vm_compute in Hsigned. injection Hsigned as <- _. eexists. split; reflexivity. }
  destruct Hanswer as (row & -> & Hid).
  destruct H as (_ & _ & Hsession & Hdb & _ & _ & Hnew).
  exists row, w'. rewrite Hid in Hsession.
  repeat split; try assumption.
  intros c Hc. apply (Hnew c Hc).
Defined.

(** Efe signs up as a farmer of the market while the generator first draws
    farmer1's code: the row stored carries the second code drawn. *)
Lemma signUpFarmer_outcome_market :
  let w := as_user signup_world None in
  exists row w',
    @signUpFarmer market_services 2 efe w = (answered (Some row) None, w')
    /\ Farmer.unique_code row = "FSH007ZNB"
    /\ session w' = Some farmer3
    /\ db w' = with_farmers market (farmers market ++ [row])
    /\ code_format (Farmer.unique_code row) = true
    /\ forall f, In f (farmers market) -> Farmer.unique_code f <> Farmer.unique_code row.
Proof.
  intros w.
  pose proof (@signUpFarmer_outcome market_services 2 efe w signup_draws_in_range) as H.
  cbv zeta in H.
  destruct (@signUpFarmer market_services 2 efe w) as [answer w'] eqn:Hsigned.
  assert (Hanswer : exists row, answer = answered (Some row) None
                                /\ Farmer.id row = farmer3
                                /\ Farmer.unique_code row = "FSH007ZNB").
  { vm_compute in Hsigned. injection Hsigned as <- _. eexists. repeat split. }
  destruct Hanswer as (row & -> & Hid & Hcode).
  destruct H as (_ & _ & Hsession & Hdb & _ & _ & Hformat & Hnew).
  exists row, w'. rewrite Hid in Hsession.
  repeat split; try assumption.
  intros f Hf. apply (Hnew f Hf).
Defined.

(** Ada signs in to the market and gets her farmer profile. *)
Lemma signInUser_outcome_market :
  fst (@signInUser market_services "ada@example.com" "secret" (world_of market None))
  = Normal (mkSignedIn
              (Some (farmer1,
                     farmer_profile
                       (farmer_row farmer1 "Ada" "0800000001" "ada@example.com"
                          "FSH001AAA")))
              None).
Proof.
  pose proof (@signInUser_outcome market_services "ada@example.com" "secret"
                (world_of market None)) as H.
  cbv zeta in H. destruct H as (_ & _ & _ & Hfarmer).
  apply (Hfarmer farmer1 _ farmer1); reflexivity.
Defined.

(** farmer1's dashboard has loaded the listings; farmer1 deletes listing A
    and the dashboard shows listing B, which is what a reload returns. *)
Lemma dashboard_follows_the_delete_market :
  let w := world_of market (Some farmer1) in
  let ui := fst (loadFishListings blank_farmer_ui w) in
  let ui' := fst (handleDeleteFish true listingA ui w) in
  let w' := snd (handleDeleteFish true listingA ui w) in
  map FishListing.id (FarmerUI.fishListings ui) = [listingB; listingA]
  /\ map FishListing.id (FarmerUI.fishListings ui') = [listingB]
  /\ getFarmerListings w' = (Normal (ok (FarmerUI.fishListings ui')), w').
Proof.
  intros w ui ui' w'.
  split; [reflexivity |]. split; [reflexivity |].
  pose proof (dashboard_follows_the_delete listingA ui w farmer1 eq_refl eq_refl) as H.
  cbv zeta in H. destruct H as [Hfeed _]. exact Hfeed.
Defined.
